(** * Cyberpunk 2077 Vortex extension: installer pipeline

    A shallow embedding of the installers of [src/installers.ts],
    [src/installer.redscript.ts] and the REDmod transformation, together
    with the properties of the specification that concern them.

    Paths and names are modelled as [string]: sequences of 8-bit
    characters, each standing for the UTF-16 code unit of its value, so
    that the paths of the model hold no character from U+0100 on.  The
    text of a file is a sequence of UTF-16 code units; arrays are [list]s.
    Promises are modelled by their outcome
    ([Resolved], [Rejected], or a synchronous exception [Thrown]).  Calls to
    the host's dialog and notification surface are collected in a trace of
    [UiEvent]s; calls to [log] only write to the host's log file and are not
    part of the trace. *)

From Stdlib Require Import String Ascii List Bool Arith NArith Lia.
Import ListNotations.

Open Scope char_scope.
Open Scope string_scope.
Open Scope list_scope.

(** ** Characters and lists of characters *)

Definition chars := list ascii.

Definition cBackslash : ascii := "\".
Definition cDot : ascii := ".".
Definition cDollar : ascii := "$".

Definition str (l : chars) : string := string_of_list_ascii l.
Definition unstr (s : string) : chars := list_ascii_of_string s.

Fixpoint takeWhile {A : Type} (p : A -> bool) (l : list A) : list A :=
  match l with
  | [] => []
  | x :: r => if p x then x :: takeWhile p r else []
  end.

Fixpoint dropWhile {A : Type} (p : A -> bool) (l : list A) : list A :=
  match l with
  | [] => []
  | x :: r => if p x then dropWhile p r else l
  end.

Definition chars_eqb (a b : chars) : bool := String.eqb (str a) (str b).

Fixpoint isPrefixOf (p s : chars) : bool :=
  match p, s with
  | [], _ => true
  | _ :: _, [] => false
  | a :: p', b :: s' => Ascii.eqb a b && isPrefixOf p' s'
  end.

Definition isSuffixOf (p s : chars) : bool := isPrefixOf (rev p) (rev s).

(** [findSub pat s] is the split of [s] around the first occurrence of
    [pat]: the text before it and the text after it. *)
Fixpoint findSub (pat s : chars) : option (chars * chars) :=
  if isPrefixOf pat s then Some ([], skipn (length pat) s)
  else match s with
       | [] => None
       | c :: r =>
           match findSub pat r with
           | Some (before, after) => Some (c :: before, after)
           | None => None
           end
       end.

(** [s.split("\")]: the text between backslashes. *)
Fixpoint splitBackslash (p : chars) : list chars :=
  match p with
  | [] => [[]]
  | c :: r =>
      if Ascii.eqb c cBackslash then [] :: splitBackslash r
      else match splitBackslash r with
           | [] => [[c]]
           | seg :: segs => (c :: seg) :: segs
           end
  end.

(** ** JavaScript string methods used by the installers *)

Module JS.

Definition startsWith (s p : string) : bool := isPrefixOf (unstr p) (unstr s).
Definition endsWith (s p : string) : bool := isSuffixOf (unstr p) (unstr s).

Definition includes (s p : string) : bool :=
  match findSub (unstr p) (unstr s) with Some _ => true | None => false end.

Definition lowerChar (c : ascii) : ascii :=
  let n := nat_of_ascii c in
  if ((65 <=? n) && (n <=? 90))%nat then ascii_of_nat (n + 32)
  else if ((192 <=? n) && (n <=? 222) && negb (n =? 215))%nat then ascii_of_nat (n + 32)
  else c.

(** [String.prototype.toLowerCase] on the characters of the model: the
    letters A to Z and the capital letters of U+00C0 to U+00DE have a
    lower-case form, 32 places on. *)
Definition toLowerCase (s : string) : string := str (map lowerChar (unstr s)).

(** The replacement text of [String.prototype.replace] for a string
    pattern (GetSubstitution without captures): [$$] is a dollar sign,
    [$&] the matched text, [$`] the text before the match and [$'] the
    text after it; any other dollar sign is literal. *)
Fixpoint getSubstitution (matched before after repl : chars) : chars :=
  match repl with
  | [] => []
  | c :: r =>
      if Ascii.eqb c "$" then
        match r with
        | d :: r' =>
            if Ascii.eqb d "$" then cDollar :: getSubstitution matched before after r'
            else if Ascii.eqb d "&" then matched ++ getSubstitution matched before after r'
            else if Ascii.eqb d "`" then before ++ getSubstitution matched before after r'
            else if Ascii.eqb d "'" then after ++ getSubstitution matched before after r'
            else c :: getSubstitution matched before after r
        | [] => [c]
        end
      else c :: getSubstitution matched before after r
  end.

(** [s.replace(pat, repl)] with a string pattern: only the first
    occurrence is replaced. *)
Definition replace (s pat repl : string) : string :=
  match findSub (unstr pat) (unstr s) with
  | None => s
  | Some (before, after) =>
      str (before ++ getSubstitution (unstr pat) before after (unstr repl) ++ after)
  end.

(** The text of a file, as [fs.readFileSync] with an encoding returns it:
    a JavaScript string, that is a sequence of UTF-16 code units. *)
Definition text : Type := list N.

(** The code unit of a character of a path, and a text written with such
    characters. *)
Definition codeUnit (c : ascii) : N := N_of_ascii c.
Definition textOf (s : string) : text := map codeUnit (unstr s).

Fixpoint text_eqb (a b : text) : bool :=
  match a, b with
  | [], [] => true
  | x :: a', y :: b' => N.eqb x y && text_eqb a' b'
  | _, _ => false
  end.

(** Line terminators, which the dot of a regular expression does not
    match: LF, CR, U+2028 and U+2029. *)
Definition isLineTerminator (c : N) : bool :=
  (N.eqb c 10 || N.eqb c 13 || N.eqb c 8232 || N.eqb c 8233)%N.

(** A number is a double.  The numbers of the model hold non-negative
    integers: every integer up to 2^53 is a double, a larger one is a
    double when it fits in 53 significant bits. *)
Definition TWO_POW_53 : N := 9007199254740992.

(** The double nearest to an integer, ties to the even mantissa. *)
Definition roundToDouble (n : N) : N :=
  if (n <=? TWO_POW_53)%N then n
  else
    let unit := (2 ^ (N.log2 n - 52))%N in
    let mantissa := (n / unit)%N in
    let rest := (n mod unit)%N in
    let half := (unit / 2)%N in
    let rounded :=
      if (rest <? half)%N then mantissa
      else if (half <? rest)%N then (mantissa + 1)%N
      else if N.even mantissa then mantissa else (mantissa + 1)%N in
    (rounded * unit)%N.

(** [a + b] on such numbers: the exact sum, rounded. *)
Definition addNumbers (a b : nat) : nat :=
  N.to_nat (roundToDouble (N.of_nat a + N.of_nat b)).

End JS.

(** ** Node's [path.win32]

    The installers use [path.win32] (or [path] on Windows).  The functions
    below follow the algorithms of Node's [lib/path.js]: the last path
    component is found scanning from the end, a drive letter prefix is never
    part of a component, and both slashes separate components. *)

Module Win32.

Definition sep : string := "\".

Definition isPathSeparator (c : ascii) : bool :=
  Ascii.eqb c "/" || Ascii.eqb c "\".

Definition notSep (c : ascii) : bool := negb (isPathSeparator c).

Definition isWindowsDeviceRoot (c : ascii) : bool :=
  let n := nat_of_ascii c in
  (((65 <=? n) && (n <=? 90)) || ((97 <=? n) && (n <=? 122)))%nat.

Definition hasDrivePrefix (p : chars) : bool :=
  match p with
  | c0 :: c1 :: _ => isWindowsDeviceRoot c0 && Ascii.eqb c1 ":"
  | _ => false
  end.

Definition afterDrive (p : chars) : chars :=
  if hasDrivePrefix p then skipn 2 p else p.

(** The separators at the end of the path. *)
Definition trailingSeparators (p : chars) : chars :=
  rev (takeWhile isPathSeparator (rev (afterDrive p))).

(** The last component: trailing separators are skipped, then the
    characters back to the previous separator are taken. *)
Definition lastComponent (p : chars) : chars :=
  rev (takeWhile notSep (dropWhile isPathSeparator (rev (afterDrive p)))).

(** [path.basename(p)] *)
Definition basename (p : string) : string := str (lastComponent (unstr p)).

(** [path.basename(p, suffix)].  The suffix is removed from the last
    component unless it is the whole component; when the component runs
    out while it still agrees with the end of the suffix, Node returns the
    rest of the path from the component on. *)
Definition basenameExt (p suffix : string) : string :=
  let pc := unstr p in
  let sc := unstr suffix in
  if ((length sc =? 0) || (length pc <? length sc))%nat then basename p
  else if String.eqb suffix p then ""
  else
    let c := lastComponent pc in
    if isSuffixOf sc c then
      if (length c =? length sc)%nat then str c
      else str (firstn (length c - length sc) c)
    else if isSuffixOf c sc then str (c ++ trailingSeparators pc)
    else str c.

Definition isDot (c : ascii) : bool := Ascii.eqb c ".".

(** The extension of a component: from its last dot on, unless there is
    no dot, the last dot is the first character, or the component is
    [..]. *)
Definition extOfComponent (c : chars) : chars :=
  let r := rev c in
  let post := takeWhile (fun x => negb (isDot x)) r in
  match dropWhile (fun x => negb (isDot x)) r with
  | [] => []
  | _ :: pre =>
      match pre with
      | [] => []
      | _ => if chars_eqb c [cDot; cDot] then [] else cDot :: rev post
      end
  end.

(** [path.extname(p)] *)
Definition extname (p : string) : string :=
  str (extOfComponent (lastComponent (unstr p))).

(** The root of a UNC path [\\server\share\rest], after its two leading
    separators: the server, the share and what follows the share. *)
Definition uncParse (rest : chars) : option (chars * chars * chars) :=
  let firstPart := takeWhile notSep rest in
  let r1 := dropWhile notSep rest in
  match firstPart, r1 with
  | [], _ => None
  | _, [] => None
  | _, _ =>
      let r2 := dropWhile isPathSeparator r1 in
      match r2 with
      | [] => None
      | _ => Some (firstPart, takeWhile notSep r2, dropWhile notSep r2)
      end
  end.

(** [path.dirname(p)] *)
Definition dirname (p : string) : string :=
  let pc := unstr p in
  match pc with
  | [] => "."
  | [c] => if isPathSeparator c then p else "."
  | c0 :: c1 :: rest =>
      let finish (rootEnd : option nat) (offset : nat) : string :=
        let r' := dropWhile isPathSeparator (rev (skipn offset pc)) in
        let r'' := dropWhile notSep r' in
        match r'' with
        | [] => match rootEnd with
                | None => "."
                | Some e => str (firstn e pc)
                end
        | _ => str (firstn (offset + length r'' - 1) pc)
        end in
      if isPathSeparator c0 then
        if isPathSeparator c1 then
          match uncParse rest with
          | Some (firstPart, secondPart, r3) =>
              match r3 with
              | [] => p
              | _ => let j := length pc - length r3 in
                     finish (Some (j + 1)) (j + 1)
              end
          | None => finish (Some 1) 1
          end
        else finish (Some 1) 1
      else if isWindowsDeviceRoot c0 && Ascii.eqb c1 ":" then
        let rootEnd :=
          match rest with
          | c2 :: _ => if isPathSeparator c2 then 3 else 2
          | [] => 2
          end in
        finish (Some rootEnd) rootEnd
      else finish None 0
  end.

(** Components of a path: the text between separators. *)
Fixpoint splitSep (p : chars) : list chars :=
  match p with
  | [] => [[]]
  | c :: r =>
      if isPathSeparator c then [] :: splitSep r
      else match splitSep r with
           | [] => [[c]]
           | seg :: segs => (c :: seg) :: segs
           end
  end.

(** One step of [normalizeString]: [stack] holds the components kept so
    far, the last one first. *)
Definition normalizeStep (allowAboveRoot : bool) (stack : list chars) (seg : chars)
  : list chars :=
  if chars_eqb seg [] || chars_eqb seg [cDot] then stack
  else if chars_eqb seg [cDot; cDot] then
    match stack with
    | top :: below =>
        if chars_eqb top [cDot; cDot]
        then (if allowAboveRoot then seg :: stack else stack)
        else below
    | [] => if allowAboveRoot then [seg] else []
    end
  else seg :: stack.

Fixpoint intercalate (s : chars) (l : list chars) : chars :=
  match l with
  | [] => []
  | [x] => x
  | x :: r => x ++ s ++ intercalate s r
  end.

(** [normalizeString(path, allowAboveRoot, '\\', isPathSeparator)] *)
Definition normalizeString (p : chars) (allowAboveRoot : bool) : chars :=
  intercalate [cBackslash] (rev (fold_left (normalizeStep allowAboveRoot) (splitSep p) [])).

Definition endsWithSeparator (p : chars) : bool :=
  match rev p with
  | c :: _ => isPathSeparator c
  | [] => false
  end.

(** [path.normalize(p)] *)
Definition normalizeChars (pc : chars) : chars :=
  match pc with
  | [] => [cDot]
  | [c] => if Ascii.eqb c "/" then [cBackslash] else pc
  | c0 :: c1 :: rest =>
      let finish (device : option chars) (isAbsolute : bool) (rootEnd : nat) : chars :=
        let tail0 := normalizeString (skipn rootEnd pc) (negb isAbsolute) in
        let tail1 := match tail0 with
                     | [] => if isAbsolute then [] else [cDot]
                     | _ => tail0
                     end in
        let tail := match tail1 with
                    | [] => []
                    | _ => if endsWithSeparator pc then tail1 ++ [cBackslash] else tail1
                    end in
        match device with
        | None => if isAbsolute then cBackslash :: tail else tail
        | Some d => if isAbsolute then d ++ cBackslash :: tail else d ++ tail
        end in
      if isPathSeparator c0 then
        if isPathSeparator c1 then
          match uncParse rest with
          | Some (firstPart, secondPart, r3) =>
              match r3 with
              | [] => [cBackslash; cBackslash] ++ firstPart ++ [cBackslash] ++ secondPart ++ [cBackslash]
              | _ => finish (Some ([cBackslash; cBackslash] ++ firstPart ++ [cBackslash] ++ secondPart))
                            true (length pc - length r3)
              end
          | None => finish None true 0
          end
        else finish None true 1
      else if isWindowsDeviceRoot c0 && Ascii.eqb c1 ":" then
        match rest with
        | c2 :: _ =>
            if isPathSeparator c2 then finish (Some [c0; c1]) true 3
            else finish (Some [c0; c1]) false 2
        | [] => finish (Some [c0; c1]) false 2
        end
      else finish None false 0
  end.

Definition normalize (p : string) : string := str (normalizeChars (unstr p)).

(** [path.join(...args)]: the non-empty arguments are joined with a
    backslash; leading separators that could be mistaken for a UNC root
    are collapsed; the result is normalized. *)
Definition join (args : list string) : string :=
  match filter (fun a : chars => negb (length a =? 0)%nat) (map unstr args) with
  | [] => "."
  | firstPart :: others =>
      let joined := intercalate [cBackslash] (firstPart :: others) in
      let needsReplace :=
        match firstPart with
        | c0 :: c1 :: c2 :: _ =>
            negb (isPathSeparator c0 && isPathSeparator c1 && negb (isPathSeparator c2))
        | _ => true
        end in
      let slashes := takeWhile isPathSeparator joined in
      let joined' :=
        if needsReplace && (2 <=? length slashes)%nat
        then cBackslash :: dropWhile isPathSeparator joined
        else joined in
      str (normalizeChars joined')
  end.

End Win32.

(** ** Values exchanged with Vortex *)

Inductive VortexInstruction : Type :=
| Copy (source destination : string)
| GenerateFile (data destination : string)
| Mkdir (destination : string).

Definition destinationOf (i : VortexInstruction) : string :=
  match i with
  | Copy _ d => d
  | GenerateFile _ d => d
  | Mkdir d => d
  end.

Definition isCopy (i : VortexInstruction) : bool :=
  match i with Copy _ _ => true | _ => false end.

(** The destinations of the copy instructions of a list. *)
Definition copyDestinations (l : list VortexInstruction) : list string :=
  map destinationOf (filter isCopy l).

Record VortexTestResult : Type := mkTestResult
  { supported : bool; requiredFiles : list string }.

(** The outcome of a function that returns a promise.  An install result
    [{ instructions }] is modelled by its list of instructions. *)
Inductive Promise (A : Type) : Type :=
| Resolved (value : A)
| Rejected (message : string)
| Thrown.

Arguments Resolved {A} value.
Arguments Rejected {A} message.
Arguments Thrown {A}.

Definition VortexInstallResult : Type := list VortexInstruction.

Inductive InfoNotification : Type :=
| REDmodArchiveAutoconverted
| REDmodArchiveNOTautoconverted.

(** [InstallerType] of [installers.types.ts], with the members
    [REDmod] and [SpecialREDmodAutoconversion] that the REDmod installer
    uses. *)
Inductive InstallerType : Type :=
| Pipeline | CoreCET | CoreRedscript | CoreRed4ext | CoreCSVMerge | CoreTweakXL
| CoreWolvenKit | ASI | MultiType | CET | Redscript | Red4Ext | TweakDB | AXL
| INI | Config | Reshade | LUT | Json | ArchiveOnly | Fallback | NotSupported
| REDmod | SpecialREDmodAutoconversion.

Inductive InstallDecision : Type :=
| UserWantsToProceed
| UserWantsToCancel.

(** What the installers show to the user: one constructor for each call of
    the host's dialog surface and of the helpers of the dialog modules. *)
Inductive UiEvent : Type :=
| ShowDialog (type title : string)
| FallbackInstallerReachedErrorDialog
    (message : string) (files : list string) (instructions : list VortexInstruction)
| ShowArchiveStructureErrorDialog (message : string) (files : list string)
| ShowArchiveInstallWarning
    (warnAboutSubdirs warnAboutToplevel : bool) (destinationPaths : list string)
| ShowREDmodArchiveInstallWarning
    (installer : InstallerType)
    (hasArchivesInSubdirs hasMultipleArchives hasToplevelFiles : bool)
    (files : list string)
| ShowInfoNotification (id : InfoNotification) (message : string)
| PromptUserOnUnresolvableLayout (installer : InstallerType) (files : list string).

(** A computation that shows things to the user: the trace and the result. *)
Definition Ui (A : Type) : Type := list UiEvent * A.

Definition isDialog (e : UiEvent) : bool :=
  match e with ShowInfoNotification _ _ => false | _ => true end.

Definition lengthIsZero {A : Type} (l : list A) : bool :=
  match l with [] => true | _ => false end.

Fixpoint lookupKey (k : string) (table : list (string * string)) : option string :=
  match table with
  | [] => None
  | (k', v) :: r => if String.eqb k k' then Some v else lookupKey k r
  end.

(** ** The [key-tree] package

    [installers.ts] builds a [KeyTree] for its directory queries.  The
    package is a dependency of the repository; the installers are
    embedded over its interface, and hold for any implementation of
    it. *)

Class KeyTreeLib : Type := {
  KeyTree : Type;
  KeyTreeNode : Type;
  (** [new KeyTree({ separator: path.sep })] *)
  ktNew : KeyTree;
  (** [tree.add(key, value)] *)
  ktAdd : KeyTree -> string -> string -> KeyTree;
  (** [tree._getNode(key)], [None] for a missing node *)
  ktGetNode : KeyTree -> string -> option KeyTreeNode;
  (** [tree.get(key)] *)
  ktGet : KeyTree -> string -> list string;
  (** [tree.getSub(key)] *)
  ktGetSub : KeyTree -> string -> list string;
  (** [Object.values(tree.getSub(key, true))] *)
  ktGetSubGrouped : KeyTree -> string -> list (list string);
  (** [node.children], [node.key], [node.fullPath], [node.getChild(key)] *)
  nodeChildren : KeyTreeNode -> list KeyTreeNode;
  nodeKey : KeyTreeNode -> string;
  nodeFullPath : KeyTreeNode -> list string;
  nodeGetChild : KeyTreeNode -> string -> option KeyTreeNode
}.

(** ** The file tree

    Modelled from the spec: [filetree.ts] is not among the sources.  A
    [FileTree] is a read-only view over a set of relative paths; the empty
    string is the root; every input path is represented once; a directory
    exists when a path lies in it or under it; a path that ends with the
    separator is a directory marker and never a file.  Paths are compared
    by their components. *)

Module FileTree.

Definition FileTree : Type := list string.

Definition FILETREE_ROOT : string := "".

(** Modelled from the spec: the non-empty components of a path. *)
Definition segments (p : string) : list chars :=
  filter (fun s : chars => negb (lengthIsZero s)) (Win32.splitSep (unstr p)).

Definition render (segs : list chars) : string :=
  str (Win32.intercalate [cBackslash] segs).

Definition isDirMarker (p : string) : bool := Win32.endsWithSeparator (unstr p).

Fixpoint segsEqb (a b : list chars) : bool :=
  match a, b with
  | [], [] => true
  | x :: a', y :: b' => chars_eqb x y && segsEqb a' b'
  | _, _ => false
  end.

Fixpoint segsPrefix (a b : list chars) : bool :=
  match a, b with
  | [], _ => true
  | x :: a', y :: b' => chars_eqb x y && segsPrefix a' b'
  | _ :: _, [] => false
  end.

(** The components of the directory a path lies in: all of them for a
    directory marker, all but the last for a file. *)
Definition dirSegments (p : string) : list chars :=
  if isDirMarker p then segments p else removelast (segments p).

(** Modelled from the spec: [fileTreeFromPaths] is a pure function of the
    path list in which every path is represented exactly once. *)
Definition fileTreeFromPaths (paths : list string) : FileTree :=
  nodup string_dec paths.

(** Modelled from the spec: [sourcePaths] flattens the tree to its paths. *)
Definition sourcePaths (tree : FileTree) : list string := tree.

Definition GlobAny (_ : string) : bool := true.

(** Modelled from the spec: the files directly in [dir] that match. *)
Definition filesIn (dir : string) (matching : string -> bool) (tree : FileTree)
  : list string :=
  filter (fun p => negb (isDirMarker p)
                   && segsEqb (segments dir) (dirSegments p)
                   && matching p) tree.

(** Modelled from the spec: the files in [dir] or under it that match. *)
Definition filesUnder (dir : string) (matching : string -> bool) (tree : FileTree)
  : list string :=
  filter (fun p => negb (isDirMarker p)
                   && segsPrefix (segments dir) (dirSegments p)
                   && matching p) tree.

Fixpoint prefixes (segs : list chars) : list (list chars) :=
  match segs with
  | [] => [[]]
  | x :: r => [] :: map (cons x) (prefixes r)
  end.

Fixpoint dedupSegs (seen : list (list chars)) (l : list (list chars))
  : list (list chars) :=
  match l with
  | [] => []
  | x :: r =>
      if existsb (segsEqb x) seen then dedupSegs seen r
      else x :: dedupSegs (x :: seen) r
  end.

(** Every directory of the tree, the root first. *)
Definition directories (tree : FileTree) : list (list chars) :=
  dedupSegs [] ([] :: flat_map (fun p => prefixes (dirSegments p)) tree).

(** Modelled from the spec: the directory node exists. *)
Definition dirInTree (dir : string) (tree : FileTree) : bool :=
  existsb (segsEqb (segments dir)) (directories tree).

(** Modelled from the spec: the one-level children of [dir]. *)
Definition subdirsIn (dir : string) (tree : FileTree) : list string :=
  map render
      (filter (fun d => match d with
                        | [] => false
                        | _ => segsEqb (segments dir) (removelast d)
                        end) (directories tree)).

Definition subdirNamesIn (dir : string) (tree : FileTree) : list string :=
  map Win32.basename (subdirsIn dir tree).

(** Modelled from the spec: existence-only forms of [filesIn] and
    [filesUnder]. *)
Definition dirWithSomeIn (dir : string) (matching : string -> bool) (tree : FileTree)
  : bool := negb (lengthIsZero (filesIn dir matching tree)).

Definition dirWithSomeUnder (dir : string) (matching : string -> bool) (tree : FileTree)
  : bool := negb (lengthIsZero (filesUnder dir matching tree)).

(** Modelled from the spec: the immediate children of [dir] that directly
    contain a match. *)
Definition findDirectSubdirsWithSome (dir : string) (matching : string -> bool)
    (tree : FileTree) : list string :=
  filter (fun sub => dirWithSomeIn sub matching tree) (subdirsIn dir tree).

(** Modelled from the spec: any descendant directory of [dir] that
    directly contains a match. *)
Definition findAllSubdirsWithSome (dir : string) (matching : string -> bool)
    (tree : FileTree) : list string :=
  filter (fun sub => dirWithSomeIn sub matching tree)
         (map render
              (filter (fun d => segsPrefix (segments dir) d
                                && negb (segsEqb (segments dir) d))
                      (directories tree))).

(** Modelled from the spec: comparison of path texts that ignores case. *)
Definition pathEq (a b : string) : bool :=
  String.eqb (JS.toLowerCase a) (JS.toLowerCase b).

Definition pathIn (set : list string) (x : string) : bool :=
  existsb (pathEq x) set.

End FileTree.

(** ** [src/installers.ts] *)

Module Legacy.

Definition GAME_ID : string := "cyberpunk2077".

Definition CET_MOD_CANONICAL_INIT_FILE : string := "init.lua".
Definition CET_MOD_CANONICAL_PATH_PREFIX : string :=
  Win32.normalize "bin/x64/plugins/cyber_engine_tweaks/mods".

Definition REDS_MOD_CANONICAL_EXTENSION : string := ".reds".
Definition REDS_MOD_CANONICAL_PATH_PREFIX : string := Win32.normalize "r6/scripts".

Definition ARCHIVE_ONLY_CANONICAL_EXT : string := ".archive".
Definition ARCHIVE_ONLY_CANONICAL_PREFIX : string := Win32.normalize "archive/pc/mod/".
Definition ARCHIVE_ONLY_TRADITIONAL_WRONG_PREFIX : string :=
  Win32.normalize "archive/pc/patch/".

Definition MOD_FILE_EXT : string := ".archive".
Definition INI_MOD_PATH : string := Win32.join ["engine"; "config"; "platform"; "pc"].
Definition INI_MOD_EXT : string := ".ini".
Definition RESHADE_MOD_PATH : string := Win32.join ["bin"; "x64"].
Definition SHADERS_DIR : string := "reshade-shaders".
Definition SHADERS_PATH : string := Win32.join [RESHADE_MOD_PATH; SHADERS_DIR].
Definition CET_GLOBAL_INI : string := Win32.normalize "bin/x64/global.ini".
Definition JSON_FILE_EXT : string := ".json".

(** The object [KNOWN_JSON_FILES] as a table.  It is only looked up with
    the base names of files with an extension, which are never names of
    [Object.prototype]. *)
Definition KNOWN_JSON_FILES : list (string * string) :=
  [ ("giweights.json", Win32.join ["engine"; "config"; "giweights.json"]);
    ("bumpersSettings.json", Win32.join ["r6"; "config"; "bumpersSettings.json"]) ].

Definition makeModName (vortexDestinationPath : string) : string :=
  Win32.basenameExt vortexDestinationPath ".installing".

Definition matchRedscript (file : string) : bool :=
  String.eqb (Win32.extname file) REDS_MOD_CANONICAL_EXTENSION.

Definition allRedscriptFiles (files : list string) : list string :=
  filter matchRedscript files.

Definition matchArchive (file : string) : bool :=
  String.eqb (Win32.extname file) ARCHIVE_ONLY_CANONICAL_EXT.

Definition toSamePath (f : string) : string * string := (f, f).

Definition toDirInPath (prefixPath dir : string) (f : string) : string * string :=
  (f, Win32.join [prefixPath; dir; Win32.basename f]).

(** Folders (sources ending with the separator) are dropped; the pairs
    that remain become copy instructions, one each and in order. *)
Definition instructionsForSourceToDestPairs (srcAndDestPairs : list (string * string))
  : list VortexInstruction :=
  let justTheRegularFiles :=
    filter (fun p => negb (JS.endsWith (fst p) Win32.sep)) srcAndDestPairs in
  map (fun p => Copy (fst p) (snd p)) justTheRegularFiles.

Definition instructionsForSameSourceAndDestPaths (files : list string)
  : list VortexInstruction :=
  instructionsForSourceToDestPairs (map toSamePath files).

Definition unsupported : VortexTestResult := mkTestResult false [].

(** [notSupportedModType], the [testSupported] that always fails, and
    [notInstallableMod], the [install] that always throws. *)
Definition notSupportedModType (_files : list string) (_gameId : string)
  : Promise VortexTestResult :=
  Resolved (mkTestResult false []).

Definition notInstallableMod (_files : list string) (_destinationPath _gameId : string)
  : Promise VortexInstallResult :=
  Thrown.

(** *** JSON mods *)

Definition testForJsonMod (files : list string) (gameId : string)
  : Promise VortexTestResult :=
  let correctGame := String.eqb gameId GAME_ID in
  if negb correctGame then Resolved unsupported
  else
    let filtered :=
      filter (fun file => String.eqb (JS.toLowerCase (Win32.extname file)) JSON_FILE_EXT)
             files in
    if lengthIsZero filtered then Resolved unsupported
    else
      let cetModJson :=
        filter (fun file => String.eqb (JS.toLowerCase (Win32.basename file))
                                       CET_MOD_CANONICAL_INIT_FILE) files in
      if negb (lengthIsZero cetModJson) then Resolved unsupported
      else
        let options :=
          existsb (fun file => String.eqb (Win32.basename file) "options.json") filtered in
        if options then
          let proper :=
            existsb (fun f => JS.startsWith (JS.toLowerCase (Win32.dirname f))
                                            (Win32.normalize "r6/config/settings"))
                    filtered in
          if negb proper then
            Rejected "Improperly located options.json file found.  We don't know where it belongs."
          else Resolved (mkTestResult true [])
        else if existsb (fun file =>
                           match lookupKey (Win32.basename file) KNOWN_JSON_FILES with
                           | None => true
                           | Some _ => false
                           end) filtered
        then Rejected "Found JSON files that aren't part of the game."
        else Resolved (mkTestResult true []).

Definition installJsonMod (files : list string) (_destinationPath : string)
  : Promise VortexInstallResult :=
  let jsonFiles := filter (fun file => String.eqb (Win32.extname file) ".json") files in
  let otherAllowedFiles :=
    filter (fun file => String.eqb (Win32.extname file) ".txt"
                        || String.eqb (Win32.extname file) ".md") files in
  let filtered := jsonFiles ++ otherAllowedFiles in
  let jsonFileInstructions :=
    map (fun file =>
           let fileName := Win32.basename file in
           let instPath :=
             match lookupKey fileName KNOWN_JSON_FILES with
             | Some known => known
             | None => file
             end in
           Copy file instPath) filtered in
  Resolved ([] ++ jsonFileInstructions).

(** *** INI and Reshade mods *)

(** [data.replace(/^[\[#].+/, "")]: when the text starts with a bracket or
    a hash followed by a character that is not a line terminator, the rest
    of the first line is removed with it. *)
Definition replaceIniHeader (data : JS.text) : JS.text :=
  match data with
  | c1 :: c2 :: rest =>
      if (N.eqb c1 (JS.codeUnit "[") || N.eqb c1 (JS.codeUnit "#"))
         && negb (JS.isLineTerminator c2)
      then dropWhile (fun c => negb (JS.isLineTerminator c)) rest
      else data
  | _ => data
  end.

(** The file system is the function [readFileSync] with the encoding
    [utf8]: the text of the file, [None] where reading throws.  The result
    is [None] when the function throws. *)
Definition testForReshadeFile (readFileSync : string -> option JS.text)
    (files : list string) (folder : string) : option bool :=
  match find (fun file => String.eqb (Win32.extname file) INI_MOD_EXT) files with
  | None => None
  | Some first =>
      let fileToExamine := Win32.join [folder; first] in
      match readFileSync fileToExamine with
      | None => None
      | Some data =>
          let testString := replaceIniHeader data in
          if JS.text_eqb testString data then Some true else Some false
      end
  end.

(** The text after the last occurrence of [pat] in [l]. *)
Fixpoint afterLast (pat l : chars) : option chars :=
  match l with
  | [] => None
  | _ :: r =>
      match afterLast pat r with
      | Some a => Some a
      | None => if isPrefixOf pat l then Some (skipn (length pat) l) else None
      end
  end.

(** [file.replace(/.*reshade-shaders/, SHADERS_DIR)]: the match starts at
    the beginning of the first line that has the directory name and ends
    with its last occurrence in that line. *)
Fixpoint replaceUpToShadersDir (atLineStart : bool) (s : chars) : chars :=
  match s with
  | [] => []
  | c :: r =>
      let notTerminator := fun x => negb (JS.isLineTerminator (JS.codeUnit x)) in
      match (if atLineStart then afterLast (unstr SHADERS_DIR) (takeWhile notTerminator s)
             else None) with
      | Some a => unstr SHADERS_DIR ++ a ++ dropWhile notTerminator s
      | None => c :: replaceUpToShadersDir (JS.isLineTerminator (JS.codeUnit c)) r
      end
  end.

Definition installIniMod (readFileSync : string -> option JS.text)
    (files : list string) (_destinationPath : string) : Promise VortexInstallResult :=
  let allIniModFiles :=
    filter (fun file => String.eqb (Win32.extname file) INI_MOD_EXT) files in
  match testForReshadeFile readFileSync allIniModFiles _destinationPath with
  | None => Thrown
  | Some reshade =>
      let iniFileInstructions :=
        map (fun file =>
               let fileName := Win32.basename file in
               let dest := if reshade
                           then Win32.join [RESHADE_MOD_PATH; Win32.basename file]
                           else Win32.join [INI_MOD_PATH; fileName] in
               Copy file dest) allIniModFiles in
      let shaderFiles :=
        filter (fun file => JS.includes file SHADERS_DIR
                            && negb (JS.endsWith file Win32.sep)) files in
      let shaderInstructions :=
        if reshade && negb (lengthIsZero shaderFiles) then
          map (fun file =>
                 let fileName := str (replaceUpToShadersDir true (unstr file)) in
                 let dest := Win32.join [RESHADE_MOD_PATH; fileName] in
                 Copy file dest) shaderFiles
        else [] in
      Resolved (([] ++ iniFileInstructions) ++ shaderInstructions)
  end.

(** [files.includes(x)] *)
Definition arrayIncludes (files : list string) (x : string) : bool :=
  existsb (String.eqb x) files.

Definition testForIniMod (files : list string) (_gameId : string)
  : Promise VortexTestResult :=
  let correctGame := String.eqb _gameId GAME_ID in
  if negb correctGame then Resolved (mkTestResult false [])
  else
    let filtered :=
      filter (fun file => String.eqb (JS.toLowerCase (Win32.extname file)) INI_MOD_EXT)
             files in
    if lengthIsZero filtered then Resolved (mkTestResult false [])
    else if existsb (fun file =>
                       JS.includes (Win32.basename file) CET_MOD_CANONICAL_INIT_FILE
                       || String.eqb (Win32.extname file) REDS_MOD_CANONICAL_EXTENSION)
                    files
    then Resolved (mkTestResult false [])
    else if arrayIncludes files CET_GLOBAL_INI then Resolved (mkTestResult false [])
    else Resolved (mkTestResult true []).

(** *** Fallback *)

Definition testAnyOtherModFallback (files : list string) (gameId : string)
  : Promise VortexTestResult :=
  let correctGame := String.eqb gameId GAME_ID in
  if negb correctGame then Resolved (mkTestResult false [])
  else Resolved (mkTestResult true []).

Definition fallbackMessage : string :=
  "The Fallback installer was reached.  The mod has been installed, but may not function as expected.".

Definition installAnyModWithBasicFixes (files : list string) (_destinationPath : string)
  : Ui (Promise VortexInstallResult) :=
  let instructions := [] ++ instructionsForSameSourceAndDestPaths files in
  ([FallbackInstallerReachedErrorDialog fallbackMessage files instructions],
   Resolved instructions).

(** *** CET and Redscript, over a [KeyTree] *)

(** The two helpers of the dialog module that the mixed Redscript and CET
    installer calls, with their arguments. *)
Inductive MixedDialog : Type :=
| RedCetMixedStructureErrorDialog (message : string) (files : list string)
| RedWithInvalidFilesErrorDialog
    (message : string) (files : list string) (installable : list (list string)).

Section WithKeyTree.

Context {KT : KeyTreeLib}.

(** [files.forEach((file) => fileTree.add(key(file), file))] on a new
    tree. *)
Definition treeOf (key : string -> string) (files : list string) : KeyTree :=
  fold_left (fun fileTree file => ktAdd fileTree (key file) file) files ktNew.

Definition allFilesInFolder (folder : string) (files : list string) : list string :=
  let fileTree := treeOf (fun file => file) files in
  match ktGetNode fileTree folder with
  | None => []
  | Some moddir =>
      let moddirPath := Win32.join (nodeFullPath moddir) in
      [] ++ concat (ktGetSubGrouped fileTree moddirPath)
  end.

Definition allCanonicalCetFiles (files : list string) : list string :=
  allFilesInFolder CET_MOD_CANONICAL_PATH_PREFIX files.

Definition allCanonicalArchiveOnlyFiles (files : list string) : list string :=
  allFilesInFolder ARCHIVE_ONLY_CANONICAL_PREFIX files.

Definition isSome {A : Type} (o : option A) : bool :=
  match o with Some _ => true | None => false end.

Definition testForRedCetMixedMod (files : list string) (_gameId : string)
  : Promise VortexTestResult :=
  let fileTree := treeOf (fun file => file) files in
  match ktGetNode fileTree CET_MOD_CANONICAL_PATH_PREFIX with
  | None => Resolved unsupported
  | Some moddir =>
      if lengthIsZero (nodeChildren moddir) then Resolved unsupported
      else
        let hasCetFilesInANamedModDir :=
          existsb (fun child => isSome (nodeGetChild child CET_MOD_CANONICAL_INIT_FILE))
                  (nodeChildren moddir) in
        let redscriptFiles := allRedscriptFiles files in
        if hasCetFilesInANamedModDir && lengthIsZero redscriptFiles
        then Resolved unsupported
        else Resolved (mkTestResult hasCetFilesInANamedModDir [])
  end.

Definition testForCetMod (files : list string) (_gameId : string)
  : Promise VortexTestResult :=
  let fileTree := treeOf (fun file => file) files in
  match ktGetNode fileTree CET_MOD_CANONICAL_PATH_PREFIX with
  | None => Resolved unsupported
  | Some moddir =>
      if lengthIsZero (nodeChildren moddir) then Resolved unsupported
      else
        let hasCetFilesInANamedModDir :=
          existsb (fun child => isSome (nodeGetChild child CET_MOD_CANONICAL_INIT_FILE))
                  (nodeChildren moddir) in
        Resolved (mkTestResult hasCetFilesInANamedModDir [])
  end.

Definition testForRedscriptMod (files : list string) (_gameId : string)
  : Promise VortexTestResult :=
  let redscriptFiles := allRedscriptFiles files in
  if lengthIsZero redscriptFiles then Resolved unsupported
  else Resolved (mkTestResult true []).

(** The three places Redscript files are looked for:
    [canonRedsModFiles], [redsDirReds] and [topLevelReds]. *)
Definition topLevelReds (files : list string) : list string :=
  filter matchRedscript (ktGet (treeOf Win32.dirname files) ".").

Definition redsDirReds (files : list string) : list string :=
  filter matchRedscript (ktGet (treeOf Win32.dirname files) REDS_MOD_CANONICAL_PATH_PREFIX).

Definition canonRedsModFiles (files : list string) : list string :=
  let fileTree := treeOf Win32.dirname files in
  match ktGetNode fileTree REDS_MOD_CANONICAL_PATH_PREFIX with
  | Some base =>
      match nodeChildren base with
      | [child] =>
          ktGetSub fileTree (Win32.join [REDS_MOD_CANONICAL_PATH_PREFIX; nodeKey child])
      | _ => []
      end
  | None => []
  end.

Definition installable (files : list string) : list (list string) :=
  filter (fun location => negb (lengthIsZero location))
         [canonRedsModFiles files; redsDirReds files; topLevelReds files].

Definition noRedscriptMessage : string := "No Redscript found, should never get here.".
Definition conflictingRedscriptMessage : string :=
  "Conflicting Redscript locations, bailing out!".

Definition installRedscriptMod (files : list string) (destinationPath : string)
  : Ui (Promise VortexInstallResult) :=
  if (length (installable files) =? 0)%nat then
    ([], Rejected noRedscriptMessage)
  else if (1 <? length (installable files))%nat then
    ([ShowDialog "error" conflictingRedscriptMessage],
     Rejected conflictingRedscriptMessage)
  else
    let modName := makeModName destinationPath in
    let archiveOnlyFiles := allCanonicalArchiveOnlyFiles files in
    let allSourcesAndDestinations :=
      [ map toSamePath (canonRedsModFiles files);
        map (toDirInPath REDS_MOD_CANONICAL_PATH_PREFIX modName) (redsDirReds files);
        map (toDirInPath REDS_MOD_CANONICAL_PATH_PREFIX modName) (topLevelReds files);
        map toSamePath archiveOnlyFiles ] in
    ([], Resolved (flat_map instructionsForSourceToDestPairs allSourcesAndDestinations)).

Definition noCetFilesMessage : string :=
  "CET install but no CET files, should never get here".

Definition installCetMod (files : list string) (_destinationPath : string)
  : Promise VortexInstallResult :=
  let cetFiles := allCanonicalCetFiles files in
  if (length cetFiles =? 0)%nat then Rejected noCetFilesMessage
  else
    let archiveOnlyFiles := allCanonicalArchiveOnlyFiles files in
    let allTheFiles := cetFiles ++ archiveOnlyFiles in
    Resolved (instructionsForSameSourceAndDestPaths allTheFiles).

Definition mixedStructureMessage : string :=
  "The reds are not correctly structured, installing through vortex isn't possible.".
Definition mixedNoCetFilesMessage : string :=
  "Red + CET install but no CET files, should never get here".

(** The name of the first mod directory of Cyber Engine Tweaks in the
    tree keyed by directory, [moddir.children[0].key]; [None] where the
    node or its first child is missing and reading the key throws. *)
Definition firstCetModName (files : list string) : option string :=
  match ktGetNode (treeOf Win32.dirname files) CET_MOD_CANONICAL_PATH_PREFIX with
  | Some moddir =>
      match nodeChildren moddir with
      | first :: _ => Some (nodeKey first)
      | [] => None
      end
  | None => None
  end.

Definition installableReds (files : list string) : list (list string) :=
  filter (fun location => (0 <? length location)%nat)
         [canonRedsModFiles files; redsDirReds files].

Definition installRedCetMixedMod (files : list string) (_destinationPath : string)
  : list MixedDialog * Promise VortexInstallResult :=
  if (0 <? length (topLevelReds files))%nat then
    ([RedCetMixedStructureErrorDialog mixedStructureMessage files],
     Rejected mixedStructureMessage)
  else
    let cetFiles := allCanonicalCetFiles files in
    if (length cetFiles =? 0)%nat then ([], Rejected mixedNoCetFilesMessage)
    else if (length (installableReds files) =? 0)%nat then
      ([], Rejected noRedscriptMessage)
    else if (1 <? length (installableReds files))%nat then
      ([RedWithInvalidFilesErrorDialog conflictingRedscriptMessage files
          (installableReds files)],
       Rejected conflictingRedscriptMessage)
    else
      match firstCetModName files with
      | None => ([], Thrown)
      | Some modName =>
          let archiveOnlyFiles := allCanonicalArchiveOnlyFiles files in
          let allSourcesAndDestinations :=
            [ map toSamePath (canonRedsModFiles files);
              map (toDirInPath REDS_MOD_CANONICAL_PATH_PREFIX modName) (redsDirReds files);
              map toSamePath cetFiles;
              map toSamePath archiveOnlyFiles ] in
          ([], Resolved (flat_map instructionsForSourceToDestPairs
                                  allSourcesAndDestinations))
      end.

End WithKeyTree.

(** *** Archive-only mods *)

Definition testForArchiveOnlyMod (files : list string) (gameId : string)
  : Promise VortexTestResult :=
  let correctGame := String.eqb gameId GAME_ID in
  if negb correctGame then Resolved (mkTestResult false [])
  else
    let filtered :=
      filter (fun file => String.eqb (JS.toLowerCase (Win32.extname file)) MOD_FILE_EXT)
             files in
    if lengthIsZero filtered then Resolved (mkTestResult false [])
    else if (length filtered <? length files)%nat then
      let unfiltered :=
        filter (fun f => negb (existsb (String.eqb f) filtered)) files in
      let importantBaseDirs := ["bin"; "r6"; "red4ext"] in
      let hasNonArchive :=
        existsb (fun f =>
                   existsb (String.eqb (str (hd [] (splitBackslash
                                                     (unstr (Win32.dirname f))))))
                           importantBaseDirs) unfiltered in
      if hasNonArchive then Resolved (mkTestResult false [])
      else Resolved (mkTestResult true [])
    else if (length files =? length filtered)%nat then Resolved (mkTestResult true [])
    else Resolved (mkTestResult false []).

Inductive ArchiveLayouts : Type := Canon | Heritage | Other | Invalid.

Record Instructions : Type := mkInstructions
  { kind : ArchiveLayouts; instructions : list VortexInstruction }.

Definition InstructionsFromFileTree : Type := FileTree.FileTree -> Instructions.

Definition archiveCanonInstructions (fileTree : FileTree.FileTree) : Instructions :=
  let hasCanonFiles :=
    FileTree.dirWithSomeUnder ARCHIVE_ONLY_CANONICAL_PREFIX matchArchive fileTree in
  if negb hasCanonFiles then mkInstructions Canon []
  else
    let allCanonFiles :=
      FileTree.filesUnder ARCHIVE_ONLY_CANONICAL_PREFIX FileTree.GlobAny fileTree in
    mkInstructions Canon (instructionsForSameSourceAndDestPaths allCanonFiles).

Definition archiveOldToNewCanonInstructions (fileTree : FileTree.FileTree)
  : Instructions :=
  let hasOldCanonFiles :=
    FileTree.dirWithSomeUnder ARCHIVE_ONLY_TRADITIONAL_WRONG_PREFIX matchArchive fileTree in
  if negb hasOldCanonFiles then mkInstructions Heritage []
  else
    let oldCanonFiles :=
      FileTree.filesUnder ARCHIVE_ONLY_TRADITIONAL_WRONG_PREFIX FileTree.GlobAny fileTree in
    let oldToNewMap :=
      map (fun f => (f, JS.replace f (Win32.normalize ARCHIVE_ONLY_TRADITIONAL_WRONG_PREFIX)
                                     (Win32.normalize ARCHIVE_ONLY_CANONICAL_PREFIX)))
          oldCanonFiles in
    mkInstructions Heritage (instructionsForSourceToDestPairs oldToNewMap).

Definition archiveOtherDirsToCanonInstructions (fileTree : FileTree.FileTree)
  : Instructions :=
  let allDirs :=
    FileTree.findAllSubdirsWithSome FileTree.FILETREE_ROOT matchArchive fileTree in
  let allFiles :=
    flat_map (fun dir => FileTree.filesUnder dir FileTree.GlobAny fileTree) allDirs in
  let allToPrefixedMap :=
    map (fun f => (f, Win32.join [ARCHIVE_ONLY_CANONICAL_PREFIX; f])) allFiles in
  mkInstructions Other (instructionsForSourceToDestPairs allToPrefixedMap).

Definition useFirstMatchingLayoutForInstructions
    (possibleLayouts : list InstructionsFromFileTree) (fileTree : FileTree.FileTree)
  : Instructions :=
  fold_left
    (fun found layout =>
       if (0 <? length (instructions found))%nat then found else layout fileTree)
    possibleLayouts
    (mkInstructions Invalid []).

Definition isOther (k : ArchiveLayouts) : bool :=
  match k with Other => true | _ => false end.

Definition warnUserIfModMightNeedManualReview (chosenInstructions : Instructions)
  : list UiEvent :=
  let destinationPaths := map destinationOf (instructions chosenInstructions) in
  let newTree := FileTree.fileTreeFromPaths destinationPaths in
  let warnAboutSubdirs :=
    (0 <? length (FileTree.subdirsIn ARCHIVE_ONLY_CANONICAL_PREFIX newTree))%nat in
  let hasMultipleTopLevelFiles :=
    (1 <? length (FileTree.filesIn ARCHIVE_ONLY_CANONICAL_PREFIX matchArchive newTree))%nat in
  let multipleTopLevelsMightBeIntended := negb (isOther (kind chosenInstructions)) in
  let warnAboutToplevel :=
    negb multipleTopLevelsMightBeIntended && hasMultipleTopLevelFiles in
  if warnAboutSubdirs || warnAboutToplevel
  then [ShowArchiveInstallWarning warnAboutSubdirs warnAboutToplevel destinationPaths]
  else [].

Definition possibleLayoutsToTryInOrder : list InstructionsFromFileTree :=
  [ archiveCanonInstructions;
    archiveOldToNewCanonInstructions;
    archiveOtherDirsToCanonInstructions ].

Definition noInstructionsMessage : string :=
  "ArchiveOnly installer failed to generate any instructions!".
Definition conflictingLayoutsMessage : string := "Conflicting layouts for Archive mod!".

Definition installArchiveOnlyMod (files : list string) (_destinationPath : string)
  : Ui (Promise VortexInstallResult) :=
  let fileTree := FileTree.fileTreeFromPaths files in
  let fileCount :=
    length (FileTree.filesUnder FileTree.FILETREE_ROOT FileTree.GlobAny fileTree) in
  let chosenInstructions :=
    useFirstMatchingLayoutForInstructions possibleLayoutsToTryInOrder fileTree in
  if (length (instructions chosenInstructions) <? 1)%nat then
    ([], Rejected noInstructionsMessage)
  else
    let haveFilesOutsideSelectedInstructions :=
      negb (length (instructions chosenInstructions) =? fileCount)%nat in
    if haveFilesOutsideSelectedInstructions then
      ([ShowArchiveStructureErrorDialog conflictingLayoutsMessage files],
       Rejected conflictingLayoutsMessage)
    else
      (warnUserIfModMightNeedManualReview chosenInstructions,
       Resolved (instructions chosenInstructions)).

(** *** The pipeline *)

Inductive InstallerType : Type :=
| CoreCET | CoreRedscript | CoreRed4ext | CoreCSVMerge | CoreWolvenKit
| RedCetMix | CET | Redscript | Red4Ext | TweakDB | AXL | INI | Config
| Reshade | LUT | ArchiveOnly | Json | FallbackForOther | NotSupported.

Definition InstallerType_eqb (a b : InstallerType) : bool :=
  match a, b with
  | CoreCET, CoreCET | CoreRedscript, CoreRedscript | CoreRed4ext, CoreRed4ext
  | CoreCSVMerge, CoreCSVMerge | CoreWolvenKit, CoreWolvenKit
  | RedCetMix, RedCetMix | CET, CET | Redscript, Redscript | Red4Ext, Red4Ext
  | TweakDB, TweakDB | AXL, AXL | INI, INI | Config, Config | Reshade, Reshade
  | LUT, LUT | ArchiveOnly, ArchiveOnly | Json, Json
  | FallbackForOther, FallbackForOther | NotSupported, NotSupported => true
  | _, _ => false
  end.

(** The installers in the order of the array [installers], each with its
    type and id; its test and install functions are the ones above. *)
Definition installers : list (InstallerType * string) :=
  [ (CoreCET, "cp2077-core-cet-mod");
    (CoreRedscript, "cp2077-core-redscript-mod");
    (CoreRed4ext, "cp2077-core-red4ext-mod");
    (CoreCSVMerge, "cp2077-core-csvmerge-mod");
    (CoreWolvenKit, "cp2077-core-wolvenkit-mod");
    (RedCetMix, "cp2077-red-cet-mixture-mod");
    (CET, "cp2077-cet-mod");
    (Redscript, "cp2077-redscript-mod");
    (INI, "cp2077-ini-mod");
    (ArchiveOnly, "cp2077-basic-archive-mod");
    (Json, "cp2077-json-mod");
    (FallbackForOther, "cp2077-fallback-for-others-mod") ].

Definition PRIORITY_STARTING_NUMBER : nat := 30.

(** [array.reduce(f, init)] with the index of each element. *)
Fixpoint reduceWithIndex {A B : Type} (f : B -> A -> nat -> B) (l : list A)
    (index : nat) (acc : B) : B :=
  match l with
  | [] => acc
  | x :: r => reduceWithIndex f r (S index) (f acc x index)
  end.

(** [addPriorityFrom(start)] returns the function [priorityAdder], which
    appends the installer with the priority [start + index], a sum of
    numbers. *)
Definition priorityAdder (start : nat) (prioritized : list (nat * (InstallerType * string)))
    (installer : InstallerType * string) (index : nat)
  : list (nat * (InstallerType * string)) :=
  prioritized ++ [(JS.addNumbers start index, installer)].

Definition addPriorityFrom (start : nat) := priorityAdder start.

Definition installerPipeline : list (nat * (InstallerType * string)) :=
  reduceWithIndex (addPriorityFrom PRIORITY_STARTING_NUMBER) installers 0 [].

Definition priorityOf (t : InstallerType) : option nat :=
  match find (fun e => InstallerType_eqb (fst (snd e)) t) installerPipeline with
  | Some e => Some (fst e)
  | None => None
  end.

End Legacy.

(** An implementation of the [key-tree] interface, used to run the
    installers on examples.  A key is split at every separator, so that a
    key that ends with the separator has an empty last component; a node
    exists when a key added to the tree goes through it; the children of
    a node are in the order in which they were first added; [get] returns
    the values added under the key itself and [getSub] the values of the
    node and of the nodes below it, depth first.  The tree is kept as the
    list of the keys and values added, a node as the key components that
    lead to it. *)

Module FlatKeyTree.

Definition keyOf (key : string) : list chars := splitBackslash (unstr key).

Definition Tree : Type := list (list chars * string).
Definition Node : Type := (list chars * Tree)%type.

Definition getNode (t : Tree) (key : string) : option Node :=
  if existsb (fun e => FileTree.segsPrefix (keyOf key) (fst e)) t
  then Some (keyOf key, t) else None.

Definition children (n : Node) : list Node :=
  let below := filter (fun e => FileTree.segsPrefix (fst n) (fst e)
                                && (length (fst n) <? length (fst e))%nat) (snd n) in
  map (fun k => (k, snd n))
      (FileTree.dedupSegs []
         (map (fun e => firstn (S (length (fst n))) (fst e)) below)).

Definition getChild (n : Node) (key : string) : option Node :=
  let k := fst n ++ [unstr key] in
  if existsb (fun e => FileTree.segsPrefix k (fst e)) (snd n)
  then Some (k, snd n) else None.

Definition valuesAt (t : Tree) (path : list chars) : list string :=
  map snd (filter (fun e => FileTree.segsEqb path (fst e)) t).

Definition get (t : Tree) (key : string) : list string := valuesAt t (keyOf key).

(** The longest key of the tree bounds the depth of the walk. *)
Definition depth (t : Tree) : nat := list_max (map (fun e => length (fst e)) t).

(** The values of a node and of the nodes below it, node by node: the
    node first, then its children in order, each with all that is below
    it. *)
Fixpoint walk (fuel : nat) (t : Tree) (path : list chars) : list (list string) :=
  match fuel with
  | 0 => []
  | S fuel' =>
      valuesAt t path
      :: flat_map (fun child : Node => walk fuel' t (fst child)) (children (path, t))
  end.

Definition getSubGrouped (t : Tree) (key : string) : list (list string) :=
  match getNode t key with
  | Some n => walk (S (depth t)) t (fst n)
  | None => []
  end.

Definition getSub (t : Tree) (key : string) : list string :=
  concat (getSubGrouped t key).

#[export] Instance lib : KeyTreeLib := {|
  KeyTree := Tree;
  KeyTreeNode := Node;
  ktNew := [];
  ktAdd := fun t key value => t ++ [(keyOf key, value)];
  ktGetNode := getNode;
  ktGet := get;
  ktGetSub := getSub;
  ktGetSubGrouped := getSubGrouped;
  nodeChildren := children;
  nodeKey := fun n => str (last (fst n) []);
  nodeFullPath := fun n => map str (fst n);
  nodeGetChild := getChild
|}.

End FlatKeyTree.

(** ** [src/installer.redscript.ts] *)

Module RedscriptInstaller.

Definition REDS_MOD_CANONICAL_PATH_PREFIX : string := Legacy.REDS_MOD_CANONICAL_PATH_PREFIX.
Definition REDS_MOD_CANONICAL_EXTENSION : string := Legacy.REDS_MOD_CANONICAL_EXTENSION.

Definition matchRedscript (file : string) : bool :=
  String.eqb (Win32.extname file) REDS_MOD_CANONICAL_EXTENSION.

Definition allRedscriptFiles (files : list string) : list string :=
  filter matchRedscript files.

(** Modelled from the spec: [makeSyntheticName] of [installers.shared] is
    not among the sources; the synthesized name is the base name of the
    destination path with the [.installing] suffix stripped. *)
Definition makeSyntheticName (vortexDestinationPath : string) : string :=
  Win32.basenameExt vortexDestinationPath ".installing".

(** [toSamePath], [toDirInPath] and [instructionsForSourceToDestPairs] are
    imported from [installers.shared], which is not among the sources:
    they are the functions of these names of [installers.ts]. *)
Definition toSamePath := Legacy.toSamePath.
Definition toDirInPath := Legacy.toDirInPath.
Definition instructionsForSourceToDestPairs := Legacy.instructionsForSourceToDestPairs.

Definition trueish (b : bool) : bool := b.

Definition testForRedscriptMod (files : list string) (_fileTree : FileTree.FileTree)
  : Promise VortexTestResult :=
  let redscriptFiles := allRedscriptFiles files in
  if (length redscriptFiles =? 0)%nat then Resolved (mkTestResult false [])
  else Resolved (mkTestResult true []).

Section Installer.

(** The helpers of [installer.fallback] and [installer.archive], which are
    not among the sources, are parameters: the prompt that lets the user
    fall back to the Fallback installer or cancel, and the instructions
    for the canonical archives that come with the mod. *)
Variable promptToFallbackOrFailOnUnresolvableLayout :
  InstallerType -> FileTree.FileTree -> Ui (Promise VortexInstallResult).
Variable extraCanonArchiveInstructions :
  FileTree.FileTree -> Ui (list VortexInstruction).

Definition hasToplevelReds (fileTree : FileTree.FileTree) : bool :=
  FileTree.dirWithSomeIn FileTree.FILETREE_ROOT matchRedscript fileTree.

Definition hasBasedirReds (fileTree : FileTree.FileTree) : bool :=
  FileTree.dirWithSomeIn REDS_MOD_CANONICAL_PATH_PREFIX matchRedscript fileTree.

Definition canonSubdirs (fileTree : FileTree.FileTree) : list string :=
  FileTree.findDirectSubdirsWithSome REDS_MOD_CANONICAL_PATH_PREFIX matchRedscript fileTree.

Definition hasCanonReds (fileTree : FileTree.FileTree) : bool :=
  (0 <? length (canonSubdirs fileTree))%nat.

Definition toplevelReds (fileTree : FileTree.FileTree) : list string :=
  if hasToplevelReds fileTree
  then FileTree.filesUnder FileTree.FILETREE_ROOT FileTree.GlobAny fileTree
  else [].

Definition basedirReds (fileTree : FileTree.FileTree) : list string :=
  if hasBasedirReds fileTree
  then FileTree.filesUnder REDS_MOD_CANONICAL_PATH_PREFIX FileTree.GlobAny fileTree
  else [].

Definition canonReds (fileTree : FileTree.FileTree) : list string :=
  if hasCanonReds fileTree
  then flat_map (fun dir => FileTree.filesUnder dir FileTree.GlobAny fileTree)
                (canonSubdirs fileTree)
  else [].

Definition installable (fileTree : FileTree.FileTree) : list bool :=
  filter trueish [hasToplevelReds fileTree; hasBasedirReds fileTree; hasCanonReds fileTree].

Definition installRedscriptMod (files : list string) (fileTree : FileTree.FileTree)
    (destinationPath : string) : Ui (Promise VortexInstallResult) :=
  if negb (length (installable fileTree) =? 1)%nat then
    promptToFallbackOrFailOnUnresolvableLayout Redscript fileTree
  else
    let modName := makeSyntheticName destinationPath in
    let extraArchiveInstructions := extraCanonArchiveInstructions fileTree in
    let allSourcesAndDestinations :=
      [ map toSamePath (canonReds fileTree);
        map (toDirInPath REDS_MOD_CANONICAL_PATH_PREFIX modName) (basedirReds fileTree);
        map (toDirInPath REDS_MOD_CANONICAL_PATH_PREFIX modName) (toplevelReds fileTree) ] in
    let redsInstructions :=
      flat_map instructionsForSourceToDestPairs allSourcesAndDestinations in
    (fst extraArchiveInstructions,
     Resolved (redsInstructions ++ snd extraArchiveInstructions)).

End Installer.

End RedscriptInstaller.

(** ** The REDmod installer: autoconversion of archive mods *)

Module REDmodEngine.

Inductive Feature : Type := Enabled | Disabled.

Record Features : Type := mkFeatures { REDmodAutoconvertArchives : Feature }.

Record ModInfoVersion : Type := mkVersion { v : string }.

Record ModInfo : Type := mkModInfo
  { name : string; version : ModInfoVersion; installingDir : string }.

(** The [REDmodInfo] object the transformation builds: a name and a
    version text. *)
Record REDmodInfo : Type := mkREDmodInfo
  { redmodName : string; redmodVersion : string }.

(** The kinds of layout of [installers.layouts]; the kinds the
    transformation does not look at are [OtherLayout]. *)
Inductive LayoutKind : Type :=
| ArchiveLayout_Canon
| ArchiveLayout_Heritage
| ArchiveLayout_Other
| ArchiveLayout_XL
| REDmodTransformedLayout_Archive
| OtherLayout (label : string).

Record Instructions : Type := mkInstructions
  { kind : LayoutKind; instructions : list VortexInstruction }.

Inductive Either (E A : Type) : Type :=
| left (error : E)
| right (value : A).

Arguments left {E A} error.
Arguments right {E A} value.

(** Modelled from the spec: the constants of [installers.layouts], which
    is not among the sources.  REDmods live under [mods\], each with an
    [info.json] and an [archives\] directory for [.archive] and [.xl]
    files; archive mods live under [archive\pc\mod\]. *)
Definition REDMOD_BASEDIR : string := "mods".
Definition REDMOD_INFO_FILENAME : string := "info.json".
Definition REDMOD_ARCHIVES_DIRNAME : string := "archives".
Definition REDMOD_ARCHIVES_VALID_EXTENSIONS : list string := [".archive"; ".xl"].
Definition ARCHIVE_MOD_CANONICAL_PREFIX : string := "archive\pc\mod\".

Definition matchREDmodArchive (p : string) : bool :=
  FileTree.pathIn REDMOD_ARCHIVES_VALID_EXTENSIONS (Win32.extname p).

(** Modelled from the spec: [moveFromTo] of [installers.shared] is not
    among the sources.  A file is relocated under the destination: the
    components that follow those of the source prefix are joined to the
    destination prefix. *)
Definition moveFromTo (fromPrefix toPrefix : string) (filePath : string)
  : string * string :=
  let from := FileTree.segments fromPrefix in
  let segs := FileTree.segments filePath in
  if FileTree.segsPrefix from segs
  then (filePath, Win32.join [toPrefix; FileTree.render (skipn (length from) segs)])
  else (filePath, filePath).

Definition instructionsForSourceToDestPairs := Legacy.instructionsForSourceToDestPairs.

Definition instructionsToMoveAllFromSourceToDestination
    (sourceDirPrefix destinationDirPrefix : string) (files : list string)
  : list VortexInstruction :=
  instructionsForSourceToDestPairs
    (map (moveFromTo sourceDirPrefix destinationDirPrefix) files).

Record REDmodInfoAndPathDetes : Type := mkDetes
  { redmodInfo : REDmodInfo;
    relativeSourceDir : string;
    relativeDestDir : string;
    fileTree : FileTree.FileTree }.

Definition archiveLayoutAndValidation (detes : REDmodInfoAndPathDetes)
  : Ui (Either string (list VortexInstruction)) :=
  let archiveDir := Win32.join [relativeSourceDir detes; REDMOD_ARCHIVES_DIRNAME] in
  let correctlyPlacedArchiveFiles :=
    FileTree.filesIn archiveDir matchREDmodArchive (fileTree detes) in
  let allArchiveFilesInArchivePath :=
    FileTree.filesUnder archiveDir matchREDmodArchive (fileTree detes) in
  let hasArchivesInSubdirs :=
    negb (length allArchiveFilesInArchivePath =? length correctlyPlacedArchiveFiles)%nat in
  let hasMultipleArchives := (1 <? length correctlyPlacedArchiveFiles)%nat in
  let warning :=
    if hasArchivesInSubdirs || hasMultipleArchives
    then [ShowREDmodArchiveInstallWarning REDmod hasArchivesInSubdirs hasMultipleArchives
            false allArchiveFilesInArchivePath]
    else [] in
  let instructions :=
    instructionsToMoveAllFromSourceToDestination
      (relativeSourceDir detes) (relativeDestDir detes) allArchiveFilesInArchivePath in
  (warning, right instructions).

(** [new Map(pairs)]: a later pair replaces the value of its key, and the
    key keeps the place of its first insertion. *)
Fixpoint mapSet (k val : string) (m : list (string * string)) : list (string * string) :=
  match m with
  | [] => [(k, val)]
  | (k', val') :: r =>
      if String.eqb k k' then (k, val) :: r else (k', val') :: mapSet k val r
  end.

Definition newMap (pairs : list (string * string)) : list (string * string) :=
  fold_left (fun m p => mapSet (fst p) (snd p) m) pairs [].

Definition mapKeys (m : list (string * string)) : list string := map fst m.

Section Transform.

(** [modInfoTaggedAsAutoconverted] of [installers.shared] and [jsonpp] of
    [installers.utils] are not among the sources; the transformation is
    embedded over them. *)
Variable modInfoTaggedAsAutoconverted : ModInfo -> ModInfo.
Variable jsonpp : REDmodInfo -> string.

Definition autoconvertedName (modInfo : ModInfo) : string :=
  name (modInfoTaggedAsAutoconverted modInfo).

Definition destinationDirWithModnamePrefix (modInfo : ModInfo) : string :=
  Win32.join [REDMOD_BASEDIR; autoconvertedName modInfo; Win32.sep].

Definition destinationArchiveDirWithModnamePrefix (modInfo : ModInfo) : string :=
  Win32.join [destinationDirWithModnamePrefix modInfo; REDMOD_ARCHIVES_DIRNAME; Win32.sep].

Definition infoJsonFor (modInfo : ModInfo) : REDmodInfo :=
  let redmodInfoWithAutoconvertTag := modInfoTaggedAsAutoconverted modInfo in
  mkREDmodInfo (name redmodInfoWithAutoconvertTag)
               (v (version redmodInfoWithAutoconvertTag)).

Definition generateInfoJsonInstruction (modInfo : ModInfo) : VortexInstruction :=
  GenerateFile (jsonpp (infoJsonFor modInfo))
               (Win32.join [destinationDirWithModnamePrefix modInfo; REDMOD_INFO_FILENAME]).

(** The pairs of a virtual source (the rewritten destination) and the
    real source, one for each copy instruction. *)
Definition realSourceAndVirtualSourcePairs (modInfo : ModInfo)
    (originalInstructions : Instructions) : list (string * string) :=
  flat_map (fun instruction =>
              match instruction with
              | Copy source destination =>
                  [(JS.replace destination ARCHIVE_MOD_CANONICAL_PREFIX
                               (destinationArchiveDirWithModnamePrefix modInfo),
                    source)]
              | _ => []
              end) (instructions originalInstructions).

(** An instruction gets its real source back when it has a source and
    the map has a non-empty source for it. *)
Definition mappedBackToRealSource (m : list (string * string))
    (redmodInstruction : VortexInstruction) : VortexInstruction :=
  match redmodInstruction with
  | Copy source destination =>
      if negb (String.eqb source "") then
        match lookupKey source m with
        | Some real => if negb (String.eqb real "") then Copy real destination
                       else redmodInstruction
        | None => redmodInstruction
        end
      else redmodInstruction
  | _ => redmodInstruction
  end.

Definition notAutoconvertedMessage (modInfo : ModInfo) : string :=
  (name modInfo ++ " installed as an old-style archive, ArchiveXL can't be autoconverted to REDmod yet!")%string.

Definition autoconvertedMessage (modInfo : ModInfo) : string :=
  (name modInfo ++ " was automatically converted and will be installed as a REDmod ("
        ++ autoconvertedName modInfo ++ ")!")%string.

Definition isEnabled (f : Feature) : bool :=
  match f with Enabled => true | Disabled => false end.

Definition isXL (k : LayoutKind) : bool :=
  match k with ArchiveLayout_XL => true | _ => false end.

Definition transformToREDmodArchiveInstructions (features : Features)
    (modInfo : ModInfo) (originalInstructions : Instructions)
  : Ui (Either string Instructions) :=
  if negb (isEnabled (REDmodAutoconvertArchives features)) then
    ([], right originalInstructions)
  else if isXL (kind originalInstructions) then
    ([ShowInfoNotification REDmodArchiveNOTautoconverted (notAutoconvertedMessage modInfo)],
     right originalInstructions)
  else
    let infoJson := infoJsonFor modInfo in
    let mapFromVirtualSourceToRealSource :=
      newMap (realSourceAndVirtualSourcePairs modInfo originalInstructions) in
    let fileTreeForVirtualREDmodSources :=
      FileTree.fileTreeFromPaths (mapKeys mapFromVirtualSourceToRealSource) in
    let redmodInstallDetes :=
      mkDetes infoJson
              (destinationDirWithModnamePrefix modInfo)
              (destinationDirWithModnamePrefix modInfo)
              fileTreeForVirtualREDmodSources in
    let archiveInstructionsProducedByREDmodArchiveInstaller :=
      archiveLayoutAndValidation redmodInstallDetes in
    match snd archiveInstructionsProducedByREDmodArchiveInstaller with
    | left message =>
        (fst archiveInstructionsProducedByREDmodArchiveInstaller,
         left ("Failed to generate archive instructions for REDmod: " ++ message)%string)
    | right produced =>
        let redmodInstructionsMappedBackToRealSources :=
          map (mappedBackToRealSource mapFromVirtualSourceToRealSource) produced in
        let allREDmodInstructions :=
          redmodInstructionsMappedBackToRealSources ++ [generateInfoJsonInstruction modInfo] in
        (fst archiveInstructionsProducedByREDmodArchiveInstaller
           ++ [ShowInfoNotification REDmodArchiveAutoconverted (autoconvertedMessage modInfo)],
         right (mkInstructions REDmodTransformedLayout_Archive allREDmodInstructions))
    end.

End Transform.

End REDmodEngine.

(** ** The layouts of [src/installer.redscript.ts] *)

Module RedscriptLayouts.

(** Modelled from the spec: the layout kinds [Redscript.{Canon, Basedir,
    Toplevel}] and the values [NoInstructions.{NoMatch, Invalid}] of
    [installers.layouts], which is not among the sources. *)
Inductive RedscriptLayout : Type := Canon | Basedir | Toplevel.

Inductive NoInstructions : Type := NoMatch | Invalid.

Inductive MaybeInstructions : Type :=
| Without (why : NoInstructions)
| With (kind : RedscriptLayout) (instructions : list VortexInstruction).

Definition REDS_MOD_CANONICAL_PATH_PREFIX : string :=
  RedscriptInstaller.REDS_MOD_CANONICAL_PATH_PREFIX.

Definition matchRedscript : string -> bool := RedscriptInstaller.matchRedscript.

Definition detectRedscriptBasedirLayout (fileTree : FileTree.FileTree) : bool :=
  FileTree.dirWithSomeIn REDS_MOD_CANONICAL_PATH_PREFIX matchRedscript fileTree.

Definition redscriptBasedirLayout (modName : string) (fileTree : FileTree.FileTree)
  : MaybeInstructions :=
  let hasBasedirReds := detectRedscriptBasedirLayout fileTree in
  if negb hasBasedirReds then Without NoMatch
  else
    let allBasedirAndSubdirFiles :=
      FileTree.filesUnder REDS_MOD_CANONICAL_PATH_PREFIX FileTree.GlobAny fileTree in
    let modnamedDir := Win32.join [REDS_MOD_CANONICAL_PATH_PREFIX; modName] in
    let allToBasedirWithSubdirAsModname :=
      map (REDmodEngine.moveFromTo REDS_MOD_CANONICAL_PATH_PREFIX modnamedDir)
          allBasedirAndSubdirFiles in
    With Basedir
         (Legacy.instructionsForSourceToDestPairs allToBasedirWithSubdirAsModname).

Definition findCanonicalRedscriptDirs (fileTree : FileTree.FileTree) : list string :=
  FileTree.findDirectSubdirsWithSome REDS_MOD_CANONICAL_PATH_PREFIX matchRedscript fileTree.

Definition detectRedscriptCanonOnlyLayout (fileTree : FileTree.FileTree) : bool :=
  negb (detectRedscriptBasedirLayout fileTree)
  && (0 <? length (findCanonicalRedscriptDirs fileTree))%nat.

Definition redscriptCanonLayout (_modName : string) (fileTree : FileTree.FileTree)
  : MaybeInstructions :=
  let allCanonRedscriptFiles :=
    flat_map (fun namedSubdir => FileTree.filesUnder namedSubdir FileTree.GlobAny fileTree)
             (findCanonicalRedscriptDirs fileTree) in
  if (length allCanonRedscriptFiles <? 1)%nat then Without NoMatch
  else
    let hasBasedirReds := detectRedscriptBasedirLayout fileTree in
    if hasBasedirReds then Without NoMatch
    else With Canon (Legacy.instructionsForSameSourceAndDestPaths allCanonRedscriptFiles).

End RedscriptLayouts.

(** ** [textfiles.ts] and the [installers.ts] that imports it

    The earlier version of the installers, in which the JSON and INI
    installers live in [textfiles.ts].  Only what differs from
    [src/installers.ts] is embedded; the rest is the text of the functions
    of the same names above. *)

Module Textfiles.

Definition JSON_FILE_EXT : string := ".json".
Definition KNOWN_JSON_FILES : list (string * string) := Legacy.KNOWN_JSON_FILES.
Definition INI_MOD_EXT : string := ".ini".
Definition CET_GLOBAL_INI : string := Win32.normalize "bin/x64/global.ini".

Definition testForJsonMod (files : list string) (gameId : string)
  : Promise VortexTestResult :=
  let filtered :=
    filter (fun file => String.eqb (JS.toLowerCase (Win32.extname file)) JSON_FILE_EXT)
           files in
  if (length filtered =? 0)%nat then Resolved (mkTestResult false [])
  else
    let cetModJson :=
      filter (fun file => String.eqb (JS.toLowerCase (Win32.basename file))
                                     Legacy.CET_MOD_CANONICAL_INIT_FILE) files in
    if negb (length cetModJson =? 0)%nat then Resolved (mkTestResult false [])
    else
      let options := existsb (fun file => JS.endsWith file "options.json") filtered in
      if options then
        let proper :=
          existsb (fun f => JS.startsWith (JS.toLowerCase (Win32.dirname f))
                                          (Win32.normalize "r6/config/settings"))
                  filtered in
        if negb proper then
          Rejected "Improperly located options.json file found.  We don't know where it belongs"
        else Resolved (mkTestResult true [])
      else Resolved (mkTestResult true []).

Definition installJsonMod (files : list string) (_destinationPath : string)
  : Promise VortexInstallResult :=
  let filtered := filter (fun file => negb (String.eqb (Win32.extname file) "")) files in
  let jsonFileInstructions :=
    map (fun file =>
           let fileName := Win32.basename file in
           let instPath :=
             match lookupKey fileName KNOWN_JSON_FILES with
             | Some known => known
             | None => file
             end in
           Copy file instPath) filtered in
  Resolved ([] ++ jsonFileInstructions).

Definition testForIniMod (files : list string) (_gameId : string)
  : Promise VortexTestResult :=
  let filtered :=
    filter (fun file => String.eqb (JS.toLowerCase (Win32.extname file)) INI_MOD_EXT)
           files in
  if (length filtered =? 0)%nat then Resolved (mkTestResult false [])
  else if existsb (fun file =>
                     JS.includes (Win32.basename file) Legacy.CET_MOD_CANONICAL_INIT_FILE
                     || String.eqb (Win32.extname file) Legacy.REDS_MOD_CANONICAL_EXTENSION)
                  files
  then Resolved (mkTestResult false [])
  else if Legacy.arrayIncludes files CET_GLOBAL_INI then Resolved (mkTestResult false [])
  else Resolved (mkTestResult true []).

End Textfiles.

Module Previous.

Definition ARCHIVE_ONLY_CANONICAL_PATH_PREFIX : string := Win32.normalize "archive/pc/mod/".

(** [api.sendNotification({ type, title, message, actions })]; the action
    of the notification opens a dialog when the user asks for more. *)
Inductive Notification : Type :=
| SendNotification (type title message : string).

Definition flattenedNotification : Notification :=
  SendNotification "info" "Placed All Archive Files In Top-Level Folder!"
                   "Please check mod files in File Manager!".

(** The destination of a file: the canonical directory joined with the
    base name. *)
Definition archiveDestination (file : string) : string :=
  Win32.join [ARCHIVE_ONLY_CANONICAL_PATH_PREFIX; Win32.basename file].

(** The variable [flattenedHierarchy] is threaded through the [map] as
    the state of a fold. *)
Definition installArchiveOnlyMod (files : list string) (_destinationPath : string)
  : list Notification * Promise VortexInstallResult :=
  let filtered := filter (fun file => negb (String.eqb (Win32.extname file) "")) files in
  let mapped :=
    fold_left
      (fun (state : bool * list VortexInstruction) file =>
         let fileName := Win32.basename file in
         let dest := Win32.join [ARCHIVE_ONLY_CANONICAL_PATH_PREFIX; fileName] in
         (fst state || negb (String.eqb file dest), snd state ++ [Copy file dest]))
      filtered (false, []) in
  let flattenedHierarchy := fst mapped in
  let archiveFileInstructions := snd mapped in
  ((if flattenedHierarchy then [flattenedNotification] else []),
   Resolved ([] ++ archiveFileInstructions)).

Definition testAnyOtherModFallback (files : list string) (gameId : string)
  : Promise VortexTestResult :=
  Resolved (mkTestResult true []).

(** The dialog is given an empty list of instructions. *)
Definition installAnyModWithBasicFixes (files : list string) (_destinationPath : string)
  : Ui (Promise VortexInstallResult) :=
  let instructions := Legacy.instructionsForSameSourceAndDestPaths files in
  ([FallbackInstallerReachedErrorDialog Legacy.fallbackMessage files []],
   Resolved instructions).

(** The installers of the array [installers], in its order. *)
Definition installers : list (Legacy.InstallerType * string) :=
  [ (Legacy.RedCetMix, "cp2077-red-cet-mixture-mod");
    (Legacy.CET, "cp2077-cet-mod");
    (Legacy.Redscript, "cp2077-redscript-mod");
    (Legacy.INI, "cp2077-ini-mod");
    (Legacy.ArchiveOnly, "cp2077-basic-archive-mod");
    (Legacy.Json, "cp2077-json-mod");
    (Legacy.FallbackForOther, "cp2077-fallback-for-others-mod") ].

Definition installerPipeline : list (nat * (Legacy.InstallerType * string)) :=
  Legacy.reduceWithIndex (Legacy.priorityAdder Legacy.PRIORITY_STARTING_NUMBER)
                         installers 0 [].

End Previous.

(** ** Vocabulary of the statements *)

Definition notFolder (p : string * string) : bool :=
  negb (JS.endsWith (fst p) Win32.sep).

Definition isJsonFile (file : string) : bool :=
  String.eqb (JS.toLowerCase (Win32.extname file)) Legacy.JSON_FILE_EXT.

Definition isInitLua (file : string) : bool :=
  String.eqb (JS.toLowerCase (Win32.basename file)) Legacy.CET_MOD_CANONICAL_INIT_FILE.

Definition isOptionsJson (file : string) : bool :=
  String.eqb (Win32.basename file) "options.json".

Definition underSettings (file : string) : bool :=
  JS.startsWith (JS.toLowerCase (Win32.dirname file)) "r6\config\settings".

Definition supportedBy (r : Promise VortexTestResult) : bool :=
  match r with
  | Resolved t => supported t
  | _ => false
  end.

(** The non-empty components of a path. *)
Definition segsOf (p : chars) : list chars :=
  filter (fun s : chars => negb (lengthIsZero s)) (Win32.splitSep p).

(** An ordinary component: not empty, without separators, and neither
    [.] nor [..]. *)
Definition ordinarySeg (s : chars) : bool :=
  negb (lengthIsZero s) && forallb Win32.notSep s
  && negb (chars_eqb s [cDot]) && negb (chars_eqb s [cDot; cDot]).

Definition ordinaryName (s : string) : bool := ordinarySeg (unstr s).

(** A path that starts with a component: no leading separator and no
    drive letter. *)
Definition startsRelative (p : chars) : bool :=
  match p with
  | c0 :: c1 :: _ =>
      Win32.notSep c0 && negb (Win32.isWindowsDeviceRoot c0 && Ascii.eqb c1 ":")
  | [c0] => Win32.notSep c0
  | [] => false
  end.

Definition nonEmpty (s : chars) : bool := negb (lengthIsZero s).

(** The regular expression [/^[\[#].+/] matches the text: a bracket or a
    hash, then at least one character that is not a line terminator. *)
Definition matchesIniHeader (data : JS.text) : bool :=
  match data with
  | c1 :: c2 :: _ =>
      (N.eqb c1 91 || N.eqb c1 35) && negb (JS.isLineTerminator c2)
  | _ => false
  end.

Definition isIniFile (file : string) : bool :=
  String.eqb (Win32.extname file) Legacy.INI_MOD_EXT.

Definition isShaderFile (file : string) : bool :=
  JS.includes file Legacy.SHADERS_DIR && negb (JS.endsWith file Win32.sep).

(** Where a shader file goes: [bin\x64] joined with the path from the last
    [reshade-shaders] of its line on. *)
Definition shaderDestination (file : string) : string :=
  Win32.join [Legacy.RESHADE_MOD_PATH;
              str (Legacy.replaceUpToShadersDir true (unstr file))].

Definition regularFiles (l : list string) : list string :=
  filter (fun f => negb (JS.endsWith f Win32.sep)) l.

Definition verbatim (f : string) : VortexInstruction := Copy f f.

(** The copy of a file into the directory of the mod under
    [r6\scripts]. *)
Definition relocated (modName : string) (f : string) : VortexInstruction :=
  Copy f ("r6\scripts\" ++ modName ++ "\" ++ Win32.basename f)%string.

Definition countTrue (l : list bool) : nat := length (filter (fun b : bool => b) l).

Definition archiveTree (files : list string) : FileTree.FileTree :=
  FileTree.fileTreeFromPaths files.

Definition archiveFileCount (files : list string) : nat :=
  length (FileTree.filesUnder FileTree.FILETREE_ROOT FileTree.GlobAny (archiveTree files)).

Definition chosenArchiveInstructions (files : list string) : Legacy.Instructions :=
  Legacy.useFirstMatchingLayoutForInstructions
    Legacy.possibleLayoutsToTryInOrder (archiveTree files).

Definition noInstruction (i : Legacy.Instructions) : bool :=
  lengthIsZero (Legacy.instructions i).

(** A directory path written with ordinary components, single backslashes
    and a backslash at the end, for example [mods\name\]. *)
Definition cleanDir (d : chars) (segs : list chars) : Prop :=
  d = Win32.intercalate [cBackslash] segs ++ [cBackslash]
  /\ segs <> [] /\ forallb ordinarySeg segs = true /\ startsRelative d = true.

Definition noDollar (s : string) : bool :=
  forallb (fun c => negb (Ascii.eqb c cDollar)) (unstr s).

(** The directory of the autoconverted mod, [mods\<name>\], and its
    archive directory, [mods\<name>\archives\]. *)
Definition modDir (n : string) : chars :=
  unstr "mods" ++ [cBackslash] ++ unstr n ++ [cBackslash].

Definition modArchiveDir (n : string) : chars :=
  modDir n ++ unstr "archives" ++ [cBackslash].

(** *** Vocabulary of the further properties *)

Definition isIniFileAnyCase (file : string) : bool :=
  String.eqb (JS.toLowerCase (Win32.extname file)) Legacy.INI_MOD_EXT.

Definition looksLikeCetOrRedscript (file : string) : bool :=
  JS.includes (Win32.basename file) Legacy.CET_MOD_CANONICAL_INIT_FILE
  || String.eqb (Win32.extname file) Legacy.REDS_MOD_CANONICAL_EXTENSION.

Definition isJsonFileExact (file : string) : bool :=
  String.eqb (Win32.extname file) ".json".

Definition isTextFile (file : string) : bool :=
  String.eqb (Win32.extname file) ".txt" || String.eqb (Win32.extname file) ".md".

(** [KNOWN_JSON_FILES[path.basename(file)] === undefined] *)
Definition hasUnknownJsonName (file : string) : bool :=
  match lookupKey (Win32.basename file) Legacy.KNOWN_JSON_FILES with
  | None => true
  | Some _ => false
  end.

(** The two messages [testForJsonMod] rejects with. *)
Definition optionsMessage : string :=
  "Improperly located options.json file found.  We don't know where it belongs.".

Definition unknownJsonMessage : string :=
  "Found JSON files that aren't part of the game.".

(** The destination [installJsonMod] gives a file: the known location of
    its base name, or its own path. *)
Definition knownJsonDestination (file : string) : string :=
  match lookupKey (Win32.basename file) Legacy.KNOWN_JSON_FILES with
  | Some known => known
  | None => file
  end.

Definition isArchiveFileAnyCase (file : string) : bool :=
  String.eqb (JS.toLowerCase (Win32.extname file)) Legacy.MOD_FILE_EXT.

(** [path.dirname(f).split(path.sep)[0]] *)
Definition firstDirComponent (file : string) : string :=
  str (hd [] (splitBackslash (unstr (Win32.dirname file)))).

Definition inImportantBaseDir (file : string) : bool :=
  existsb (String.eqb (firstDirComponent file)) ["bin"; "r6"; "red4ext"].

(** The function [useFirstMatchingLayoutForInstructions] reduces the
    layouts with. *)
Definition layoutStep (fileTree : FileTree.FileTree)
    (found : Legacy.Instructions) (layout : Legacy.InstructionsFromFileTree)
  : Legacy.Instructions :=
  if (0 <? length (Legacy.instructions found))%nat then found else layout fileTree.

Definition hasExtension (file : string) : bool :=
  negb (String.eqb (Win32.extname file) "").

(** Where the earlier archive installer puts a file: directly in
    [archive\pc\mod\]. *)
Definition flattened (file : string) : VortexInstruction :=
  Copy file ("archive\pc\mod\" ++ Win32.basename file)%string.

Definition alreadyFlat (file : string) : bool :=
  String.eqb file ("archive\pc\mod\" ++ Win32.basename file)%string.

Definition hasInstructions (m : RedscriptLayouts.MaybeInstructions) : bool :=
  match m with
  | RedscriptLayouts.With _ _ => true
  | RedscriptLayouts.Without _ => false
  end.

(** The file lies in the directory or under it, by path components. *)
Definition underDir (dir file : string) : bool :=
  FileTree.segsPrefix (FileTree.segments dir) (FileTree.dirSegments file).

Definition copies (l : list VortexInstruction) : list VortexInstruction := filter isCopy l.

(** The path of a destination after the canonical archive prefix. *)
Definition afterArchivePrefix (d : string) : string :=
  str (skipn (length (unstr REDmodEngine.ARCHIVE_MOD_CANONICAL_PREFIX)) (unstr d)).

(** A copy instruction of an archive file: the destination has the
    extension [.archive] or [.xl]. *)
Definition isArchiveCopy (i : VortexInstruction) : bool :=
  match i with
  | Copy _ d => REDmodEngine.matchREDmodArchive d
  | _ => false
  end.

(** The copy of the REDmod: the same source, and the destination under
    [mods\<name>\archives\].  A copy without a source gets its new
    destination as source. *)
Definition redmodCopy (n : string) (i : VortexInstruction) : VortexInstruction :=
  match i with
  | Copy s d =>
      let d' := ("mods\" ++ n ++ "\archives\" ++ afterArchivePrefix d)%string in
      Copy (if String.eqb s "" then d' else s) d'
  | _ => i
  end.

(** A destination [archive\pc\mod\<path>] with a path of ordinary
    components. *)
Definition canonicalDestination (d : string) : Prop :=
  exists segs, segs <> [] /\ forallb ordinarySeg segs = true
               /\ d = (REDmodEngine.ARCHIVE_MOD_CANONICAL_PREFIX ++ FileTree.render segs)%string.

(** The virtual source the transformation gives a copy instruction: its
    destination with the canonical prefix replaced. *)
Definition virtualSources (tagger : REDmodEngine.ModInfo -> REDmodEngine.ModInfo)
    (modInfo : REDmodEngine.ModInfo) (i : VortexInstruction) : list string :=
  match i with
  | Copy _ d =>
      [JS.replace d REDmodEngine.ARCHIVE_MOD_CANONICAL_PREFIX
         (REDmodEngine.destinationArchiveDirWithModnamePrefix tagger modInfo)]
  | _ => []
  end.

(** * Properties *)

(** ** The path model on examples *)

Example ex_basename1 : Win32.basename "a\b\giweights.json" = "giweights.json".
Proof. reflexivity. Qed.
Example ex_basename2 : Win32.basenameExt "C:\staging\MyMod.installing" ".installing" = "MyMod".
Proof. reflexivity. Qed.
Example ex_ext1 : Win32.extname "r6\scripts\.reds" = "".
Proof. reflexivity. Qed.
Example ex_ext2 : Win32.extname "r6\scripts\a.b.reds\" = ".reds".
Proof. reflexivity. Qed.
Example ex_dir1 : Win32.dirname "random\options.json" = "random".
Proof. reflexivity. Qed.
Example ex_dir2 : Win32.dirname "x.reds" = ".".
Proof. reflexivity. Qed.
Example ex_dir3 : Win32.dirname "C:\a\b" = "C:\a".
Proof. reflexivity. Qed.
Example ex_norm1 : Win32.normalize "archive/pc/mod/" = "archive\pc\mod\".
Proof. reflexivity. Qed.
Example ex_norm2 : Win32.normalize "a\..\..\b\.\c\\d\" = "..\b\c\d\".
Proof. reflexivity. Qed.
Example ex_norm3 : Win32.normalize "C:/x/../y" = "C:\y".
Proof. reflexivity. Qed.
Example ex_norm4 : Win32.normalize "\\srv\share\a\..\.." = "\\srv\share\".
Proof. reflexivity. Qed.
Example ex_join1 : Win32.join ["r6\scripts"; "MyMod"; "Foo.reds"] = "r6\scripts\MyMod\Foo.reds".
Proof. reflexivity. Qed.
Example ex_join2 : Win32.join ["mods"; "X"; "\"] = "mods\X\".
Proof. reflexivity. Qed.
Example ex_join3 : Win32.join ["C:\stage\m.installing"; "a\x.ini"] = "C:\stage\m.installing\a\x.ini".
Proof. reflexivity. Qed.
Example ex_repl : JS.replace "archive\pc\mod\x.archive" "archive\pc\mod\" "mods\X\archives\" = "mods\X\archives\x.archive".
Proof. reflexivity. Qed.


(** ** Strings and lists of characters *)

Lemma unstr_str (l : chars) : unstr (str l) = l.
Proof. apply list_ascii_of_string_of_list_ascii. Qed.

Lemma str_unstr (s : string) : str (unstr s) = s.
Proof. apply string_of_list_ascii_of_string. Qed.

Lemma str_cons (c : ascii) (l : chars) : str (c :: l) = String c (str l).
Proof. reflexivity. Qed.

Lemma str_app (a b : chars) : str (a ++ b) = (str a ++ str b)%string.
Proof. induction a as [|c a IH]; simpl; [reflexivity|]. now rewrite IH. Qed.

Lemma unstr_app (a b : string) : unstr (a ++ b)%string = unstr a ++ unstr b.
Proof. induction a as [|c a IH]; simpl; [reflexivity|]. now rewrite IH. Qed.

Lemma str_inj (a b : chars) : str a = str b -> a = b.
Proof. intros H. rewrite <- (unstr_str a), <- (unstr_str b). now rewrite H. Qed.

Lemma chars_eqb_eq (a b : chars) : chars_eqb a b = true <-> a = b.
Proof.
  unfold chars_eqb. rewrite String.eqb_eq. split.
  - apply str_inj.
  - now intros ->.
Qed.

Lemma chars_eqb_refl (a : chars) : chars_eqb a a = true.
Proof. now apply chars_eqb_eq. Qed.

Lemma chars_eqb_neq (a b : chars) : chars_eqb a b = false <-> a <> b.
Proof.
  split.
  - intros H E. apply chars_eqb_eq in E. congruence.
  - intros H. destruct (chars_eqb a b) eqn:E; [|reflexivity].
    apply chars_eqb_eq in E. contradiction.
Qed.

Lemma takeWhile_dropWhile {A : Type} (p : A -> bool) (l : list A) :
  takeWhile p l ++ dropWhile p l = l.
Proof. induction l as [|x l IH]; simpl; [reflexivity|]. destruct (p x); simpl; congruence. Qed.

Lemma takeWhile_Forall {A : Type} (p : A -> bool) (l : list A) :
  Forall (fun x => p x = true) (takeWhile p l).
Proof.
  induction l as [|x l IH]; simpl; [constructor|].
  destruct (p x) eqn:E; [constructor; assumption|constructor].
Qed.

Lemma takeWhile_all {A : Type} (p : A -> bool) (l r : list A) (x : A) :
  Forall (fun y => p y = true) l -> p x = false -> takeWhile p (l ++ x :: r) = l.
Proof.
  induction 1 as [|y l Hy Hl IH]; intros Hx; simpl.
  - now rewrite Hx.
  - rewrite Hy. f_equal. now apply IH.
Qed.

Lemma takeWhile_all_nil {A : Type} (p : A -> bool) (l : list A) :
  Forall (fun y => p y = true) l -> takeWhile p l = l.
Proof. induction 1 as [|y l Hy Hl IH]; simpl; [reflexivity|]. rewrite Hy. now f_equal. Qed.

Lemma dropWhile_all {A : Type} (p : A -> bool) (l r : list A) (x : A) :
  Forall (fun y => p y = true) l -> p x = false -> dropWhile p (l ++ x :: r) = x :: r.
Proof.
  induction 1 as [|y l Hy Hl IH]; intros Hx; simpl.
  - now rewrite Hx.
  - rewrite Hy. now apply IH.
Qed.

Lemma dropWhile_head_false {A : Type} (p : A -> bool) (l : list A) (x : A) :
  p x = false -> dropWhile p (x :: l) = x :: l.
Proof. intros H. simpl. now rewrite H. Qed.

Lemma isPrefixOf_app (p s : chars) : isPrefixOf p (p ++ s) = true.
Proof.
  induction p as [|c p IH]; simpl; [reflexivity|].
  now rewrite Ascii.eqb_refl, IH.
Qed.

Lemma isPrefixOf_spec (p s : chars) :
  isPrefixOf p s = true <-> exists r, s = p ++ r.
Proof.
  revert s. induction p as [|c p IH]; intros s; simpl.
  - split; [intros _; now exists s|reflexivity].
  - destruct s as [|d s].
    + split; [discriminate|]. intros [r Hr]. discriminate.
    + rewrite andb_true_iff, Ascii.eqb_eq, IH. split.
      * intros [-> [r ->]]. now exists r.
      * intros [r Hr]. injection Hr as -> ->. split; [reflexivity|now exists r].
Qed.

Lemma skipn_app_exact {A : Type} (a b : list A) : skipn (length a) (a ++ b) = b.
Proof. induction a; simpl; auto. Qed.

Lemma findSub_prefix (pat s : chars) :
  findSub pat (pat ++ s) = Some ([], s).
Proof.
  destruct (pat ++ s) eqn:E.
  - destruct pat; [|discriminate]. simpl in E. subst. reflexivity.
  - simpl. rewrite <- E. rewrite isPrefixOf_app. now rewrite skipn_app_exact.
Qed.

(** ** Instructions from pairs: no deduplication *)

Lemma instructionsForSourceToDestPairs_map (pairs : list (string * string)) :
  Legacy.instructionsForSourceToDestPairs pairs
  = map (fun p => Copy (fst p) (snd p)) (filter notFolder pairs).
Proof. reflexivity. Qed.

Lemma copyDestinations_pairs (pairs : list (string * string)) :
  copyDestinations (Legacy.instructionsForSourceToDestPairs pairs)
  = map snd (filter notFolder pairs).
Proof.
  rewrite instructionsForSourceToDestPairs_map. unfold copyDestinations.
  induction (filter notFolder pairs) as [|p l IH]; simpl; [reflexivity|].
  now rewrite IH.
Qed.

Lemma In_instructionsForSourceToDestPairs (pairs : list (string * string)) i :
  In i (Legacy.instructionsForSourceToDestPairs pairs)
  <-> exists p, In p pairs /\ notFolder p = true /\ i = Copy (fst p) (snd p).
Proof.
  rewrite instructionsForSourceToDestPairs_map, in_map_iff. split.
  - intros [p [E Hp]]. apply filter_In in Hp. exists p. intuition.
  - intros [p [Hp [Hn E]]]. exists p. split; [now symmetry|]. apply filter_In. auto.
Qed.

(** C1, as stated, fails: the JSON installer sends two files with the same
    known base name to one destination, and the pairs helper keeps two
    pairs with one destination. *)
Lemma C1_two_copies_one_destination :
  Legacy.installJsonMod ["a\giweights.json"; "b\giweights.json"] "C:\staging\m.installing"
  = Resolved [ Copy "a\giweights.json" "engine\config\giweights.json";
               Copy "b\giweights.json" "engine\config\giweights.json" ]
  /\ ~ NoDup (copyDestinations
                [ Copy "a\giweights.json" "engine\config\giweights.json";
                  Copy "b\giweights.json" "engine\config\giweights.json" ])
  /\ ~ NoDup (copyDestinations
                (Legacy.instructionsForSourceToDestPairs
                   [("a\x.reds", "r6\scripts\M\x.reds"); ("b\x.reds", "r6\scripts\M\x.reds")])).
Proof.
  split; [reflexivity|]. split.
  - intros H. inversion H as [|x l Hn _]. apply Hn. now left.
  - intros H. inversion H as [|x l Hn _]. apply Hn. now left.
Qed.

(** C1, amended: nothing deduplicates by destination.
    [instructionsForSourceToDestPairs] drops the pairs whose source is a
    folder and makes a copy instruction of each pair it keeps, so the copy
    instructions it returns have distinct destinations whenever the pairs
    that are not folders have distinct destinations. *)
Theorem C1_destinations_unique_when_pairs_unique (pairs : list (string * string)) :
  NoDup (map snd (filter notFolder pairs)) ->
  NoDup (copyDestinations (Legacy.instructionsForSourceToDestPairs pairs))
  /\ copyDestinations (Legacy.instructionsForSourceToDestPairs pairs)
     = map snd (filter notFolder pairs).
Proof.
  intros H. rewrite copyDestinations_pairs. split; [exact H|reflexivity].
Qed.

Lemma C1_witness :
  NoDup (copyDestinations
           (Legacy.instructionsForSourceToDestPairs
              [ ("r6\scripts\Foo.reds", "r6\scripts\MyMod\Foo.reds");
                ("archive\pc\mod\", "archive\pc\mod\");
                ("archive\pc\mod\Foo.archive", "archive\pc\mod\Foo.archive") ])).
Proof.
  refine (proj1 (C1_destinations_unique_when_pairs_unique
                   [ ("r6\scripts\Foo.reds", "r6\scripts\MyMod\Foo.reds");
                     ("archive\pc\mod\", "archive\pc\mod\");
                     ("archive\pc\mod\Foo.archive", "archive\pc\mod\Foo.archive") ] _)).
  simpl. constructor.
  - simpl. intros [H|[]]. discriminate.
  - constructor; [intros []|constructor].
Defined.

(** ** The JSON installer *)

(** C5, as stated, fails: on the misplaced [options.json] the detector
    itself rejects, and the install function resolves. *)
Lemma C5_test_rejects_install_resolves :
  Legacy.testForJsonMod ["random\options.json"] "cyberpunk2077"
  = Rejected "Improperly located options.json file found.  We don't know where it belongs."
  /\ Legacy.installJsonMod ["random\options.json"] "C:\staging\m.installing"
     = Resolved [Copy "random\options.json" "random\options.json"].
Proof. split; reflexivity. Qed.

Lemma existsb_false_filter {A : Type} (p q : A -> bool) (l : list A) :
  (forall x, In x l -> q x = true -> p x = false) -> existsb p (filter q l) = false.
Proof.
  intros H. induction l as [|x l IH]; simpl; [reflexivity|].
  destruct (q x) eqn:E; simpl.
  - rewrite (H x (or_introl eq_refl) E). apply IH. intros y Hy. apply H. now right.
  - apply IH. intros y Hy. apply H. now right.
Qed.

Lemma existsb_true_filter {A : Type} (p q : A -> bool) (l : list A) (x : A) :
  In x l -> q x = true -> p x = true -> existsb p (filter q l) = true.
Proof.
  intros Hin Hq Hp. apply existsb_exists. exists x. split; [|assumption].
  apply filter_In. auto.
Qed.

Lemma lengthIsZero_filter_false {A : Type} (q : A -> bool) (l : list A) (x : A) :
  In x l -> q x = true -> lengthIsZero (filter q l) = false.
Proof.
  intros Hin Hq. destruct (filter q l) eqn:E; [|reflexivity].
  assert (H : In x (filter q l)) by (apply filter_In; auto).
  rewrite E in H. destruct H.
Qed.

Lemma lengthIsZero_filter_true {A : Type} (q : A -> bool) (l : list A) :
  (forall x, In x l -> q x = false) -> lengthIsZero (filter q l) = true.
Proof.
  intros H. induction l as [|x l IH]; simpl; [reflexivity|].
  rewrite (H x (or_introl eq_refl)). apply IH. intros y Hy. apply H. now right.
Qed.

(** C5, amended: for the game [cyberpunk2077], a file list with an
    [options.json] among its JSON files, no [init.lua], and no JSON file in
    a directory that starts with [r6\config\settings] makes [testSupported]
    itself reject, with a message that mentions [options.json]; the
    install function of the JSON installer never rejects. *)
Theorem C5_misplaced_options_rejected_by_test
    (files : list string) (destinationPath : string) (o : string) :
  In o files -> isJsonFile o = true -> isOptionsJson o = true ->
  (forall f, In f files -> isInitLua f = false) ->
  (forall f, In f files -> isJsonFile f = true -> underSettings f = false) ->
  (exists message,
      Legacy.testForJsonMod files Legacy.GAME_ID = Rejected message
      /\ JS.includes message "options.json" = true)
  /\ exists instructions,
      Legacy.installJsonMod files destinationPath = Resolved instructions.
Proof.
  intros Hin Hjson Hopt Hlua Hset. split.
  - exists "Improperly located options.json file found.  We don't know where it belongs.".
    split; [|reflexivity].
    unfold Legacy.testForJsonMod.
    change (String.eqb Legacy.GAME_ID Legacy.GAME_ID) with true. cbv beta iota zeta.
    change (negb true) with false. cbv iota.
    fold isJsonFile. fold isInitLua. fold isOptionsJson.
    rewrite (lengthIsZero_filter_false isJsonFile files o Hin Hjson).
    rewrite (lengthIsZero_filter_true isInitLua files Hlua). cbv iota. simpl negb. cbv iota.
    rewrite (existsb_true_filter isOptionsJson isJsonFile files o Hin Hjson Hopt).
    change (Win32.normalize "r6/config/settings") with "r6\config\settings".
    fold underSettings.
    rewrite (existsb_false_filter underSettings isJsonFile files Hset).
    reflexivity.
  - eexists. reflexivity.
Qed.

Lemma C5_witness :
  exists message,
    Legacy.testForJsonMod ["random\options.json"] Legacy.GAME_ID = Rejected message
    /\ JS.includes message "options.json" = true.
Proof.
  refine (proj1 (C5_misplaced_options_rejected_by_test
                   ["random\options.json"] "C:\staging\m.installing" "random\options.json"
                   _ _ _ _ _)).
  - simpl. now left.
  - reflexivity.
  - reflexivity.
  - intros f [<-|[]]. reflexivity.
  - intros f [<-|[]] _. reflexivity.
Defined.

(** ** The Fallback installer *)

(** C8, as stated, fails: for another game the Fallback detector reports
    that it does not support the mod. *)
Lemma C8_other_game_not_supported :
  Legacy.testAnyOtherModFallback ["readme.txt"] "skyrimse"
  = Resolved (mkTestResult false []).
Proof. reflexivity. Qed.

(** C8, amended: the Fallback detector reports [supported] exactly for
    the game [cyberpunk2077], whatever the files; its install function
    never fails: it shows the fallback dialog once and resolves with one
    verbatim copy instruction for each input path that is not a folder, in
    order. *)
Theorem C8_fallback_supported_iff_game_and_install_total
    (files : list string) (gameId destinationPath : string) :
  Legacy.testAnyOtherModFallback files gameId
  = Resolved (mkTestResult (String.eqb gameId Legacy.GAME_ID) [])
  /\ exists instructions,
      Legacy.installAnyModWithBasicFixes files destinationPath
      = ([FallbackInstallerReachedErrorDialog Legacy.fallbackMessage files instructions],
         Resolved instructions)
      /\ instructions
         = map (fun f => Copy f f)
               (filter (fun f => negb (JS.endsWith f Win32.sep)) files).
Proof.
  split.
  - unfold Legacy.testAnyOtherModFallback. now destruct (String.eqb gameId Legacy.GAME_ID).
  - eexists. split; [reflexivity|].
    unfold Legacy.instructionsForSameSourceAndDestPaths.
    rewrite instructionsForSourceToDestPairs_map. simpl app.
    induction files as [|f files IH]; simpl; [reflexivity|].
    unfold notFolder at 1. simpl fst.
    destruct (negb (JS.endsWith f Win32.sep)); simpl; now rewrite IH.
Qed.

(** ** The mixed Redscript and CET detector *)

Lemma testForRedCetMixedMod_supported `{KT : KeyTreeLib} (files : list string) (g g' : string) :
  supportedBy (Legacy.testForRedCetMixedMod files g)
  = supportedBy (Legacy.testForCetMod files g')
    && negb (lengthIsZero (Legacy.allRedscriptFiles files)).
Proof.
  unfold Legacy.testForRedCetMixedMod, Legacy.testForCetMod.
  destruct (ktGetNode _ _) as [moddir|]; [|reflexivity].
  destruct (lengthIsZero (nodeChildren moddir)); [reflexivity|].
  destruct (existsb _ (nodeChildren moddir)); simpl.
  - now destruct (lengthIsZero (Legacy.allRedscriptFiles files)).
  - reflexivity.
Qed.

(** C10: whenever the mixed Redscript and CET detector reports
    [supported], the CET detector reports it on the same files (the mixed
    detector asks for a Redscript file on top of the CET condition); and
    in the pipeline the mixed installer has the smaller priority number,
    so it is asked first. *)
Theorem C10_mixed_supported_implies_cet_supported `{KT : KeyTreeLib}
    (files : list string) (gameId gameId' : string) (r : VortexTestResult) :
  Legacy.testForRedCetMixedMod files gameId = Resolved r ->
  supported r = true ->
  (exists r', Legacy.testForCetMod files gameId' = Resolved r' /\ supported r' = true)
  /\ Legacy.allRedscriptFiles files <> []
  /\ exists p q, Legacy.priorityOf Legacy.RedCetMix = Some p
                 /\ Legacy.priorityOf Legacy.CET = Some q /\ p < q.
Proof.
  intros Hr Hs.
  pose proof (testForRedCetMixedMod_supported files gameId gameId') as H.
  rewrite Hr in H. simpl in H. rewrite Hs in H. symmetry in H.
  apply andb_true_iff in H. destruct H as [Hc Hreds].
  split; [|split].
  - destruct (Legacy.testForCetMod files gameId') as [r'| |]; try discriminate.
    exists r'. split; [reflexivity|exact Hc].
  - intros E. rewrite E in Hreds. discriminate.
  - exists 35, 36. repeat split. unfold lt. apply le_n.
Qed.

Lemma C10_witness :
  exists r', Legacy.testForCetMod (KT := FlatKeyTree.lib)
               ["bin\x64\plugins\cyber_engine_tweaks\mods\MyMod\init.lua";
                "r6\scripts\MyMod\main.reds"] "cyberpunk2077" = Resolved r'
             /\ supported r' = true.
Proof.
  refine (proj1 (C10_mixed_supported_implies_cet_supported (KT := FlatKeyTree.lib)
                   ["bin\x64\plugins\cyber_engine_tweaks\mods\MyMod\init.lua";
                    "r6\scripts\MyMod\main.reds"]
                   "cyberpunk2077" "cyberpunk2077" (mkTestResult true []) _ _)).
  - reflexivity.
  - reflexivity.
Defined.

(** ** REDmod autoconversion: ArchiveXL is left alone *)

(** C7: for original instructions of kind [ArchiveLayout.XL] the
    transformation returns the original instructions, whatever the
    features; nothing is shown to the user but the info notification that
    the mod was not autoconverted, and with the feature enabled that
    notification is shown once. *)
Theorem C7_xl_instructions_returned_unchanged
    (modInfoTaggedAsAutoconverted : REDmodEngine.ModInfo -> REDmodEngine.ModInfo)
    (jsonpp : REDmodEngine.REDmodInfo -> string)
    (features : REDmodEngine.Features) (modInfo : REDmodEngine.ModInfo)
    (originalInstructions : REDmodEngine.Instructions) :
  REDmodEngine.kind originalInstructions = REDmodEngine.ArchiveLayout_XL ->
  snd (REDmodEngine.transformToREDmodArchiveInstructions
         modInfoTaggedAsAutoconverted jsonpp features modInfo originalInstructions)
  = REDmodEngine.right originalInstructions
  /\ (forall e,
         In e (fst (REDmodEngine.transformToREDmodArchiveInstructions
                      modInfoTaggedAsAutoconverted jsonpp features modInfo
                      originalInstructions)) ->
         e = ShowInfoNotification REDmodArchiveNOTautoconverted
               (REDmodEngine.notAutoconvertedMessage modInfo))
  /\ (REDmodEngine.REDmodAutoconvertArchives features = REDmodEngine.Enabled ->
      fst (REDmodEngine.transformToREDmodArchiveInstructions
             modInfoTaggedAsAutoconverted jsonpp features modInfo originalInstructions)
      = [ShowInfoNotification REDmodArchiveNOTautoconverted
           (REDmodEngine.notAutoconvertedMessage modInfo)]).
Proof.
  intros Hk. unfold REDmodEngine.transformToREDmodArchiveInstructions.
  rewrite Hk. simpl REDmodEngine.isXL. cbv iota.
  destruct (REDmodEngine.REDmodAutoconvertArchives features); simpl.
  - repeat split; intros e; intros; try reflexivity.
    destruct H as [<-|[]]. reflexivity.
  - repeat split; intros; try discriminate. destruct H.
Qed.

Lemma C7_witness :
  snd (REDmodEngine.transformToREDmodArchiveInstructions
         (fun m => m) (fun i => REDmodEngine.redmodName i)
         (REDmodEngine.mkFeatures REDmodEngine.Enabled)
         (REDmodEngine.mkModInfo "X" (REDmodEngine.mkVersion "1.0") "C:\staging\X.installing")
         (REDmodEngine.mkInstructions REDmodEngine.ArchiveLayout_XL
            [Copy "archive\pc\mod\X.archive" "archive\pc\mod\X.archive";
             Copy "archive\pc\mod\X.xl" "archive\pc\mod\X.xl"]))
  = REDmodEngine.right
      (REDmodEngine.mkInstructions REDmodEngine.ArchiveLayout_XL
         [Copy "archive\pc\mod\X.archive" "archive\pc\mod\X.archive";
          Copy "archive\pc\mod\X.xl" "archive\pc\mod\X.xl"]).
Proof.
  refine (proj1 (C7_xl_instructions_returned_unchanged
                   (fun m => m) (fun i => REDmodEngine.redmodName i)
                   (REDmodEngine.mkFeatures REDmodEngine.Enabled)
                   (REDmodEngine.mkModInfo "X" (REDmodEngine.mkVersion "1.0")
                      "C:\staging\X.installing")
                   (REDmodEngine.mkInstructions REDmodEngine.ArchiveLayout_XL
                      [Copy "archive\pc\mod\X.archive" "archive\pc\mod\X.archive";
                       Copy "archive\pc\mod\X.xl" "archive\pc\mod\X.xl"])
                   _)).
  reflexivity.
Defined.

(** ** Paths made of ordinary components *)

Lemma segments_segsOf (p : string) : FileTree.segments p = segsOf (unstr p).
Proof. reflexivity. Qed.

Lemma splitSep_not_nil (p : chars) : Win32.splitSep p <> [].
Proof.
  destruct p as [|c r]; simpl; [discriminate|].
  destruct (Win32.isPathSeparator c); [discriminate|].
  destruct (Win32.splitSep r); discriminate.
Qed.

Lemma splitSep_app_sep (a b : chars) (c : ascii) :
  Win32.isPathSeparator c = true ->
  Win32.splitSep (a ++ c :: b) = Win32.splitSep a ++ Win32.splitSep b.
Proof.
  intros Hc. induction a as [|x a IH]; simpl.
  - now rewrite Hc.
  - rewrite IH. destruct (Win32.isPathSeparator x); [reflexivity|].
    destruct (Win32.splitSep a) eqn:E; [now apply splitSep_not_nil in E|reflexivity].
Qed.

Lemma splitSep_sepfree (s : chars) :
  forallb Win32.notSep s = true -> Win32.splitSep s = [s].
Proof.
  induction s as [|c s IH]; simpl; [reflexivity|].
  intros H. apply andb_true_iff in H. destruct H as [Hc Hs].
  unfold Win32.notSep in Hc. apply negb_true_iff in Hc. rewrite Hc.
  now rewrite (IH Hs).
Qed.

Lemma splitSep_segments_sepfree (p : chars) :
  Forall (fun s => forallb Win32.notSep s = true) (Win32.splitSep p).
Proof.
  induction p as [|c p IH]; simpl.
  - repeat constructor.
  - destruct (Win32.isPathSeparator c) eqn:Hc.
    + constructor; [reflexivity|assumption].
    + destruct (Win32.splitSep p) as [|seg segs]; [repeat constructor; simpl|].
      * unfold Win32.notSep. now rewrite Hc.
      * inversion IH; subst. constructor; [|assumption].
        simpl. unfold Win32.notSep at 1. now rewrite Hc.
Qed.

Lemma segsOf_app_sep (a b : chars) (c : ascii) :
  Win32.isPathSeparator c = true -> segsOf (a ++ c :: b) = segsOf a ++ segsOf b.
Proof.
  intros Hc. unfold segsOf. rewrite (splitSep_app_sep a b c Hc). apply filter_app.
Qed.

Lemma segsOf_nil : segsOf [] = [].
Proof. reflexivity. Qed.

Lemma segsOf_ordinary (s : chars) : ordinarySeg s = true -> segsOf s = [s].
Proof.
  unfold ordinarySeg. intros H.
  apply andb_true_iff in H. destruct H as [H _].
  apply andb_true_iff in H. destruct H as [H _].
  apply andb_true_iff in H. destruct H as [Hne Hs].
  unfold segsOf. rewrite (splitSep_sepfree s Hs). simpl. now rewrite Hne.
Qed.

Lemma segsOf_sepfree (p : chars) :
  Forall (fun s => forallb Win32.notSep s = true /\ s <> []) (segsOf p).
Proof.
  unfold segsOf. pose proof (splitSep_segments_sepfree p) as H.
  induction H as [|s l Hs Hl IH]; simpl; [constructor|].
  destruct s; simpl; [assumption|]. constructor; [|assumption].
  split; [assumption|discriminate].
Qed.

Lemma cBackslash_sep : Win32.isPathSeparator cBackslash = true.
Proof. reflexivity. Qed.

Lemma segsOf_intercalate (cs : list chars) :
  segsOf (Win32.intercalate [cBackslash] cs) = flat_map segsOf cs.
Proof.
  induction cs as [|a cs IH]; [reflexivity|].
  destruct cs as [|b cs].
  - simpl. now rewrite app_nil_r.
  - change (Win32.intercalate [cBackslash] (a :: b :: cs))
      with (a ++ cBackslash :: Win32.intercalate [cBackslash] (b :: cs)).
    rewrite (segsOf_app_sep _ _ _ cBackslash_sep), IH. reflexivity.
Qed.

Lemma normalizeStep_ordinary (b : bool) (st : list chars) (seg : chars) :
  ordinarySeg seg = true -> Win32.normalizeStep b st seg = seg :: st.
Proof.
  unfold ordinarySeg, Win32.normalizeStep. intros H.
  apply andb_true_iff in H. destruct H as [H H2].
  apply andb_true_iff in H. destruct H as [H H1].
  apply andb_true_iff in H. destruct H as [Hne _].
  apply negb_true_iff in H1, H2. rewrite H1, H2.
  destruct seg; [discriminate|]. reflexivity.
Qed.

Lemma fold_normalizeStep_skip_empty (b : bool) (l : list chars) (st : list chars) :
  fold_left (Win32.normalizeStep b) l st
  = fold_left (Win32.normalizeStep b) (filter nonEmpty l) st.
Proof.
  revert st. induction l as [|s l IH]; intros st; simpl; [reflexivity|].
  destruct s as [|c s]; simpl.
  - apply IH.
  - apply IH.
Qed.

Lemma fold_normalizeStep_ordinary (b : bool) (l : list chars) (st : list chars) :
  forallb ordinarySeg l = true ->
  fold_left (Win32.normalizeStep b) l st = rev l ++ st.
Proof.
  revert st. induction l as [|s l IH]; intros st H; simpl; [reflexivity|].
  simpl in H. apply andb_true_iff in H. destruct H as [Hs Hl].
  rewrite (normalizeStep_ordinary b st s Hs), (IH _ Hl).
  now rewrite <- app_assoc.
Qed.

Lemma normalizeString_ordinary (p : chars) (b : bool) :
  forallb ordinarySeg (segsOf p) = true ->
  Win32.normalizeString p b = Win32.intercalate [cBackslash] (segsOf p).
Proof.
  intros H. unfold Win32.normalizeString.
  rewrite fold_normalizeStep_skip_empty.
  change (filter nonEmpty (Win32.splitSep p)) with (segsOf p).
  rewrite (fold_normalizeStep_ordinary b _ [] H).
  now rewrite app_nil_r, rev_involutive.
Qed.

Lemma intercalate_not_nil (s : chars) (a : chars) (l : list chars) :
  a <> [] -> Win32.intercalate s (a :: l) <> [].
Proof.
  intros Ha. destruct l; simpl.
  - assumption.
  - destruct a; [contradiction|discriminate].
Qed.

Lemma segsOf_head_nonsep (c : ascii) (p : chars) :
  Win32.notSep c = true -> exists s l, segsOf (c :: p) = (c :: s) :: l.
Proof.
  intros Hc. unfold segsOf. simpl.
  unfold Win32.notSep in Hc. apply negb_true_iff in Hc. rewrite Hc.
  destruct (Win32.splitSep p) as [|seg segs]; simpl; eauto.
Qed.

Lemma normalizeChars_relative (pc : chars) :
  startsRelative pc = true ->
  forallb ordinarySeg (segsOf pc) = true ->
  Win32.normalizeChars pc
  = Win32.intercalate [cBackslash] (segsOf pc)
    ++ (if Win32.endsWithSeparator pc then [cBackslash] else []).
Proof.
  intros Hrel Hord.
  destruct pc as [|c0 [|c1 rest]]; [discriminate| |].
  - simpl in Hrel. unfold Win32.normalizeChars.
    assert (Hs : Win32.isPathSeparator c0 = false)
      by (unfold Win32.notSep in Hrel; now apply negb_true_iff in Hrel).
    assert (Hslash : Ascii.eqb c0 "/" = false).
    { unfold Win32.isPathSeparator in Hs. apply orb_false_iff in Hs. tauto. }
    rewrite Hslash. unfold segsOf, Win32.endsWithSeparator. simpl. rewrite Hs. reflexivity.
  - simpl in Hrel. apply andb_true_iff in Hrel. destruct Hrel as [Hc0 Hdev].
    apply negb_true_iff in Hdev.
    assert (Hs : Win32.isPathSeparator c0 = false)
      by (unfold Win32.notSep in Hc0; now apply negb_true_iff in Hc0).
    unfold Win32.normalizeChars. rewrite Hs, Hdev. cbv beta iota zeta.
    change (skipn 0 (c0 :: c1 :: rest)) with (c0 :: c1 :: rest).
    rewrite (normalizeString_ordinary _ _ Hord).
    destruct (segsOf_head_nonsep c0 (c1 :: rest) Hc0) as [s [l E]].
    rewrite E.
    destruct (Win32.intercalate [cBackslash] ((c0 :: s) :: l)) eqn:Ei.
    + exfalso. revert Ei. apply intercalate_not_nil. discriminate.
    + simpl negb. cbv iota.
      destruct (Win32.endsWithSeparator (c0 :: c1 :: rest));
        [reflexivity|now rewrite app_nil_r].
Qed.

Lemma filter_nonEmpty_all (cs : list chars) :
  forallb nonEmpty cs = true -> filter nonEmpty cs = cs.
Proof.
  induction cs as [|a cs IH]; simpl; [reflexivity|].
  intros H. apply andb_true_iff in H. destruct H as [Ha Hcs].
  rewrite Ha. now rewrite IH.
Qed.

Lemma nonEmpty_length (a : chars) : negb (length a =? 0)%nat = nonEmpty a.
Proof. now destruct a. Qed.

Lemma startsRelative_no_leading_sep (p : chars) :
  startsRelative p = true -> takeWhile Win32.isPathSeparator p = [].
Proof.
  destruct p as [|c0 [|c1 r]]; simpl; try discriminate.
  - unfold Win32.notSep. intros H. apply negb_true_iff in H. now rewrite H.
  - unfold Win32.notSep. intros H. apply andb_true_iff in H. destruct H as [H _].
    apply negb_true_iff in H. now rewrite H.
Qed.

(** [path.join] on non-empty arguments that start with a component and
    have only ordinary components: the components are joined with single
    backslashes, and the result ends with a backslash when the arguments
    do. *)
Lemma join_ordinary (args : list string) :
  forallb nonEmpty (map unstr args) = true ->
  startsRelative (Win32.intercalate [cBackslash] (map unstr args)) = true ->
  forallb ordinarySeg (flat_map segsOf (map unstr args)) = true ->
  Win32.join args
  = str (Win32.intercalate [cBackslash] (flat_map segsOf (map unstr args))
         ++ (if Win32.endsWithSeparator (Win32.intercalate [cBackslash] (map unstr args))
             then [cBackslash] else [])).
Proof.
  intros Hne Hrel Hord. unfold Win32.join.
  replace (filter (fun a : chars => negb (length a =? 0)%nat) (map unstr args))
    with (map unstr args).
  2:{ symmetry. erewrite filter_ext; [apply (filter_nonEmpty_all _ Hne)|].
      intros a. apply nonEmpty_length. }
  destruct (map unstr args) as [|firstPart others] eqn:E; [discriminate|].
  rewrite (startsRelative_no_leading_sep _ Hrel). simpl length.
  rewrite andb_false_r. f_equal.
  rewrite <- segsOf_intercalate in Hord |- *.
  now apply normalizeChars_relative.
Qed.

(** ** Base names and extensions *)

Lemma forallb_rev {A : Type} (p : A -> bool) (l : list A) :
  forallb p (rev l) = forallb p l.
Proof.
  induction l as [|x l IH]; simpl; [reflexivity|].
  rewrite forallb_app, IH. simpl. rewrite andb_true_r. apply andb_comm.
Qed.

Lemma Forall_forallb {A : Type} (p : A -> bool) (l : list A) :
  Forall (fun x => p x = true) l -> forallb p l = true.
Proof. induction 1; simpl; [reflexivity|]. now rewrite H, IHForall. Qed.

Lemma forallb_Forall {A : Type} (p : A -> bool) (l : list A) :
  forallb p l = true -> Forall (fun x => p x = true) l.
Proof. intros H. apply Forall_forall. now apply forallb_forall. Qed.

Lemma lastComponent_sepfree (p : chars) :
  forallb Win32.notSep (Win32.lastComponent p) = true.
Proof.
  unfold Win32.lastComponent. rewrite forallb_rev.
  apply Forall_forallb, takeWhile_Forall.
Qed.

Lemma extOfComponent_ordinary (c : chars) :
  forallb Win32.notSep c = true -> Win32.extOfComponent c <> [] -> ordinarySeg c = true.
Proof.
  intros Hs He. unfold ordinarySeg. rewrite Hs.
  destruct c as [|x c]; [now elim He|]. simpl lengthIsZero. simpl negb.
  destruct (chars_eqb (x :: c) [cDot]) eqn:E1.
  { apply chars_eqb_eq in E1. rewrite E1 in He. now elim He. }
  destruct (chars_eqb (x :: c) [cDot; cDot]) eqn:E2.
  { apply chars_eqb_eq in E2. rewrite E2 in He. now elim He. }
  reflexivity.
Qed.

Lemma str_nil_iff (l : chars) : str l = "" <-> l = [].
Proof.
  split; [|now intros ->]. destruct l; [reflexivity|discriminate].
Qed.

Lemma extname_ordinary_basename (f : string) :
  Win32.extname f <> "" -> ordinaryName (Win32.basename f) = true.
Proof.
  unfold Win32.extname, Win32.basename, ordinaryName. intros H.
  rewrite unstr_str. apply extOfComponent_ordinary.
  - apply lastComponent_sepfree.
  - intros E. apply H. now rewrite E.
Qed.

Lemma separator_not_device_root (c : ascii) :
  Win32.isPathSeparator c = true -> Win32.isWindowsDeviceRoot c = false.
Proof.
  unfold Win32.isPathSeparator. intros H. apply orb_true_iff in H.
  destruct H as [H|H]; apply Ascii.eqb_eq in H; subst; reflexivity.
Qed.

Lemma separator_not_colon (c : ascii) :
  Win32.isPathSeparator c = true -> Ascii.eqb c ":" = false.
Proof.
  unfold Win32.isPathSeparator. intros H. apply orb_true_iff in H.
  destruct H as [H|H]; apply Ascii.eqb_eq in H; subst; reflexivity.
Qed.

Lemma afterDrive_before_separator (parent c : chars) (s : ascii) :
  Win32.isPathSeparator s = true ->
  exists parent', Win32.afterDrive (parent ++ s :: c) = parent' ++ s :: c.
Proof.
  intros Hs. unfold Win32.afterDrive.
  destruct parent as [|x [|y r]]; simpl.
  - exists []. destruct c; [reflexivity|].
    now rewrite (separator_not_device_root s Hs).
  - exists [x]. now rewrite (separator_not_colon s Hs), andb_false_r.
  - destruct (Win32.isWindowsDeviceRoot x && Ascii.eqb y ":").
    + now exists r.
    + now exists (x :: y :: r).
Qed.

Lemma notSep_false_of_sep (s : ascii) :
  Win32.isPathSeparator s = true -> Win32.notSep s = false.
Proof. intros H. unfold Win32.notSep. now rewrite H. Qed.

Lemma lastComponent_after_separator (parent c : chars) (s : ascii) :
  Win32.isPathSeparator s = true -> c <> [] -> forallb Win32.notSep c = true ->
  Win32.lastComponent (parent ++ s :: c) = c
  /\ Win32.trailingSeparators (parent ++ s :: c) = [].
Proof.
  intros Hs Hne Hc.
  unfold Win32.lastComponent, Win32.trailingSeparators.
  destruct (afterDrive_before_separator parent c s Hs) as [parent' ->].
  rewrite rev_app_distr. simpl rev. rewrite <- app_assoc. simpl app.
  assert (Hrc : Forall (fun x => Win32.notSep x = true) (rev c)).
  { apply forallb_Forall. now rewrite forallb_rev. }
  destruct (rev c) as [|z rc] eqn:Erc.
  { exfalso. apply Hne. rewrite <- (rev_involutive c), Erc. reflexivity. }
  assert (Hz : Win32.isPathSeparator z = false).
  { inversion Hrc; subst. unfold Win32.notSep in *. now apply negb_true_iff. }
  split.
  - rewrite <- app_comm_cons. rewrite dropWhile_head_false by assumption.
    rewrite app_comm_cons.
    rewrite (takeWhile_all Win32.notSep (z :: rc) (rev parent') s Hrc
               (notSep_false_of_sep s Hs)).
    rewrite <- Erc. apply rev_involutive.
  - simpl. now rewrite Hz.
Qed.

Lemma endsWithSeparator_app_sepfree (x b : chars) :
  b <> [] -> forallb Win32.notSep b = true -> Win32.endsWithSeparator (x ++ b) = false.
Proof.
  intros Hne Hb. unfold Win32.endsWithSeparator. rewrite rev_app_distr.
  assert (H : forallb Win32.notSep (rev b) = true) by now rewrite forallb_rev.
  destruct (rev b) as [|z rb] eqn:E.
  - exfalso. apply Hne. rewrite <- (rev_involutive b), E. reflexivity.
  - simpl in H |- *. apply andb_true_iff in H. destruct H as [H _].
    unfold Win32.notSep in H. now apply negb_true_iff in H.
Qed.

Lemma ordinarySeg_nonEmpty (s : chars) : ordinarySeg s = true -> s <> [].
Proof. destruct s; [discriminate|discriminate]. Qed.

Lemma ordinarySeg_sepfree (s : chars) :
  ordinarySeg s = true -> forallb Win32.notSep s = true.
Proof.
  unfold ordinarySeg. intros H.
  apply andb_true_iff in H. destruct H as [H _].
  apply andb_true_iff in H. destruct H as [H _].
  apply andb_true_iff in H. tauto.
Qed.

Lemma isPrefixOf_length (p s : chars) : isPrefixOf p s = true -> length p <= length s.
Proof.
  intros H. apply isPrefixOf_spec in H. destruct H as [r ->].
  rewrite length_app. lia.
Qed.

(** [makeModName] on a staging directory [parent\name.installing] is the
    name. *)
Lemma makeModName_installing (parent name : string) :
  unstr name <> [] -> forallb Win32.notSep (unstr name) = true ->
  Legacy.makeModName (parent ++ "\" ++ name ++ ".installing")%string = name.
Proof.
  intros Hne Hs. unfold Legacy.makeModName, Win32.basenameExt.
  set (sc := unstr ".installing").
  assert (Hl : length sc = 11) by reflexivity.
  assert (Hp : unstr (parent ++ "\" ++ name ++ ".installing")%string
               = unstr parent ++ cBackslash :: (unstr name ++ sc)).
  { rewrite !unstr_app. reflexivity. }
  rewrite Hp.
  assert (Hc : unstr name ++ sc <> []) by (destruct (unstr name); [contradiction|discriminate]).
  assert (Hcs : forallb Win32.notSep (unstr name ++ sc) = true)
    by (rewrite forallb_app, Hs; reflexivity).
  destruct (lastComponent_after_separator (unstr parent) (unstr name ++ sc) cBackslash
              cBackslash_sep Hc Hcs) as [Hlast _].
  rewrite Hlast.
  replace ((length sc =? 0)%nat) with false by reflexivity.
  replace ((length (unstr parent ++ cBackslash :: unstr name ++ sc) <? length sc)%nat)
    with false.
  2:{ symmetry. apply Nat.ltb_ge. rewrite length_app. simpl length.
      rewrite length_app. lia. }
  simpl orb. cbv iota.
  destruct (String.eqb ".installing" (parent ++ "\" ++ name ++ ".installing")%string) eqn:E.
  { apply String.eqb_eq in E. apply (f_equal unstr) in E. rewrite Hp in E.
    apply (f_equal (@length ascii)) in E. rewrite length_app in E. simpl length in E.
    rewrite length_app in E. fold sc in E. lia. }
  unfold isSuffixOf. rewrite rev_app_distr, isPrefixOf_app.
  replace ((length (unstr name ++ sc) =? length sc)%nat) with false.
  2:{ symmetry. apply Nat.eqb_neq. rewrite length_app.
      destruct (unstr name); [contradiction|simpl; lia]. }
  rewrite length_app. replace (length (unstr name) + length sc - length sc)
    with (length (unstr name)) by lia.
  rewrite firstn_app, Nat.sub_diag, firstn_all. simpl. rewrite app_nil_r.
  apply str_unstr.
Qed.

(** ** Joining ordinary names to the canonical prefixes *)

Lemma ordinaryName_nonEmpty (s : string) : ordinaryName s = true -> nonEmpty (unstr s) = true.
Proof. unfold ordinaryName, ordinarySeg, nonEmpty. intros H. now destruct (unstr s). Qed.

Lemma endsWithSeparator_ordinaryName (x : chars) (b : string) :
  ordinaryName b = true -> Win32.endsWithSeparator (x ++ unstr b) = false.
Proof.
  intros H. apply endsWithSeparator_app_sepfree.
  - now apply ordinarySeg_nonEmpty.
  - now apply ordinarySeg_sepfree.
Qed.

Lemma intercalate_snoc (s : chars) (cs : list chars) (b : chars) :
  exists x, Win32.intercalate s (cs ++ [b]) = x ++ b.
Proof.
  induction cs as [|a cs IH]; simpl.
  - now exists [].
  - destruct IH as [x Hx]. destruct (cs ++ [b]) eqn:E.
    + destruct cs; discriminate.
    + exists (a ++ s ++ x). rewrite Hx. now rewrite <- !app_assoc.
Qed.

Lemma endsWithSeparator_intercalate (cs : list chars) (b : string) :
  ordinaryName b = true ->
  Win32.endsWithSeparator (Win32.intercalate [cBackslash] (cs ++ [unstr b])) = false.
Proof.
  intros Hb. destruct (intercalate_snoc [cBackslash] cs (unstr b)) as [x ->].
  now apply endsWithSeparator_ordinaryName.
Qed.

Lemma join_reshade (b : string) :
  ordinaryName b = true ->
  Win32.join [Legacy.RESHADE_MOD_PATH; b] = ("bin\x64\" ++ b)%string.
Proof.
  intros Hb. pose proof (ordinaryName_nonEmpty b Hb) as Hne.
  change Legacy.RESHADE_MOD_PATH with "bin\x64".
  rewrite join_ordinary.
  - change (map unstr ["bin\x64"; b]) with ([unstr "bin\x64"] ++ [unstr b]).
    rewrite (endsWithSeparator_intercalate [unstr "bin\x64"] b Hb).
    rewrite flat_map_app. simpl flat_map. rewrite (segsOf_ordinary _ Hb).
    simpl. rewrite !app_nil_r. now rewrite str_unstr.
  - simpl. now rewrite Hne.
  - reflexivity.
  - simpl map. simpl flat_map. rewrite (segsOf_ordinary _ Hb).
    simpl. unfold ordinaryName in Hb. now rewrite Hb.
Qed.

Lemma join_ini (b : string) :
  ordinaryName b = true ->
  Win32.join [Legacy.INI_MOD_PATH; b] = ("engine\config\platform\pc\" ++ b)%string.
Proof.
  intros Hb. pose proof (ordinaryName_nonEmpty b Hb) as Hne.
  change Legacy.INI_MOD_PATH with "engine\config\platform\pc".
  rewrite join_ordinary.
  - change (map unstr ["engine\config\platform\pc"; b])
      with ([unstr "engine\config\platform\pc"] ++ [unstr b]).
    rewrite (endsWithSeparator_intercalate [unstr "engine\config\platform\pc"] b Hb).
    rewrite flat_map_app. simpl flat_map. rewrite (segsOf_ordinary _ Hb).
    simpl. rewrite !app_nil_r. now rewrite str_unstr.
  - simpl. now rewrite Hne.
  - reflexivity.
  - simpl map. simpl flat_map. rewrite (segsOf_ordinary _ Hb).
    simpl. unfold ordinaryName in Hb. now rewrite Hb.
Qed.

Lemma toDirInPath_reds (modName f : string) :
  ordinaryName modName = true -> ordinaryName (Win32.basename f) = true ->
  Legacy.toDirInPath Legacy.REDS_MOD_CANONICAL_PATH_PREFIX modName f
  = (f, ("r6\scripts\" ++ modName ++ "\" ++ Win32.basename f)%string).
Proof.
  intros Hm Hb. unfold Legacy.toDirInPath. f_equal.
  pose proof (ordinaryName_nonEmpty _ Hm) as Hmne.
  pose proof (ordinaryName_nonEmpty _ Hb) as Hbne.
  change Legacy.REDS_MOD_CANONICAL_PATH_PREFIX with "r6\scripts".
  rewrite join_ordinary.
  - change (map unstr ["r6\scripts"; modName; Win32.basename f])
      with ([unstr "r6\scripts"; unstr modName] ++ [unstr (Win32.basename f)]).
    rewrite (endsWithSeparator_intercalate _ _ Hb).
    rewrite flat_map_app. simpl flat_map.
    rewrite (segsOf_ordinary _ Hm), (segsOf_ordinary _ Hb).
    simpl. rewrite !app_nil_r.
    rewrite str_app, str_cons, !str_unstr. reflexivity.
  - simpl. now rewrite Hmne, Hbne.
  - reflexivity.
  - simpl map. simpl flat_map.
    rewrite (segsOf_ordinary _ Hm), (segsOf_ordinary _ Hb).
    simpl. unfold ordinaryName in Hm, Hb. now rewrite Hm, Hb.
Qed.

(** ** The INI installer *)

Lemma dropWhile_length {A : Type} (p : A -> bool) (l : list A) :
  length (dropWhile p l) <= length l.
Proof.
  induction l as [|x l IH]; simpl; [lia|]. destruct (p x); simpl; lia.
Qed.

Lemma text_eqb_eq (a b : JS.text) : JS.text_eqb a b = true <-> a = b.
Proof.
  revert b. induction a as [|x a IH]; intros [|y b]; simpl; split; intros H;
    try reflexivity; try discriminate.
  - apply andb_true_iff in H. destruct H as [Hx Hab].
    apply N.eqb_eq in Hx. apply IH in Hab. now subst.
  - injection H as -> ->. rewrite N.eqb_refl. now apply IH.
Qed.

Lemma text_eqb_refl (a : JS.text) : JS.text_eqb a a = true.
Proof. now apply text_eqb_eq. Qed.

Lemma replaceIniHeader_same_iff (data : JS.text) :
  JS.text_eqb (Legacy.replaceIniHeader data) data = negb (matchesIniHeader data).
Proof.
  unfold Legacy.replaceIniHeader, matchesIniHeader.
  destruct data as [|c1 [|c2 rest]]; try apply text_eqb_refl.
  change (JS.codeUnit "[") with 91%N. change (JS.codeUnit "#") with 35%N.
  destruct ((N.eqb c1 91 || N.eqb c1 35) && negb (JS.isLineTerminator c2));
    [|apply text_eqb_refl].
  simpl negb. apply not_true_is_false. intros H. apply text_eqb_eq in H.
  apply (f_equal (@length N)) in H. simpl in H.
  pose proof (dropWhile_length (fun c => negb (JS.isLineTerminator c)) rest). lia.
Qed.

Lemma find_filter {A : Type} (p : A -> bool) (l : list A) :
  find p (filter p l) = find p l.
Proof.
  induction l as [|x l IH]; simpl; [reflexivity|].
  destruct (p x) eqn:E; simpl; [now rewrite E|assumption].
Qed.

Lemma isIniFile_ordinary (f : string) :
  isIniFile f = true -> ordinaryName (Win32.basename f) = true.
Proof.
  unfold isIniFile. intros H. apply String.eqb_eq in H.
  apply extname_ordinary_basename. rewrite H. discriminate.
Qed.

(** C2, as stated, fails: a first INI file that starts with a section
    header is not treated as Reshade (its files go to the game's
    configuration directory and no shader is copied), and one that does
    not start with a header or a comment is. *)
Lemma C2_header_means_plain_ini :
  matchesIniHeader (JS.textOf "[Developer/FeatureToggles]") = true
  /\ Legacy.installIniMod (fun _ => Some (JS.textOf "[Developer/FeatureToggles]"))
       ["cfg\x.ini"; "my\reshade-shaders\s.fx"] "C:\staging\m.installing"
     = Resolved [Copy "cfg\x.ini" "engine\config\platform\pc\x.ini"]
  /\ matchesIniHeader (JS.textOf "Techniques=Clarity") = false
  /\ Legacy.installIniMod (fun _ => Some (JS.textOf "Techniques=Clarity"))
       ["cfg\x.ini"; "my\reshade-shaders\s.fx"] "C:\staging\m.installing"
     = Resolved [Copy "cfg\x.ini" "bin\x64\x.ini";
                 Copy "my\reshade-shaders\s.fx" "bin\x64\reshade-shaders\s.fx"].
Proof. repeat split; reflexivity. Qed.

(** The dot of the regular expression refuses the four line terminators
    of JavaScript: a bracket followed by LF, CR, U+2028 or U+2029 is no
    header, and a mod whose first INI file starts that way is treated as
    Reshade. *)
Lemma bracket_then_line_terminator_is_no_header (c : N) (rest : JS.text) :
  In c [10; 13; 8232; 8233]%N ->
  matchesIniHeader (91%N :: c :: rest) = false
  /\ Legacy.replaceIniHeader (91%N :: c :: rest) = 91%N :: c :: rest.
Proof.
  intros H. simpl in H.
  destruct H as [<- | [<- | [<- | [<- | []]]]]; split; reflexivity.
Qed.

(** C2, amended: when the first [.ini] file of the list can be read,
    [installIniMod] resolves.  If the content starts with a match of
    [^[\[#].+] (a bracket or a hash followed by a character that is not
    a line terminator), every [.ini] file goes to
    [engine\config\platform\pc\<basename>] and nothing else is copied;
    otherwise the mod is treated as Reshade: every [.ini] file goes to
    [bin\x64\<basename>], and every path that contains [reshade-shaders] and
    is not a folder is copied under [bin\x64]. *)
Theorem C2_ini_destinations
    (readFileSync : string -> option JS.text) (files : list string)
    (destinationPath first : string) (data : JS.text) :
  find isIniFile files = Some first ->
  readFileSync (Win32.join [destinationPath; first]) = Some data ->
  Legacy.installIniMod readFileSync files destinationPath
  = Resolved
      (if matchesIniHeader data
       then map (fun f => Copy f ("engine\config\platform\pc\" ++ Win32.basename f)%string)
                (filter isIniFile files)
       else map (fun f => Copy f ("bin\x64\" ++ Win32.basename f)%string)
                (filter isIniFile files)
            ++ map (fun f => Copy f (shaderDestination f)) (filter isShaderFile files)).
Proof.
  intros Hfind Hread. unfold Legacy.installIniMod, Legacy.testForReshadeFile.
  fold isIniFile. change (fun file : string => isIniFile file) with isIniFile.
  rewrite find_filter, Hfind, Hread, replaceIniHeader_same_iff.
  destruct (matchesIniHeader data); simpl negb; cbv iota; simpl app.
  - rewrite app_nil_r. f_equal. apply map_ext_in. intros f Hf.
    apply filter_In in Hf. destruct Hf as [_ Hf].
    now rewrite (join_ini _ (isIniFile_ordinary f Hf)).
  - f_equal. f_equal.
    + apply map_ext_in. intros f Hf.
      apply filter_In in Hf. destruct Hf as [_ Hf].
      now rewrite (join_reshade _ (isIniFile_ordinary f Hf)).
    + fold isShaderFile. change (fun file : string => isShaderFile file) with isShaderFile.
      destruct (filter isShaderFile files); reflexivity.
Qed.

Lemma C2_witness :
  Legacy.installIniMod (fun _ => Some (JS.textOf "Techniques=Clarity"))
    ["cfg\x.ini"; "my\reshade-shaders\s.fx"] "C:\staging\m.installing"
  = Resolved [Copy "cfg\x.ini" "bin\x64\x.ini";
              Copy "my\reshade-shaders\s.fx" "bin\x64\reshade-shaders\s.fx"].
Proof.
  exact (C2_ini_destinations (fun _ => Some (JS.textOf "Techniques=Clarity"))
           ["cfg\x.ini"; "my\reshade-shaders\s.fx"] "C:\staging\m.installing"
           "cfg\x.ini" (JS.textOf "Techniques=Clarity") eq_refl eq_refl).
Defined.

(** ** The Redscript installers *)

Lemma instructions_verbatim (l : list string) :
  Legacy.instructionsForSourceToDestPairs (map Legacy.toSamePath l)
  = map verbatim (regularFiles l).
Proof.
  rewrite instructionsForSourceToDestPairs_map.
  induction l as [|f l IH]; simpl; [reflexivity|].
  unfold notFolder at 1. simpl fst.
  destruct (negb (JS.endsWith f Win32.sep)); simpl; now rewrite IH.
Qed.

Lemma instructions_relocated (modName : string) (l : list string) :
  ordinaryName modName = true ->
  (forall f, In f l -> ordinaryName (Win32.basename f) = true) ->
  Legacy.instructionsForSourceToDestPairs
    (map (Legacy.toDirInPath Legacy.REDS_MOD_CANONICAL_PATH_PREFIX modName) l)
  = map (relocated modName) (regularFiles l).
Proof.
  intros Hm Hl. rewrite instructionsForSourceToDestPairs_map.
  induction l as [|f l IH]; simpl; [reflexivity|].
  rewrite (toDirInPath_reds modName f Hm (Hl f (or_introl eq_refl))).
  unfold notFolder at 1. simpl fst.
  destruct (negb (JS.endsWith f Win32.sep)); simpl;
    rewrite IH; try reflexivity; intros g Hg; apply Hl; now right.
Qed.

Lemma matchRedscript_ordinary (f : string) :
  Legacy.matchRedscript f = true -> ordinaryName (Win32.basename f) = true.
Proof.
  unfold Legacy.matchRedscript. intros H. apply String.eqb_eq in H.
  apply extname_ordinary_basename. rewrite H. discriminate.
Qed.

Lemma filter_matchRedscript_ordinary (l : list string) (f : string) :
  In f (filter Legacy.matchRedscript l) -> ordinaryName (Win32.basename f) = true.
Proof. intros H. apply filter_In in H. now apply matchRedscript_ordinary. Qed.

Lemma legacy_install_one_layout `{KT : KeyTreeLib} (files : list string)
    (destinationPath : string) :
  length (Legacy.installable files) = 1 ->
  ordinaryName (Legacy.makeModName destinationPath) = true ->
  Legacy.installRedscriptMod files destinationPath
  = ([], Resolved
           (map verbatim (regularFiles (Legacy.canonRedsModFiles files))
            ++ map (relocated (Legacy.makeModName destinationPath))
                   (regularFiles (Legacy.redsDirReds files))
            ++ map (relocated (Legacy.makeModName destinationPath))
                   (regularFiles (Legacy.topLevelReds files))
            ++ map verbatim (regularFiles (Legacy.allCanonicalArchiveOnlyFiles files)))).
Proof.
  intros Hone Hm. unfold Legacy.installRedscriptMod. rewrite Hone.
  simpl Nat.eqb. simpl Nat.ltb. cbv iota. cbv zeta. simpl flat_map.
  rewrite !instructions_verbatim.
  rewrite !(instructions_relocated _ _ Hm).
  - now rewrite app_nil_r.
  - apply filter_matchRedscript_ordinary.
  - apply filter_matchRedscript_ordinary.
Qed.

Lemma legacy_install_cases `{KT : KeyTreeLib} (files : list string)
    (destinationPath : string) :
  (length (Legacy.installable files) = 0 ->
   Legacy.installRedscriptMod files destinationPath
   = ([], Rejected Legacy.noRedscriptMessage))
  /\ (1 < length (Legacy.installable files) ->
      Legacy.installRedscriptMod files destinationPath
      = ([ShowDialog "error" Legacy.conflictingRedscriptMessage],
         Rejected Legacy.conflictingRedscriptMessage))
  /\ (length (Legacy.installable files) = 1 ->
      exists instructions,
        Legacy.installRedscriptMod files destinationPath = ([], Resolved instructions)).
Proof.
  unfold Legacy.installRedscriptMod. repeat split.
  - intros ->. reflexivity.
  - intros H. destruct (length (Legacy.installable files)) as [|[|n]]; [lia|lia|reflexivity].
  - intros ->. simpl. eexists. reflexivity.
Qed.

Lemma legacy_installable_count `{KT : KeyTreeLib} (files : list string) :
  length (Legacy.installable files)
  = countTrue [ negb (lengthIsZero (Legacy.canonRedsModFiles files));
                negb (lengthIsZero (Legacy.redsDirReds files));
                negb (lengthIsZero (Legacy.topLevelReds files)) ].
Proof.
  unfold Legacy.installable, countTrue. simpl.
  destruct (lengthIsZero (Legacy.canonRedsModFiles files));
    destruct (lengthIsZero (Legacy.redsDirReds files));
    destruct (lengthIsZero (Legacy.topLevelReds files)); reflexivity.
Qed.

Section RedscriptInstallerFacts.

Variable prompt : InstallerType -> FileTree.FileTree -> Ui (Promise VortexInstallResult).
Variable extra : FileTree.FileTree -> Ui (list VortexInstruction).

Lemma redscript_installable_count (tree : FileTree.FileTree) :
  length (RedscriptInstaller.installable tree)
  = countTrue [ RedscriptInstaller.hasToplevelReds tree;
                RedscriptInstaller.hasBasedirReds tree;
                RedscriptInstaller.hasCanonReds tree ].
Proof. reflexivity. Qed.

Lemma redscript_install_not_one (files : list string) (tree : FileTree.FileTree)
    (destinationPath : string) :
  length (RedscriptInstaller.installable tree) <> 1 ->
  RedscriptInstaller.installRedscriptMod prompt extra files tree destinationPath
  = prompt Redscript tree.
Proof.
  intros H. unfold RedscriptInstaller.installRedscriptMod.
  apply Nat.eqb_neq in H. now rewrite H.
Qed.

Lemma redscript_install_one (files : list string) (tree : FileTree.FileTree)
    (destinationPath : string) :
  length (RedscriptInstaller.installable tree) = 1 ->
  ordinaryName (RedscriptInstaller.makeSyntheticName destinationPath) = true ->
  (forall f, In f tree -> ordinaryName (Win32.basename f) = true) ->
  RedscriptInstaller.installRedscriptMod prompt extra files tree destinationPath
  = (fst (extra tree),
     Resolved
       ((map verbatim (regularFiles (RedscriptInstaller.canonReds tree))
         ++ map (relocated (RedscriptInstaller.makeSyntheticName destinationPath))
                (regularFiles (RedscriptInstaller.basedirReds tree))
         ++ map (relocated (RedscriptInstaller.makeSyntheticName destinationPath))
                (regularFiles (RedscriptInstaller.toplevelReds tree)))
        ++ snd (extra tree))).
Proof.
  intros Hone Hm Hb. unfold RedscriptInstaller.installRedscriptMod. rewrite Hone.
  simpl Nat.eqb. simpl negb. cbv iota. cbv zeta. simpl flat_map.
  unfold RedscriptInstaller.instructionsForSourceToDestPairs,
    RedscriptInstaller.toSamePath, RedscriptInstaller.toDirInPath,
    RedscriptInstaller.REDS_MOD_CANONICAL_PATH_PREFIX.
  rewrite !instructions_verbatim.
  rewrite !(instructions_relocated _ _ Hm).
  - now rewrite app_nil_r.
  - intros f Hf. apply Hb. unfold RedscriptInstaller.toplevelReds in Hf.
    destruct (RedscriptInstaller.hasToplevelReds tree); [|destruct Hf].
    apply filter_In in Hf. tauto.
  - intros f Hf. apply Hb. unfold RedscriptInstaller.basedirReds in Hf.
    destruct (RedscriptInstaller.hasBasedirReds tree); [|destruct Hf].
    apply filter_In in Hf. tauto.
Qed.

End RedscriptInstallerFacts.

(** C3, as stated, fails: with no layout present the installer of
    [installers.ts] rejects without showing a dialog or a prompt (the
    detector accepts the files, so the installer is reached). *)
Lemma C3_no_layout_rejected_without_dialog :
  Legacy.testForRedscriptMod ["a\x.reds"] "cyberpunk2077" = Resolved (mkTestResult true [])
  /\ length (Legacy.installable (KT := FlatKeyTree.lib) ["a\x.reds"]) = 0
  /\ Legacy.installRedscriptMod (KT := FlatKeyTree.lib) ["a\x.reds"] "C:\staging\m.installing"
     = ([], Rejected Legacy.noRedscriptMessage).
Proof. repeat split; reflexivity. Qed.

(** C3, amended: both Redscript installers detect the three layouts each
    on its own and count those present, and resolve with instructions
    only when the count is one.  Otherwise no copy instruction of the
    installer is emitted: the installer of [installers.ts] rejects, with an
    error dialog when more than one layout is present and without a
    dialog when none is; the installer of [installer.redscript.ts] returns
    what the prompt to fall back or fail returns. *)
Theorem C3_redscript_exactly_one_layout `{KT : KeyTreeLib}
    (prompt : InstallerType -> FileTree.FileTree -> Ui (Promise VortexInstallResult))
    (extra : FileTree.FileTree -> Ui (list VortexInstruction))
    (files : list string) (tree : FileTree.FileTree) (destinationPath : string) :
  (length (Legacy.installable files)
   = countTrue [ negb (lengthIsZero (Legacy.canonRedsModFiles files));
                 negb (lengthIsZero (Legacy.redsDirReds files));
                 negb (lengthIsZero (Legacy.topLevelReds files)) ]
   /\ ((exists ui instructions,
          Legacy.installRedscriptMod files destinationPath = (ui, Resolved instructions))
       <-> length (Legacy.installable files) = 1)
   /\ (length (Legacy.installable files) = 0 ->
       Legacy.installRedscriptMod files destinationPath
       = ([], Rejected Legacy.noRedscriptMessage))
   /\ (1 < length (Legacy.installable files) ->
       Legacy.installRedscriptMod files destinationPath
       = ([ShowDialog "error" Legacy.conflictingRedscriptMessage],
          Rejected Legacy.conflictingRedscriptMessage)))
  /\ (length (RedscriptInstaller.installable tree)
      = countTrue [ RedscriptInstaller.hasToplevelReds tree;
                    RedscriptInstaller.hasBasedirReds tree;
                    RedscriptInstaller.hasCanonReds tree ]
      /\ (length (RedscriptInstaller.installable tree) = 1 ->
          exists instructions,
            RedscriptInstaller.installRedscriptMod prompt extra files tree destinationPath
            = (fst (extra tree), Resolved instructions))
      /\ (length (RedscriptInstaller.installable tree) <> 1 ->
          RedscriptInstaller.installRedscriptMod prompt extra files tree destinationPath
          = prompt Redscript tree)).
Proof.
  destruct (legacy_install_cases files destinationPath) as [H0 [Hmany H1]].
  split; [split; [|split; [|split]]|split; [|split]].
  - apply legacy_installable_count.
  - split.
    + intros [ui [instructions E]].
      destruct (length (Legacy.installable files)) as [|[|n]] eqn:El.
      * rewrite (H0 eq_refl) in E. discriminate.
      * reflexivity.
      * rewrite Hmany in E by lia. discriminate.
    + intros E. destruct (H1 E) as [instructions Hi]. now exists [], instructions.
  - exact H0.
  - exact Hmany.
  - reflexivity.
  - intros Hone. unfold RedscriptInstaller.installRedscriptMod. rewrite Hone.
    simpl. eexists. reflexivity.
  - apply redscript_install_not_one.
Qed.

Lemma endsWith_sep_false (s : string) :
  Win32.endsWithSeparator (unstr s) = false -> JS.endsWith s Win32.sep = false.
Proof.
  unfold Win32.endsWithSeparator, JS.endsWith, isSuffixOf.
  destruct (rev (unstr s)) as [|c r]; [reflexivity|].
  unfold Win32.isPathSeparator. intros H. apply orb_false_iff in H.
  destruct H as [_ H]. change (Ascii.eqb c cBackslash = false) in H.
  change (Ascii.eqb cBackslash c && true = false).
  rewrite Ascii.eqb_sym. now rewrite H.
Qed.

Lemma lengthIsZero_filter_iff {A : Type} (p : A -> bool) (l : list A) :
  lengthIsZero (filter p l) = false <-> exists x, In x l /\ p x = true.
Proof.
  split.
  - destruct (filter p l) as [|x r] eqn:E; [discriminate|]. intros _.
    assert (H : In x (filter p l)) by (rewrite E; now left).
    apply filter_In in H. now exists x.
  - intros [x [Hin Hp]]. destruct (filter p l) as [|y r] eqn:E; [|reflexivity].
    assert (H : In x (filter p l)) by (apply filter_In; auto).
    rewrite E in H. destruct H.
Qed.

Lemma filesUnder_root (tree : FileTree.FileTree) :
  FileTree.filesUnder FileTree.FILETREE_ROOT FileTree.GlobAny tree
  = filter (fun p => negb (FileTree.isDirMarker p)) tree.
Proof.
  unfold FileTree.filesUnder. apply filter_ext. intros p.
  change (FileTree.segments FileTree.FILETREE_ROOT) with (@nil chars).
  simpl. now rewrite !andb_true_r.
Qed.

(** The key tree used on examples. *)

Lemma splitBackslash_not_nil (p : chars) : splitBackslash p <> [].
Proof.
  destruct p as [|c r]; simpl; [discriminate|].
  destruct (Ascii.eqb c cBackslash); [discriminate|].
  destruct (splitBackslash r); discriminate.
Qed.

Lemma intercalate_splitBackslash (p : chars) :
  Win32.intercalate [cBackslash] (splitBackslash p) = p.
Proof.
  induction p as [|c r IH]; [reflexivity|]. simpl splitBackslash.
  destruct (Ascii.eqb c cBackslash) eqn:E.
  - apply Ascii.eqb_eq in E. subst c.
    destruct (splitBackslash r) as [|seg segs] eqn:Es;
      [now elim (splitBackslash_not_nil r)|].
    change (Win32.intercalate [cBackslash] ([] :: seg :: segs))
      with ([] ++ [cBackslash] ++ Win32.intercalate [cBackslash] (seg :: segs)).
    now rewrite IH.
  - destruct (splitBackslash r) as [|seg segs] eqn:Es;
      [now elim (splitBackslash_not_nil r)|].
    rewrite <- IH. now destruct segs.
Qed.

Lemma keyOf_inj (a b : string) : FlatKeyTree.keyOf a = FlatKeyTree.keyOf b -> a = b.
Proof.
  unfold FlatKeyTree.keyOf. intros H.
  rewrite <- (str_unstr a), <- (str_unstr b). f_equal.
  rewrite <- (intercalate_splitBackslash (unstr a)).
  rewrite <- (intercalate_splitBackslash (unstr b)). now rewrite H.
Qed.

Lemma segsEqb_eq (a b : list chars) : FileTree.segsEqb a b = true <-> a = b.
Proof.
  revert b. induction a as [|x a IH]; intros [|y b]; simpl; split; intros H;
    try reflexivity; try discriminate.
  - apply andb_true_iff in H. destruct H as [Hx Hab].
    apply chars_eqb_eq in Hx. apply IH in Hab. now subst.
  - injection H as -> ->. rewrite chars_eqb_refl. now apply IH.
Qed.

Lemma flat_treeOf_from (key : string -> string) (files : list string)
    (t : FlatKeyTree.Tree) :
  fold_left (fun fileTree file => ktAdd (KeyTreeLib := FlatKeyTree.lib) fileTree (key file) file)
            files t
  = t ++ map (fun f => (FlatKeyTree.keyOf (key f), f)) files.
Proof.
  revert t. induction files as [|f files IH]; intros t; simpl.
  - now rewrite app_nil_r.
  - rewrite IH. now rewrite <- app_assoc.
Qed.

(** [get] returns the values added under the key, in the order in which
    they were added. *)
Lemma flat_get_treeOf (key : string -> string) (files : list string) (k : string) :
  ktGet (KeyTreeLib := FlatKeyTree.lib) (Legacy.treeOf key files) k
  = filter (fun f => String.eqb (key f) k) files.
Proof.
  unfold Legacy.treeOf. rewrite flat_treeOf_from. simpl app.
  simpl ktGet. unfold FlatKeyTree.get, FlatKeyTree.valuesAt.
  induction files as [|f files IH]; [reflexivity|]. simpl.
  assert (E : FileTree.segsEqb (FlatKeyTree.keyOf k) (FlatKeyTree.keyOf (key f))
              = String.eqb (key f) k).
  { destruct (String.eqb (key f) k) eqn:Ek.
    - apply String.eqb_eq in Ek. subst k. now apply segsEqb_eq.
    - apply not_true_is_false. intros H. apply segsEqb_eq, keyOf_inj in H.
      apply String.eqb_neq in Ek. now elim Ek. }
  rewrite E. destruct (String.eqb (key f) k); simpl; now rewrite IH.
Qed.

(** Which files are relocated. *)

Lemma legacy_resolved_one `{KT : KeyTreeLib} (files : list string)
    (destinationPath : string) (ui : list UiEvent)
    (instructions : list VortexInstruction) :
  Legacy.installRedscriptMod files destinationPath = (ui, Resolved instructions) ->
  length (Legacy.installable files) = 1.
Proof.
  intros H. destruct (legacy_install_cases files destinationPath) as [H0 [Hmany _]].
  destruct (length (Legacy.installable files)) as [|[|k]] eqn:E.
  - rewrite (H0 eq_refl) in H. discriminate.
  - reflexivity.
  - rewrite Hmany in H by lia. discriminate.
Qed.

Lemma legacy_relocates `{KT : KeyTreeLib} (files : list string)
    (destinationPath modName : string) :
  ordinaryName modName = true ->
  Legacy.makeModName destinationPath = modName ->
  (forall k, k = "." \/ k = "r6\scripts" ->
             ktGet (Legacy.treeOf Win32.dirname files) k
             = filter (fun f => String.eqb (Win32.dirname f) k) files) ->
  forall ui instructions f,
    Legacy.installRedscriptMod files destinationPath = (ui, Resolved instructions) ->
    In f files -> JS.endsWith f Win32.sep = false -> Win32.extname f = ".reds" ->
    Win32.dirname f = "." \/ Win32.dirname f = "r6\scripts" ->
    In (Copy f ("r6\scripts\" ++ modName ++ "\" ++ Win32.basename f)%string) instructions.
Proof.
  intros Hm Hname Hget ui instructions f Hres Hf Hreg Hext Hdir.
  pose proof (legacy_resolved_one _ _ _ _ Hres) as Hone.
  assert (Hm' : ordinaryName (Legacy.makeModName destinationPath) = true)
    by now rewrite Hname.
  rewrite (legacy_install_one_layout files destinationPath Hone Hm') in Hres.
  injection Hres as _ <-. rewrite Hname.
  assert (Hred : Legacy.matchRedscript f = true).
  { unfold Legacy.matchRedscript. rewrite Hext. reflexivity. }
  assert (Hin : In f (regularFiles (Legacy.redsDirReds files))
                \/ In f (regularFiles (Legacy.topLevelReds files))).
  { unfold regularFiles, Legacy.redsDirReds, Legacy.topLevelReds.
    change Legacy.REDS_MOD_CANONICAL_PATH_PREFIX with "r6\scripts".
    rewrite (Hget "." (or_introl eq_refl)), (Hget "r6\scripts" (or_intror eq_refl)).
    rewrite !filter_In. rewrite Hreg, Hred.
    destruct Hdir as [E|E]; rewrite E; [right|left]; intuition. }
  apply in_or_app. right. rewrite app_assoc. apply in_or_app. left.
  apply in_or_app.
  destruct Hin as [Hin|Hin]; [left|right];
    apply in_map_iff; exists f; (split; [reflexivity|exact Hin]).
Qed.

Section RedscriptRelocation.

Variable prompt : InstallerType -> FileTree.FileTree -> Ui (Promise VortexInstallResult).
Variable extra : FileTree.FileTree -> Ui (list VortexInstruction).

Lemma In_relocated_pairs (modName f : string) (l : list string) :
  ordinaryName modName = true ->
  In f l -> FileTree.isDirMarker f = false ->
  ordinaryName (Win32.basename f) = true ->
  In (Copy f ("r6\scripts\" ++ modName ++ "\" ++ Win32.basename f)%string)
     (Legacy.instructionsForSourceToDestPairs
        (map (Legacy.toDirInPath Legacy.REDS_MOD_CANONICAL_PATH_PREFIX modName) l)).
Proof.
  intros Hm Hf Hmark Hb. apply In_instructionsForSourceToDestPairs.
  exists (f, ("r6\scripts\" ++ modName ++ "\" ++ Win32.basename f)%string).
  split; [|split; [|reflexivity]].
  - apply in_map_iff. exists f. split; [now apply toDirInPath_reds|exact Hf].
  - unfold notFolder. simpl fst. now rewrite (endsWith_sep_false f Hmark).
Qed.

Lemma dirWithSomeIn_intro (dir g : string) (matching : string -> bool)
    (tree : FileTree.FileTree) :
  In g tree -> FileTree.isDirMarker g = false ->
  FileTree.dirSegments g = FileTree.segments dir -> matching g = true ->
  FileTree.dirWithSomeIn dir matching tree = true.
Proof.
  intros Hg Hmark Hdir Hmatch. unfold FileTree.dirWithSomeIn.
  apply negb_true_iff. apply lengthIsZero_filter_iff. exists g. split; [exact Hg|].
  rewrite Hmark, Hdir, Hmatch.
  assert (E : FileTree.segsEqb (FileTree.segments dir) (FileTree.segments dir) = true)
    by now apply segsEqb_eq.
  now rewrite E.
Qed.

Lemma redscript_relocates (files : list string) (tree : FileTree.FileTree)
    (destinationPath modName : string) :
  ordinaryName modName = true ->
  RedscriptInstaller.makeSyntheticName destinationPath = modName ->
  length (RedscriptInstaller.installable tree) = 1 ->
  exists instructions,
    RedscriptInstaller.installRedscriptMod prompt extra files tree destinationPath
    = (fst (extra tree), Resolved instructions)
    /\ (forall g f,
          In g tree -> FileTree.isDirMarker g = false ->
          FileTree.dirSegments g = [] -> Win32.extname g = ".reds" ->
          In f tree -> FileTree.isDirMarker f = false ->
          ordinaryName (Win32.basename f) = true ->
          In (Copy f ("r6\scripts\" ++ modName ++ "\" ++ Win32.basename f)%string)
             instructions)
    /\ (forall g f,
          In g tree -> FileTree.isDirMarker g = false ->
          FileTree.dirSegments g = [unstr "r6"; unstr "scripts"] ->
          Win32.extname g = ".reds" ->
          In f tree -> FileTree.isDirMarker f = false ->
          FileTree.segsPrefix [unstr "r6"; unstr "scripts"] (FileTree.dirSegments f) = true ->
          ordinaryName (Win32.basename f) = true ->
          In (Copy f ("r6\scripts\" ++ modName ++ "\" ++ Win32.basename f)%string)
             instructions).
Proof.
  intros Hm Hname Hone. unfold RedscriptInstaller.installRedscriptMod.
  rewrite Hone. simpl Nat.eqb. simpl negb. cbv iota. cbv zeta. rewrite Hname.
  eexists. split; [reflexivity|].
  unfold RedscriptInstaller.instructionsForSourceToDestPairs,
    RedscriptInstaller.toSamePath, RedscriptInstaller.toDirInPath,
    RedscriptInstaller.REDS_MOD_CANONICAL_PATH_PREFIX.
  simpl flat_map. split.
  - intros g f Hg Hgm Hgd Hge Hf Hfm Hb.
    apply in_or_app. left. apply in_or_app. right. apply in_or_app. right.
    apply in_or_app. left.
    apply In_relocated_pairs; try assumption.
    unfold RedscriptInstaller.toplevelReds.
    assert (Htop : RedscriptInstaller.hasToplevelReds tree = true).
    { apply (dirWithSomeIn_intro _ g); try assumption.
      unfold RedscriptInstaller.matchRedscript. rewrite Hge. reflexivity. }
    rewrite Htop, filesUnder_root. apply filter_In. split; [exact Hf|now rewrite Hfm].
  - intros g f Hg Hgm Hgd Hge Hf Hfm Hfd Hb.
    apply in_or_app. left. apply in_or_app. right. apply in_or_app. left.
    apply In_relocated_pairs; try assumption.
    unfold RedscriptInstaller.basedirReds.
    assert (Hbase : RedscriptInstaller.hasBasedirReds tree = true).
    { apply (dirWithSomeIn_intro _ g); try assumption.
      unfold RedscriptInstaller.matchRedscript. rewrite Hge. reflexivity. }
    rewrite Hbase. unfold FileTree.filesUnder. apply filter_In. split; [exact Hf|].
    rewrite Hfm.
    change (FileTree.segments RedscriptInstaller.REDS_MOD_CANONICAL_PATH_PREFIX)
      with [unstr "r6"; unstr "scripts"].
    now rewrite Hfd.
Qed.

End RedscriptRelocation.

(** C9: both Redscript installers synthesize the mod name [<name>] as
    the base name of the destination path without the suffix
    [.installing]: for a staging directory [parent\<name>.installing] it
    is [<name>].  When this name is an ordinary directory name and the
    installers resolve, the files of the Basedir and Toplevel layouts are
    copied to [r6\scripts\<name>\<base name>], while the files of the
    Canon layout and the archives are copied verbatim.  Which files these
    are: for the installer of
    [installers.ts], over a key tree whose [get] returns, for the keys [.]
    and [r6\scripts], the values added under the key, every [.reds] file
    of the list whose directory is [.] or [r6\scripts]; for the installer
    of [installer.redscript.ts], every file of the tree when a [.reds]
    file lies at the top level, and every file under [r6\scripts] when a
    [.reds] file lies directly in it. *)
Theorem C9_relocated_under_synthesized_mod_name `{KT : KeyTreeLib}
    (prompt : InstallerType -> FileTree.FileTree -> Ui (Promise VortexInstallResult))
    (extra : FileTree.FileTree -> Ui (list VortexInstruction))
    (files : list string) (tree : FileTree.FileTree)
    (destinationPath modName : string) :
  modName = Win32.basenameExt destinationPath ".installing" ->
  ordinaryName modName = true ->
  Legacy.makeModName destinationPath = modName
  /\ RedscriptInstaller.makeSyntheticName destinationPath = modName
  /\ (forall parent name,
        ordinaryName name = true ->
        destinationPath = (parent ++ "\" ++ name ++ ".installing")%string ->
        modName = name)
  /\ (length (Legacy.installable files) = 1 ->
      Legacy.installRedscriptMod files destinationPath
      = ([], Resolved
               (map verbatim (regularFiles (Legacy.canonRedsModFiles files))
                ++ map (relocated modName) (regularFiles (Legacy.redsDirReds files))
                ++ map (relocated modName) (regularFiles (Legacy.topLevelReds files))
                ++ map verbatim
                       (regularFiles (Legacy.allCanonicalArchiveOnlyFiles files)))))
  /\ ((forall k, k = "." \/ k = "r6\scripts" ->
                 ktGet (Legacy.treeOf Win32.dirname files) k
                 = filter (fun f => String.eqb (Win32.dirname f) k) files) ->
      forall ui instructions f,
        Legacy.installRedscriptMod files destinationPath = (ui, Resolved instructions) ->
        In f files -> JS.endsWith f Win32.sep = false -> Win32.extname f = ".reds" ->
        Win32.dirname f = "." \/ Win32.dirname f = "r6\scripts" ->
        In (Copy f ("r6\scripts\" ++ modName ++ "\" ++ Win32.basename f)%string)
           instructions)
  /\ (length (RedscriptInstaller.installable tree) = 1 ->
      (forall f, In f tree -> ordinaryName (Win32.basename f) = true) ->
      RedscriptInstaller.installRedscriptMod prompt extra files tree destinationPath
      = (fst (extra tree),
         Resolved
           ((map verbatim (regularFiles (RedscriptInstaller.canonReds tree))
             ++ map (relocated modName) (regularFiles (RedscriptInstaller.basedirReds tree))
             ++ map (relocated modName) (regularFiles (RedscriptInstaller.toplevelReds tree)))
            ++ snd (extra tree))))
  /\ (length (RedscriptInstaller.installable tree) = 1 ->
      exists instructions,
        RedscriptInstaller.installRedscriptMod prompt extra files tree destinationPath
        = (fst (extra tree), Resolved instructions)
        /\ (forall g f,
              In g tree -> FileTree.isDirMarker g = false ->
              FileTree.dirSegments g = [] -> Win32.extname g = ".reds" ->
              In f tree -> FileTree.isDirMarker f = false ->
              ordinaryName (Win32.basename f) = true ->
              In (Copy f ("r6\scripts\" ++ modName ++ "\" ++ Win32.basename f)%string)
                 instructions)
        /\ (forall g f,
              In g tree -> FileTree.isDirMarker g = false ->
              FileTree.dirSegments g = [unstr "r6"; unstr "scripts"] ->
              Win32.extname g = ".reds" ->
              In f tree -> FileTree.isDirMarker f = false ->
              FileTree.segsPrefix [unstr "r6"; unstr "scripts"] (FileTree.dirSegments f)
              = true ->
              ordinaryName (Win32.basename f) = true ->
              In (Copy f ("r6\scripts\" ++ modName ++ "\" ++ Win32.basename f)%string)
                 instructions)).
Proof.
  intros Hname Hm.
  assert (Hlegacy : Legacy.makeModName destinationPath = modName)
    by (now rewrite Hname).
  assert (Hnew : RedscriptInstaller.makeSyntheticName destinationPath = modName)
    by (now rewrite Hname).
  split; [exact Hlegacy|]. split; [exact Hnew|].
  split; [|split; [|split; [|split]]].
  - intros parent name Hn ->. rewrite <- Hlegacy. apply makeModName_installing.
    + now apply ordinarySeg_nonEmpty.
    + now apply ordinarySeg_sepfree.
  - intros Hone. rewrite <- Hlegacy.
    apply legacy_install_one_layout; [assumption|]. now rewrite Hlegacy.
  - now apply legacy_relocates.
  - intros Hone Hb. rewrite <- Hnew.
    apply redscript_install_one; try assumption. now rewrite Hnew.
  - intros Hone. now apply redscript_relocates.
Qed.

Lemma C9_witness :
  Legacy.installRedscriptMod (KT := FlatKeyTree.lib)
    ["r6\scripts\Foo.reds"; "archive\pc\mod\Foo.archive"] "C:\staging\MyMod.installing"
  = ([], Resolved [Copy "r6\scripts\Foo.reds" "r6\scripts\MyMod\Foo.reds"])
  /\ Legacy.installRedscriptMod (KT := FlatKeyTree.lib)
       ["Foo.reds"; "readme.txt"] "C:\staging\MyMod.installing"
     = ([], Resolved [Copy "Foo.reds" "r6\scripts\MyMod\Foo.reds"])
  /\ In (Copy "Foo.reds" "r6\scripts\MyMod\Foo.reds")
        [Copy "Foo.reds" "r6\scripts\MyMod\Foo.reds"]
  /\ RedscriptInstaller.installRedscriptMod
       (fun _ _ => ([], Rejected "cancelled")) (fun _ => ([], []))
       ["r6\scripts\Foo.reds"; "r6\scripts\notes.txt"]
       (FileTree.fileTreeFromPaths ["r6\scripts\Foo.reds"; "r6\scripts\notes.txt"])
       "C:\staging\MyMod.installing"
     = ([], Resolved [Copy "r6\scripts\Foo.reds" "r6\scripts\MyMod\Foo.reds";
                      Copy "r6\scripts\notes.txt" "r6\scripts\MyMod\notes.txt"])
  /\ RedscriptInstaller.installRedscriptMod
       (fun _ _ => ([], Rejected "cancelled")) (fun _ => ([], []))
       ["Foo.reds"; "readme.txt"]
       (FileTree.fileTreeFromPaths ["Foo.reds"; "readme.txt"])
       "C:\staging\MyMod.installing"
     = ([], Resolved [Copy "Foo.reds" "r6\scripts\MyMod\Foo.reds";
                      Copy "readme.txt" "r6\scripts\MyMod\readme.txt"]).
Proof.
  pose proof (C9_relocated_under_synthesized_mod_name (KT := FlatKeyTree.lib)
                (fun _ _ => ([], Rejected "cancelled")) (fun _ => ([], []))
                ["r6\scripts\Foo.reds"; "archive\pc\mod\Foo.archive"]
                (FileTree.fileTreeFromPaths ["r6\scripts\Foo.reds"; "r6\scripts\notes.txt"])
                "C:\staging\MyMod.installing" "MyMod"
                eq_refl eq_refl) as [_ [_ [_ [Hbase [_ [Hnew _]]]]]].
  pose proof (C9_relocated_under_synthesized_mod_name (KT := FlatKeyTree.lib)
                (fun _ _ => ([], Rejected "cancelled")) (fun _ => ([], []))
                ["Foo.reds"; "readme.txt"]
                (FileTree.fileTreeFromPaths ["Foo.reds"; "readme.txt"])
                "C:\staging\MyMod.installing" "MyMod"
                eq_refl eq_refl) as [_ [_ [_ [Htop [Hlaw [Hnewtop _]]]]]].
  split; [exact (Hbase eq_refl)|]. split; [exact (Htop eq_refl)|]. split; [|split].
  - apply (Hlaw (fun k _ => flat_get_treeOf Win32.dirname ["Foo.reds"; "readme.txt"] k)
                [] _ "Foo.reds" (Htop eq_refl)).
    + now left.
    + reflexivity.
    + reflexivity.
    + now left.
  - apply (Hnew eq_refl). intros f [<-|[<-|[]]]; reflexivity.
  - apply (Hnewtop eq_refl). intros f [<-|[<-|[]]]; reflexivity.
Defined.

(** ** The archive-only installer *)

Lemma ltb_0_length {A : Type} (l : list A) : (0 <? length l)%nat = negb (lengthIsZero l).
Proof. now destruct l. Qed.

Lemma archive_layout_kinds (tree : FileTree.FileTree) :
  Legacy.kind (Legacy.archiveCanonInstructions tree) = Legacy.Canon
  /\ Legacy.kind (Legacy.archiveOldToNewCanonInstructions tree) = Legacy.Heritage
  /\ Legacy.kind (Legacy.archiveOtherDirsToCanonInstructions tree) = Legacy.Other.
Proof.
  unfold Legacy.archiveCanonInstructions, Legacy.archiveOldToNewCanonInstructions.
  repeat split.
  - now destruct (negb _).
  - now destruct (negb _).
Qed.

Lemma chosenArchiveInstructions_first (files : list string) :
  chosenArchiveInstructions files
  = if negb (noInstruction (Legacy.archiveCanonInstructions (archiveTree files)))
    then Legacy.archiveCanonInstructions (archiveTree files)
    else if negb (noInstruction
                    (Legacy.archiveOldToNewCanonInstructions (archiveTree files)))
         then Legacy.archiveOldToNewCanonInstructions (archiveTree files)
         else Legacy.archiveOtherDirsToCanonInstructions (archiveTree files).
Proof.
  unfold chosenArchiveInstructions, Legacy.useFirstMatchingLayoutForInstructions,
    Legacy.possibleLayoutsToTryInOrder, noInstruction.
  simpl fold_left.
  generalize (Legacy.archiveCanonInstructions (archiveTree files)) as a.
  generalize (Legacy.archiveOldToNewCanonInstructions (archiveTree files)) as b.
  generalize (Legacy.archiveOtherDirsToCanonInstructions (archiveTree files)) as c.
  intros c b a. destruct a as [ka [|x la]], b as [kb [|y lb]]; reflexivity.
Qed.

(** C4, as stated, fails: when no layout produces an instruction (here an
    archive with an upper-case extension, which the detector accepts and
    no layout matches) the chosen instructions cover fewer files than the
    archive has, and the install rejects without any dialog. *)
Lemma C4_no_instruction_rejected_without_dialog :
  Legacy.testForArchiveOnlyMod ["X.ARCHIVE"] "cyberpunk2077"
  = Resolved (mkTestResult true [])
  /\ length (Legacy.instructions (chosenArchiveInstructions ["X.ARCHIVE"]))
     < archiveFileCount ["X.ARCHIVE"]
  /\ Legacy.installArchiveOnlyMod ["X.ARCHIVE"] "C:\staging\m.installing"
     = ([], Rejected Legacy.noInstructionsMessage).
Proof. split; [reflexivity|]. split; [apply Nat.lt_0_1|reflexivity]. Qed.

(** C4, amended: the layouts are tried in the order Canon, Heritage, Other
    and the first that produces an instruction is chosen.  When none
    does, the install rejects without a dialog; when the number of chosen
    instructions differs from the number of files of the archive, the
    install rejects and the structure-error dialog is shown; otherwise the
    chosen instructions are returned. *)
Theorem C4_archive_first_layout_or_reject (files : list string) (destinationPath : string) :
  chosenArchiveInstructions files
  = (if negb (noInstruction (Legacy.archiveCanonInstructions (archiveTree files)))
     then Legacy.archiveCanonInstructions (archiveTree files)
     else if negb (noInstruction
                     (Legacy.archiveOldToNewCanonInstructions (archiveTree files)))
          then Legacy.archiveOldToNewCanonInstructions (archiveTree files)
          else Legacy.archiveOtherDirsToCanonInstructions (archiveTree files))
  /\ (Legacy.kind (Legacy.archiveCanonInstructions (archiveTree files)) = Legacy.Canon
      /\ Legacy.kind (Legacy.archiveOldToNewCanonInstructions (archiveTree files))
         = Legacy.Heritage
      /\ Legacy.kind (Legacy.archiveOtherDirsToCanonInstructions (archiveTree files))
         = Legacy.Other)
  /\ Legacy.installArchiveOnlyMod files destinationPath
     = (if noInstruction (chosenArchiveInstructions files)
        then ([], Rejected Legacy.noInstructionsMessage)
        else if (length (Legacy.instructions (chosenArchiveInstructions files))
                 =? archiveFileCount files)%nat
             then (Legacy.warnUserIfModMightNeedManualReview
                     (chosenArchiveInstructions files),
                   Resolved (Legacy.instructions (chosenArchiveInstructions files)))
             else ([ShowArchiveStructureErrorDialog Legacy.conflictingLayoutsMessage files],
                   Rejected Legacy.conflictingLayoutsMessage)).
Proof.
  split; [apply chosenArchiveInstructions_first|].
  split; [apply archive_layout_kinds|].
  unfold Legacy.installArchiveOnlyMod.
  fold (archiveTree files). fold (chosenArchiveInstructions files).
  fold (archiveFileCount files). unfold noInstruction.
  destruct (Legacy.instructions (chosenArchiveInstructions files)) as [|i l];
    [reflexivity|].
  simpl Nat.ltb. simpl lengthIsZero. cbv iota.
  now destruct (length (i :: l) =? archiveFileCount files)%nat.
Qed.

(** ** Clean directories and relative paths *)

Lemma intercalate_app (s : chars) (l1 l2 : list chars) :
  l1 <> [] -> l2 <> [] ->
  Win32.intercalate s (l1 ++ l2)
  = Win32.intercalate s l1 ++ s ++ Win32.intercalate s l2.
Proof.
  intros H1 H2. induction l1 as [|a l1 IH]; [contradiction|].
  destruct l1 as [|b l1].
  - simpl. destruct l2; [contradiction|reflexivity].
  - change (Win32.intercalate s ((a :: b :: l1) ++ l2))
      with (a ++ s ++ Win32.intercalate s ((b :: l1) ++ l2)).
    rewrite IH by discriminate.
    change (Win32.intercalate s (a :: b :: l1))
      with (a ++ s ++ Win32.intercalate s (b :: l1)).
    now rewrite <- !app_assoc.
Qed.

Lemma flat_map_segsOf_ordinary (segs : list chars) :
  forallb ordinarySeg segs = true -> flat_map segsOf segs = segs.
Proof.
  induction segs as [|s segs IH]; simpl; [reflexivity|].
  intros H. apply andb_true_iff in H. destruct H as [Hs Hl].
  now rewrite (segsOf_ordinary s Hs), (IH Hl).
Qed.

Lemma segsOf_intercalate_ordinary (segs : list chars) :
  forallb ordinarySeg segs = true ->
  segsOf (Win32.intercalate [cBackslash] segs) = segs.
Proof. intros H. rewrite segsOf_intercalate. now apply flat_map_segsOf_ordinary. Qed.

Lemma segsOf_cleanDir (d : chars) (segs : list chars) :
  cleanDir d segs -> segsOf d = segs.
Proof.
  intros [-> [_ [H _]]].
  rewrite (segsOf_app_sep _ [] cBackslash cBackslash_sep).
  rewrite (segsOf_intercalate_ordinary _ H). simpl. apply app_nil_r.
Qed.

Lemma segsOf_cleanDir_app (d : chars) (segs : list chars) (r : chars) :
  cleanDir d segs -> segsOf (d ++ r) = segs ++ segsOf r.
Proof.
  intros [-> [_ [H _]]]. rewrite <- app_assoc. simpl.
  rewrite (segsOf_app_sep _ r cBackslash cBackslash_sep).
  now rewrite (segsOf_intercalate_ordinary _ H).
Qed.

Lemma intercalate_ordinary_not_nil (segs : list chars) :
  segs <> [] -> forallb ordinarySeg segs = true ->
  Win32.intercalate [cBackslash] segs <> [].
Proof.
  intros Hne H. destruct segs as [|a segs]; [contradiction|].
  apply intercalate_not_nil. simpl in H. apply andb_true_iff in H.
  apply ordinarySeg_nonEmpty. tauto.
Qed.

Lemma endsWithSeparator_intercalate_ordinary (x : chars) (segs : list chars) :
  segs <> [] -> forallb ordinarySeg segs = true ->
  Win32.endsWithSeparator (x ++ Win32.intercalate [cBackslash] segs) = false.
Proof.
  intros Hne H. destruct (exists_last Hne) as [init [l ->]].
  rewrite forallb_app in H. apply andb_true_iff in H. destruct H as [_ Hl].
  simpl in Hl. rewrite andb_true_r in Hl.
  destruct (intercalate_snoc [cBackslash] init l) as [y ->].
  rewrite app_assoc. apply endsWithSeparator_app_sepfree.
  - now apply ordinarySeg_nonEmpty.
  - now apply ordinarySeg_sepfree.
Qed.

Lemma endsWithSeparator_snoc (x : chars) (c : ascii) :
  Win32.endsWithSeparator (x ++ [c]) = Win32.isPathSeparator c.
Proof. unfold Win32.endsWithSeparator. now rewrite rev_app_distr. Qed.

Lemma startsRelative_app (p q : chars) :
  2 <= length p -> startsRelative (p ++ q) = startsRelative p.
Proof.
  intros H. destruct p as [|a [|b p]]; simpl in H; try lia. reflexivity.
Qed.

Lemma cleanDir_length (d : chars) (segs : list chars) : cleanDir d segs -> 2 <= length d.
Proof.
  intros [-> [Hne [H _]]]. rewrite length_app. simpl.
  pose proof (intercalate_ordinary_not_nil segs Hne H) as Hn.
  destruct (Win32.intercalate [cBackslash] segs); [contradiction|simpl; lia].
Qed.

Lemma nonEmpty_true_iff (a : chars) : nonEmpty a = true <-> a <> [].
Proof. destruct a; simpl; split; intros; try discriminate; try reflexivity. now elim H. Qed.

Lemma intercalate_two (s a b : chars) :
  Win32.intercalate s [a; b] = a ++ s ++ b.
Proof. reflexivity. Qed.

Lemma intercalate_three (s a b c : chars) :
  Win32.intercalate s [a; b; c] = a ++ s ++ b ++ s ++ c.
Proof. reflexivity. Qed.

(** Joining a clean relative path to a clean directory appends it. *)
Lemma join_cleanDir (d : chars) (segsD segs : list chars) :
  cleanDir d segsD -> segs <> [] -> forallb ordinarySeg segs = true ->
  Win32.join [str d; str (Win32.intercalate [cBackslash] segs)]
  = str (d ++ Win32.intercalate [cBackslash] segs).
Proof.
  intros Hd Hne Hs.
  pose proof (cleanDir_length d segsD Hd) as Hlen.
  pose proof (intercalate_ordinary_not_nil segs Hne Hs) as Hr.
  destruct Hd as [Ed [HneD [HsD Hrel]]].
  assert (HD : cleanDir d segsD) by (repeat split; assumption).
  rewrite join_ordinary.
  - simpl map. rewrite !unstr_str. f_equal.
    simpl flat_map. rewrite app_nil_r.
    rewrite (segsOf_cleanDir d segsD HD), (segsOf_intercalate_ordinary _ Hs).
    change (Win32.intercalate [cBackslash] [d; Win32.intercalate [cBackslash] segs])
      with (d ++ [cBackslash] ++ Win32.intercalate [cBackslash] segs).
    rewrite app_assoc.
    rewrite (endsWithSeparator_intercalate_ordinary _ segs Hne Hs).
    rewrite app_nil_r. rewrite (intercalate_app _ _ _ HneD Hne).
    rewrite Ed. now rewrite <- app_assoc.
  - simpl map. rewrite !unstr_str. simpl.
    assert (Hd0 : nonEmpty d = true)
      by (apply nonEmpty_true_iff; intros ->; simpl in Hlen; lia).
    apply nonEmpty_true_iff in Hr. now rewrite Hd0, Hr.
  - simpl map. rewrite !unstr_str.
    change (Win32.intercalate [cBackslash] [d; Win32.intercalate [cBackslash] segs])
      with (d ++ [cBackslash] ++ Win32.intercalate [cBackslash] segs).
    now rewrite (startsRelative_app _ _ Hlen).
  - simpl map. rewrite !unstr_str. simpl flat_map. rewrite app_nil_r.
    rewrite (segsOf_cleanDir d segsD HD), (segsOf_intercalate_ordinary _ Hs).
    rewrite forallb_app. now rewrite HsD, Hs.
Qed.

(** Joining a name and a separator to a clean directory gives the clean
    directory of the name inside it. *)
Lemma join_cleanDir_sep (d : chars) (segsD : list chars) (x : chars) :
  cleanDir d segsD -> ordinarySeg x = true ->
  Win32.join [str d; str x; Win32.sep] = str (d ++ x ++ [cBackslash])
  /\ cleanDir (d ++ x ++ [cBackslash]) (segsD ++ [x]).
Proof.
  intros Hd Hx.
  pose proof (cleanDir_length d segsD Hd) as Hlen.
  destruct Hd as [Ed [HneD [HsD Hrel]]].
  assert (HD : cleanDir d segsD) by (repeat split; assumption).
  assert (Hsx : forallb ordinarySeg (segsD ++ [x]) = true)
    by (rewrite forallb_app, HsD; simpl; now rewrite Hx).
  assert (Ei : Win32.intercalate [cBackslash] (segsD ++ [x]) ++ [cBackslash]
               = d ++ x ++ [cBackslash]).
  { rewrite (intercalate_app _ segsD [x] HneD) by discriminate.
    rewrite Ed. simpl. now rewrite <- !app_assoc. }
  assert (Hend : Win32.endsWithSeparator
                   (Win32.intercalate [cBackslash]
                      (map unstr [str d; str x; Win32.sep])) = true).
  { cbn [map]. rewrite !unstr_str, intercalate_three.
    change (unstr Win32.sep) with [cBackslash].
    rewrite !app_assoc. now rewrite endsWithSeparator_snoc. }
  assert (Hfm : flat_map segsOf (map unstr [str d; str x; Win32.sep]) = segsD ++ [x]).
  { cbn [map]. rewrite !unstr_str. cbn [flat_map].
    rewrite (segsOf_cleanDir d segsD HD), (segsOf_ordinary x Hx). reflexivity. }
  split.
  - rewrite join_ordinary.
    + rewrite Hend, Hfm. f_equal. exact Ei.
    + simpl map. rewrite !unstr_str. simpl.
      assert (Hd0 : nonEmpty d = true)
        by (apply nonEmpty_true_iff; intros ->; simpl in Hlen; lia).
      assert (Hx0 : nonEmpty x = true)
        by (apply nonEmpty_true_iff; now apply ordinarySeg_nonEmpty).
      now rewrite Hd0, Hx0.
    + cbn [map]. rewrite !unstr_str, intercalate_three.
      now rewrite (startsRelative_app _ _ Hlen).
    + now rewrite Hfm.
  - repeat split.
    + now symmetry.
    + destruct segsD; discriminate.
    + exact Hsx.
    + now rewrite (startsRelative_app _ _ Hlen).
Qed.

(** ** REDmod autoconversion of archive instructions *)

Lemma getSubstitution_no_dollar (matched before after repl : chars) :
  forallb (fun c => negb (Ascii.eqb c cDollar)) repl = true ->
  JS.getSubstitution matched before after repl = repl.
Proof.
  induction repl as [|c r IH]; simpl; [reflexivity|].
  intros H. apply andb_true_iff in H. destruct H as [Hc Hr].
  apply negb_true_iff in Hc. change "$"%char with cDollar. rewrite Hc.
  now rewrite (IH Hr).
Qed.

Lemma replace_prefix (pre repl rest : chars) :
  forallb (fun c => negb (Ascii.eqb c cDollar)) repl = true ->
  JS.replace (str (pre ++ rest)) (str pre) (str repl) = str (repl ++ rest).
Proof.
  intros H. unfold JS.replace. rewrite !unstr_str, findSub_prefix.
  now rewrite (getSubstitution_no_dollar _ _ _ _ H).
Qed.

Lemma lookupKey_mapSet (k k' val : string) (m : list (string * string)) :
  lookupKey k (REDmodEngine.mapSet k' val m)
  = if String.eqb k k' then Some val else lookupKey k m.
Proof.
  induction m as [|[k1 v1] m IH]; simpl.
  - reflexivity.
  - destruct (String.eqb k' k1) eqn:E1; simpl.
    + apply String.eqb_eq in E1. subst k1.
      destruct (String.eqb k k'); reflexivity.
    + destruct (String.eqb k k1) eqn:E2.
      * apply String.eqb_eq in E2. subst k1.
        rewrite String.eqb_sym in E1. now rewrite E1.
      * exact IH.
Qed.

Lemma lookupKey_fold_mapSet (k val : string) (pairs m : list (string * string)) :
  (forall val', In (k, val') pairs -> val' = val) ->
  In (k, val) pairs \/ lookupKey k m = Some val ->
  lookupKey k (fold_left (fun m p => REDmodEngine.mapSet (fst p) (snd p) m) pairs m)
  = Some val.
Proof.
  revert m. induction pairs as [|[k1 v1] pairs IH]; intros m Hfun Hin; simpl.
  - destruct Hin as [[]|H]. exact H.
  - apply IH.
    + intros val' H. apply Hfun. now right.
    + rewrite lookupKey_mapSet. destruct (String.eqb k k1) eqn:E.
      * apply String.eqb_eq in E. subst k1. right. f_equal.
        apply Hfun. now left.
      * destruct Hin as [[H|H]|H].
        -- injection H as -> ->. rewrite String.eqb_refl in E. discriminate.
        -- now left.
        -- now right.
Qed.

Lemma lookupKey_newMap (k val : string) (pairs : list (string * string)) :
  In (k, val) pairs -> (forall val', In (k, val') pairs -> val' = val) ->
  lookupKey k (REDmodEngine.newMap pairs) = Some val.
Proof. intros Hin Hfun. apply lookupKey_fold_mapSet; auto. Qed.

Lemma segsPrefix_app (a b : list chars) : FileTree.segsPrefix a (a ++ b) = true.
Proof. induction a as [|x a IH]; simpl; [reflexivity|]. now rewrite chars_eqb_refl. Qed.

Lemma lastComponent_clean_tail (x : chars) (s : ascii) (segs : list chars) :
  Win32.isPathSeparator s = true -> segs <> [] -> forallb ordinarySeg segs = true ->
  Win32.lastComponent ((x ++ [s]) ++ Win32.intercalate [cBackslash] segs) = last segs [].
Proof.
  intros Hs Hne H. destruct (exists_last Hne) as [init [l ->]].
  rewrite last_last. rewrite forallb_app in H. apply andb_true_iff in H.
  destruct H as [_ Hl]. simpl in Hl. rewrite andb_true_r in Hl.
  pose proof (ordinarySeg_nonEmpty l Hl) as Hl1.
  pose proof (ordinarySeg_sepfree l Hl) as Hl2.
  destruct init as [|a init].
  - simpl. rewrite <- app_assoc. simpl.
    now destruct (lastComponent_after_separator x l s Hs Hl1 Hl2).
  - rewrite intercalate_app by discriminate. simpl Win32.intercalate at 2.
    rewrite !app_assoc. rewrite <- app_assoc. simpl app at 2.
    now destruct (lastComponent_after_separator
                    ((x ++ [s]) ++ Win32.intercalate [cBackslash] (a :: init))
                    l cBackslash cBackslash_sep Hl1 Hl2).
Qed.

Lemma cleanDir_ends_with_separator (d : chars) (segs : list chars) :
  cleanDir d segs -> exists x, d = x ++ [cBackslash].
Proof. intros [-> _]. eauto. Qed.

Lemma noDup_copy_source (l : list VortexInstruction) (s s' d : string) :
  NoDup (copyDestinations l) -> In (Copy s d) l -> In (Copy s' d) l -> s = s'.
Proof.
  unfold copyDestinations. induction l as [|i l IH]; simpl; [intros _ []|].
  intros Hnd H1 H2.
  assert (Hin : forall t, In (Copy t d) l -> In d (map destinationOf (filter isCopy l))).
  { intros t Ht. apply in_map_iff. exists (Copy t d). split; [reflexivity|].
    apply filter_In. now split. }
  destruct i as [si di| |]; simpl in Hnd.
  - inversion Hnd as [|? ? Hnot Hnd']; subst.
    destruct H1 as [H1|H1], H2 as [H2|H2].
    + congruence.
    + injection H1 as -> ->. elim Hnot. now apply (Hin s').
    + injection H2 as -> ->. elim Hnot. now apply (Hin s).
    + now apply IH.
  - destruct H1 as [H1|H1]; [discriminate|]. destruct H2 as [H2|H2]; [discriminate|].
    now apply IH.
  - destruct H1 as [H1|H1]; [discriminate|]. destruct H2 as [H2|H2]; [discriminate|].
    now apply IH.
Qed.

Lemma modDir_clean (n : string) :
  ordinaryName n = true -> cleanDir (modDir n) [unstr "mods"; unstr n].
Proof.
  intros Hn. unfold cleanDir, modDir. split; [|split; [|split]].
  - rewrite intercalate_two. now rewrite <- !app_assoc.
  - discriminate.
  - simpl. unfold ordinaryName in Hn. now rewrite Hn.
  - reflexivity.
Qed.

Lemma join_mods (n : string) :
  ordinaryName n = true ->
  Win32.join [REDmodEngine.REDMOD_BASEDIR; n; Win32.sep] = str (modDir n).
Proof.
  intros Hn. pose proof (ordinaryName_nonEmpty n Hn) as Hne.
  assert (Hfm : flat_map segsOf (map unstr [REDmodEngine.REDMOD_BASEDIR; n; Win32.sep])
                = [unstr "mods"; unstr n]).
  { cbn [map flat_map]. rewrite (segsOf_ordinary _ Hn). reflexivity. }
  assert (Hend : Win32.endsWithSeparator
                   (Win32.intercalate [cBackslash]
                      (map unstr [REDmodEngine.REDMOD_BASEDIR; n; Win32.sep])) = true).
  { cbn [map]. rewrite intercalate_three.
    change (unstr Win32.sep) with [cBackslash].
    rewrite !app_assoc. now rewrite endsWithSeparator_snoc. }
  rewrite join_ordinary.
  - rewrite Hfm, Hend. reflexivity.
  - cbn [map forallb]. now rewrite Hne.
  - reflexivity.
  - rewrite Hfm. simpl. unfold ordinaryName in Hn. now rewrite Hn.
Qed.

Lemma modArchiveDir_clean (n : string) :
  ordinaryName n = true ->
  Win32.join [str (modDir n); REDmodEngine.REDMOD_ARCHIVES_DIRNAME; Win32.sep]
  = str (modArchiveDir n)
  /\ cleanDir (modArchiveDir n) [unstr "mods"; unstr n; unstr "archives"].
Proof.
  intros Hn.
  exact (join_cleanDir_sep (modDir n) [unstr "mods"; unstr n] (unstr "archives")
           (modDir_clean n Hn) eq_refl).
Qed.

Lemma str_modDir (n : string) : str (modDir n) = ("mods\" ++ n ++ "\")%string.
Proof.
  rewrite <- (str_unstr ("mods\" ++ n ++ "\")%string). f_equal.
  rewrite !unstr_app. unfold modDir. rewrite <- ?app_assoc. reflexivity.
Qed.

Lemma str_modDir_info (n : string) :
  str (modDir n ++ unstr "info.json") = ("mods\" ++ n ++ "\info.json")%string.
Proof.
  rewrite <- (str_unstr ("mods\" ++ n ++ "\info.json")%string). f_equal.
  rewrite !unstr_app. unfold modDir. rewrite <- ?app_assoc. reflexivity.
Qed.

Lemma str_modArchiveDir_app (n : string) (r : chars) :
  str (modArchiveDir n ++ r) = ("mods\" ++ n ++ "\archives\" ++ str r)%string.
Proof.
  rewrite <- (str_unstr ("mods\" ++ n ++ "\archives\" ++ str r)%string). f_equal.
  rewrite !unstr_app, unstr_str. unfold modArchiveDir, modDir.
  rewrite <- ?app_assoc. reflexivity.
Qed.

Lemma extname_clean_tail (x : chars) (s : ascii) (segs : list chars) :
  Win32.isPathSeparator s = true -> segs <> [] -> forallb ordinarySeg segs = true ->
  Win32.extname (str ((x ++ [s]) ++ Win32.intercalate [cBackslash] segs))
  = str (Win32.extOfComponent (last segs [])).
Proof.
  intros Hs Hne H. unfold Win32.extname. rewrite unstr_str.
  now rewrite (lastComponent_clean_tail x s segs Hs Hne H).
Qed.

Lemma In_virtual_pairs (tagger : REDmodEngine.ModInfo -> REDmodEngine.ModInfo)
    (modInfo : REDmodEngine.ModInfo) (original : REDmodEngine.Instructions)
    (k s : string) :
  In (k, s) (REDmodEngine.realSourceAndVirtualSourcePairs tagger modInfo original)
  <-> exists d, In (Copy s d) (REDmodEngine.instructions original)
                /\ k = JS.replace d REDmodEngine.ARCHIVE_MOD_CANONICAL_PREFIX
                         (REDmodEngine.destinationArchiveDirWithModnamePrefix tagger modInfo).
Proof.
  unfold REDmodEngine.realSourceAndVirtualSourcePairs. rewrite in_flat_map. split.
  - intros [i [Hi Hk]]. destruct i as [s' d'| |]; simpl in Hk; try contradiction.
    destruct Hk as [Hk|[]]. injection Hk as Hk1 Hk2. subst k s'. now exists d'.
  - intros [d [Hd ->]]. exists (Copy s d). split; [assumption|]. now left.
Qed.

Section AutoconversionFacts.

Variable tagger : REDmodEngine.ModInfo -> REDmodEngine.ModInfo.
Variable modInfo : REDmodEngine.ModInfo.

Local Abbreviation n := (REDmodEngine.autoconvertedName tagger modInfo).

Hypothesis Hn : ordinaryName n = true.
Hypothesis Hd : noDollar n = true.

Lemma destinationDir_eq :
  REDmodEngine.destinationDirWithModnamePrefix tagger modInfo = str (modDir n).
Proof. unfold REDmodEngine.destinationDirWithModnamePrefix. now apply join_mods. Qed.

Lemma destinationArchiveDir_eq :
  REDmodEngine.destinationArchiveDirWithModnamePrefix tagger modInfo
  = str (modArchiveDir n).
Proof.
  unfold REDmodEngine.destinationArchiveDirWithModnamePrefix.
  rewrite destinationDir_eq. now apply modArchiveDir_clean.
Qed.

Lemma infoJson_destination :
  Win32.join [REDmodEngine.destinationDirWithModnamePrefix tagger modInfo;
              REDmodEngine.REDMOD_INFO_FILENAME]
  = ("mods\" ++ n ++ "\info.json")%string.
Proof.
  rewrite destinationDir_eq.
  change REDmodEngine.REDMOD_INFO_FILENAME
    with (str (Win32.intercalate [cBackslash] [unstr "info.json"])).
  rewrite (join_cleanDir _ _ [unstr "info.json"] (modDir_clean _ Hn));
    [apply str_modDir_info|discriminate|reflexivity].
Qed.

Lemma archiveDir_eq :
  Win32.join [REDmodEngine.destinationDirWithModnamePrefix tagger modInfo;
              REDmodEngine.REDMOD_ARCHIVES_DIRNAME]
  = str (modDir n ++ unstr "archives").
Proof.
  rewrite destinationDir_eq.
  change REDmodEngine.REDMOD_ARCHIVES_DIRNAME
    with (str (Win32.intercalate [cBackslash] [unstr "archives"])).
  now rewrite (join_cleanDir _ _ [unstr "archives"] (modDir_clean _ Hn)).
Qed.

Lemma noDollar_modArchiveDir :
  forallb (fun c => negb (Ascii.eqb c cDollar)) (modArchiveDir n) = true.
Proof.
  unfold modArchiveDir, modDir. rewrite !forallb_app.
  unfold noDollar in Hd. now rewrite Hd.
Qed.

Lemma replace_canonical (r : chars) :
  JS.replace (str (unstr REDmodEngine.ARCHIVE_MOD_CANONICAL_PREFIX ++ r))
             REDmodEngine.ARCHIVE_MOD_CANONICAL_PREFIX
             (REDmodEngine.destinationArchiveDirWithModnamePrefix tagger modInfo)
  = str (modArchiveDir n ++ r).
Proof.
  rewrite destinationArchiveDir_eq.
  rewrite <- (str_unstr REDmodEngine.ARCHIVE_MOD_CANONICAL_PREFIX) at 2.
  apply replace_prefix, noDollar_modArchiveDir.
Qed.

Lemma segments_modDir :
  FileTree.segments (str (modDir n)) = [unstr "mods"; unstr n].
Proof.
  rewrite segments_segsOf, unstr_str. apply segsOf_cleanDir. now apply modDir_clean.
Qed.

Lemma segments_archiveDir :
  FileTree.segments (str (modDir n ++ unstr "archives"))
  = [unstr "mods"; unstr n; unstr "archives"].
Proof.
  rewrite segments_segsOf, unstr_str.
  now rewrite (segsOf_cleanDir_app _ _ _ (modDir_clean _ Hn)).
Qed.

Lemma segments_virtual (segs : list chars) :
  forallb ordinarySeg segs = true ->
  FileTree.segments (str (modArchiveDir n ++ Win32.intercalate [cBackslash] segs))
  = [unstr "mods"; unstr n; unstr "archives"] ++ segs.
Proof.
  intros Hs. rewrite segments_segsOf, unstr_str.
  destruct (modArchiveDir_clean _ Hn) as [_ Hc].
  rewrite (segsOf_cleanDir_app _ _ _ Hc). now rewrite segsOf_intercalate_ordinary.
Qed.

Lemma virtual_not_folder (segs : list chars) :
  segs <> [] -> forallb ordinarySeg segs = true ->
  Win32.endsWithSeparator
    (unstr (str (modArchiveDir n ++ Win32.intercalate [cBackslash] segs))) = false.
Proof.
  intros Hne Hs. rewrite unstr_str.
  now apply endsWithSeparator_intercalate_ordinary.
Qed.

Lemma virtual_under_archiveDir (segs : list chars) :
  segs <> [] -> forallb ordinarySeg segs = true ->
  FileTree.segsPrefix
    (FileTree.segments (str (modDir n ++ unstr "archives")))
    (FileTree.dirSegments
       (str (modArchiveDir n ++ Win32.intercalate [cBackslash] segs))) = true.
Proof.
  intros Hne Hs. unfold FileTree.dirSegments, FileTree.isDirMarker.
  rewrite (virtual_not_folder segs Hne Hs).
  rewrite segments_archiveDir, (segments_virtual segs Hs).
  rewrite removelast_app by assumption. apply segsPrefix_app.
Qed.

Lemma moveFromTo_virtual (segs : list chars) :
  segs <> [] -> forallb ordinarySeg segs = true ->
  REDmodEngine.moveFromTo (str (modDir n)) (str (modDir n))
    (str (modArchiveDir n ++ Win32.intercalate [cBackslash] segs))
  = (str (modArchiveDir n ++ Win32.intercalate [cBackslash] segs),
     str (modArchiveDir n ++ Win32.intercalate [cBackslash] segs)).
Proof.
  intros Hne Hs. unfold REDmodEngine.moveFromTo.
  rewrite segments_modDir, (segments_virtual segs Hs).
  change ([unstr "mods"; unstr n; unstr "archives"] ++ segs)
    with ([unstr "mods"; unstr n] ++ (unstr "archives" :: segs)).
  rewrite segsPrefix_app, skipn_app_exact. f_equal. unfold FileTree.render.
  rewrite (join_cleanDir _ _ (unstr "archives" :: segs) (modDir_clean _ Hn)).
  - f_equal. unfold modArchiveDir.
    change (unstr "archives" :: segs) with ([unstr "archives"] ++ segs).
    rewrite intercalate_app by (assumption || discriminate).
    simpl Win32.intercalate at 1. now rewrite <- !app_assoc.
  - discriminate.
  - simpl. now rewrite Hs.
Qed.

End AutoconversionFacts.

Lemma matchREDmodArchive_virtual (n : string) (segs : list chars) :
  segs <> [] -> forallb ordinarySeg segs = true ->
  REDmodEngine.matchREDmodArchive
    (str (modArchiveDir n ++ Win32.intercalate [cBackslash] segs))
  = REDmodEngine.matchREDmodArchive
      (str (unstr REDmodEngine.ARCHIVE_MOD_CANONICAL_PREFIX
            ++ Win32.intercalate [cBackslash] segs)).
Proof.
  intros Hne Hs. unfold REDmodEngine.matchREDmodArchive. f_equal.
  change (unstr REDmodEngine.ARCHIVE_MOD_CANONICAL_PREFIX)
    with (unstr "archive\pc\mod" ++ [cBackslash]).
  rewrite (extname_clean_tail _ cBackslash segs cBackslash_sep Hne Hs).
  unfold modArchiveDir. rewrite (app_assoc (modDir n)).
  now rewrite (extname_clean_tail _ cBackslash segs cBackslash_sep Hne Hs).
Qed.

Lemma map_filter_flat_map {A B C : Type} (g : A -> list B) (p : B -> bool)
    (f : B -> C) (q : A -> bool) (h : A -> C) (l : list A) :
  (forall x, In x l ->
     (g x = [] /\ q x = false)
     \/ exists k, g x = [k] /\ p k = q x /\ (q x = true -> f k = h x)) ->
  map f (filter p (flat_map g l)) = map h (filter q l).
Proof.
  induction l as [|x l IH]; intros H; [reflexivity|].
  simpl. rewrite filter_app, map_app, IH by (intros y Hy; apply H; now right).
  destruct (H x (or_introl eq_refl)) as [[-> ->]|[k [-> [Hp Hf]]]]; [reflexivity|].
  simpl. rewrite Hp. destruct (q x); simpl; [now rewrite Hf|reflexivity].
Qed.

Lemma mapSet_fresh (k v : string) (m : list (string * string)) :
  ~ In k (map fst m) -> REDmodEngine.mapSet k v m = m ++ [(k, v)].
Proof.
  induction m as [|[k' v'] m IH]; simpl; intros H; [reflexivity|].
  destruct (String.eqb k k') eqn:E.
  - apply String.eqb_eq in E. subst. elim H. now left.
  - rewrite IH; [reflexivity|]. intros Hin. apply H. now right.
Qed.

Lemma fold_mapSet_fresh (pairs m : list (string * string)) :
  NoDup (map fst (m ++ pairs)) ->
  fold_left (fun m p => REDmodEngine.mapSet (fst p) (snd p) m) pairs m = m ++ pairs.
Proof.
  revert m. induction pairs as [|[k v] pairs IH]; intros m H; simpl.
  - now rewrite app_nil_r.
  - rewrite mapSet_fresh.
    + rewrite IH; rewrite <- app_assoc; [reflexivity|exact H].
    + rewrite map_app in H. simpl in H. apply NoDup_remove_2 in H.
      intros Hin. apply H. apply in_or_app. now left.
Qed.

Lemma newMap_fresh (pairs : list (string * string)) :
  NoDup (map fst pairs) -> REDmodEngine.newMap pairs = pairs.
Proof. intros H. unfold REDmodEngine.newMap. now rewrite fold_mapSet_fresh. Qed.

Lemma afterArchivePrefix_render (r : chars) :
  afterArchivePrefix (str (unstr REDmodEngine.ARCHIVE_MOD_CANONICAL_PREFIX ++ r)) = str r.
Proof. unfold afterArchivePrefix. now rewrite unstr_str, skipn_app_exact. Qed.

Lemma NoDup_map_injective_on {A B : Type} (f : A -> B) (l : list A) :
  (forall x y, In x l -> In y l -> f x = f y -> x = y) ->
  NoDup l -> NoDup (map f l).
Proof.
  induction l as [|a l IH]; intros Hinj Hnd; simpl; [constructor|].
  inversion Hnd as [|? ? Hnot Hnd']; subst. constructor.
  - intros Hin. apply in_map_iff in Hin. destruct Hin as [y [Hy Hyl]].
    assert (y = a) by (apply Hinj; [now right|now left|exact Hy]). now subst.
  - apply IH; [|exact Hnd']. intros x y Hx Hy. apply Hinj; now right.
Qed.

Lemma In_copyDestinations (l : list VortexInstruction) (d : string) :
  In d (copyDestinations l) <-> exists s, In (Copy s d) l.
Proof.
  unfold copyDestinations. rewrite in_map_iff. split.
  - intros [i [E Hi]]. apply filter_In in Hi. destruct Hi as [Hi Hc].
    destruct i as [s d'| |]; try discriminate. simpl in E. subst. now exists s.
  - intros [s Hs]. exists (Copy s d). split; [reflexivity|]. apply filter_In. now split.
Qed.

Section AutoconversionExact.

Variable tagger : REDmodEngine.ModInfo -> REDmodEngine.ModInfo.
Variable modInfo : REDmodEngine.ModInfo.
Variable original : REDmodEngine.Instructions.

Local Abbreviation n := (REDmodEngine.autoconvertedName tagger modInfo).
Local Abbreviation virtualKeys := (virtualSources tagger modInfo).
Local Abbreviation virtualOf :=
  (fun d => JS.replace d REDmodEngine.ARCHIVE_MOD_CANONICAL_PREFIX
              (REDmodEngine.destinationArchiveDirWithModnamePrefix tagger modInfo)).

Hypothesis Hn : ordinaryName n = true.
Hypothesis Hd : noDollar n = true.
Hypothesis Hcanon : forall s d,
    In (Copy s d) (REDmodEngine.instructions original) -> canonicalDestination d.
Hypothesis Hnd : NoDup (copyDestinations (REDmodEngine.instructions original)).

Lemma canonical_virtual (d : string) :
  canonicalDestination d ->
  exists segs, segs <> [] /\ forallb ordinarySeg segs = true
    /\ d = str (unstr REDmodEngine.ARCHIVE_MOD_CANONICAL_PREFIX
                ++ Win32.intercalate [cBackslash] segs)
    /\ virtualOf d = str (modArchiveDir n ++ Win32.intercalate [cBackslash] segs).
Proof.
  intros [segs [Hne [Hs ->]]]. exists segs. split; [exact Hne|]. split; [exact Hs|].
  assert (E : (REDmodEngine.ARCHIVE_MOD_CANONICAL_PREFIX ++ FileTree.render segs)%string
              = str (unstr REDmodEngine.ARCHIVE_MOD_CANONICAL_PREFIX
                     ++ Win32.intercalate [cBackslash] segs)).
  { unfold FileTree.render. now rewrite str_app, str_unstr. }
  split; [exact E|]. rewrite E. now apply replace_canonical.
Qed.

Lemma pairs_keys :
  map fst (REDmodEngine.realSourceAndVirtualSourcePairs tagger modInfo original)
  = flat_map virtualKeys (REDmodEngine.instructions original).
Proof.
  unfold REDmodEngine.realSourceAndVirtualSourcePairs.
  clear Hcanon Hnd.
  induction (REDmodEngine.instructions original) as [|i l IH]; [reflexivity|].
  destruct i; simpl; now rewrite IH.
Qed.

Lemma keys_destinations :
  flat_map virtualKeys (REDmodEngine.instructions original)
  = map virtualOf (copyDestinations (REDmodEngine.instructions original)).
Proof.
  clear Hcanon Hnd. unfold copyDestinations.
  induction (REDmodEngine.instructions original) as [|i l IH]; [reflexivity|].
  destruct i; simpl; now rewrite IH.
Qed.

Lemma keys_NoDup :
  NoDup (flat_map virtualKeys (REDmodEngine.instructions original)).
Proof.
  rewrite keys_destinations. apply NoDup_map_injective_on; [|exact Hnd].
  intros x y Hx Hy E.
  apply In_copyDestinations in Hx. destruct Hx as [sx Hx].
  apply In_copyDestinations in Hy. destruct Hy as [sy Hy].
  destruct (canonical_virtual x (Hcanon _ _ Hx)) as [a [_ [_ [Ex Vx]]]].
  destruct (canonical_virtual y (Hcanon _ _ Hy)) as [b [_ [_ [Ey Vy]]]].
  rewrite Vx, Vy in E. apply str_inj, app_inv_head in E. rewrite Ex, Ey. now rewrite E.
Qed.

Lemma In_keys (k : string) :
  In k (flat_map virtualKeys (REDmodEngine.instructions original)) ->
  exists s d, In (Copy s d) (REDmodEngine.instructions original) /\ k = virtualOf d.
Proof.
  intros H. apply in_flat_map in H. destruct H as [i [Hi Hk]].
  destruct i as [s d| |]; simpl in Hk; try contradiction.
  destruct Hk as [<-|[]]. now exists s, d.
Qed.

Lemma lookup_virtual (s d : string) :
  In (Copy s d) (REDmodEngine.instructions original) ->
  lookupKey (virtualOf d)
    (REDmodEngine.realSourceAndVirtualSourcePairs tagger modInfo original) = Some s.
Proof.
  intros Hin.
  rewrite <- (newMap_fresh (REDmodEngine.realSourceAndVirtualSourcePairs
                              tagger modInfo original))
    by (rewrite pairs_keys; exact keys_NoDup).
  apply lookupKey_newMap.
  - apply In_virtual_pairs. now exists d.
  - intros s' Hs'. apply In_virtual_pairs in Hs'. destruct Hs' as [d' [Hd' Hk]].
    destruct (canonical_virtual d (Hcanon _ _ Hin)) as [a [_ [_ [Ex Vx]]]].
    destruct (canonical_virtual d' (Hcanon _ _ Hd')) as [b [_ [_ [Ey Vy]]]].
    rewrite Vx, Vy in Hk. apply str_inj, app_inv_head in Hk.
    assert (E : d' = d) by (rewrite Ex, Ey; now rewrite Hk).
    rewrite E in Hd'. symmetry. exact (noDup_copy_source _ _ _ _ Hnd Hin Hd').
Qed.

Lemma key_facts (k : string) :
  In k (flat_map virtualKeys (REDmodEngine.instructions original)) ->
  FileTree.isDirMarker k = false
  /\ FileTree.segsPrefix
       (FileTree.segments
          (Win32.join [REDmodEngine.destinationDirWithModnamePrefix tagger modInfo;
                       REDmodEngine.REDMOD_ARCHIVES_DIRNAME]))
       (FileTree.dirSegments k) = true
  /\ REDmodEngine.moveFromTo
       (REDmodEngine.destinationDirWithModnamePrefix tagger modInfo)
       (REDmodEngine.destinationDirWithModnamePrefix tagger modInfo) k = (k, k)
  /\ JS.endsWith k Win32.sep = false
  /\ k <> "".
Proof.
  intros H. destruct (In_keys k H) as [s [d [Hin ->]]].
  destruct (canonical_virtual d (Hcanon _ _ Hin)) as [segs [Hne [Hs [_ ->]]]].
  pose proof (virtual_not_folder tagger modInfo segs Hne Hs) as Hf.
  split; [exact Hf|]. split; [|split; [|split]].
  - rewrite (archiveDir_eq _ _ Hn). now apply virtual_under_archiveDir.
  - rewrite (destinationDir_eq _ _ Hn). now apply moveFromTo_virtual.
  - now apply endsWith_sep_false.
  - intros E. apply str_nil_iff in E. unfold modArchiveDir, modDir in E. discriminate.
Qed.

Lemma produced_copies (l : list string) :
  (forall k, In k l ->
     In k (flat_map virtualKeys (REDmodEngine.instructions original))) ->
  REDmodEngine.instructionsToMoveAllFromSourceToDestination
    (REDmodEngine.destinationDirWithModnamePrefix tagger modInfo)
    (REDmodEngine.destinationDirWithModnamePrefix tagger modInfo) l
  = map (fun k => Copy k k) l.
Proof.
  unfold REDmodEngine.instructionsToMoveAllFromSourceToDestination,
    REDmodEngine.instructionsForSourceToDestPairs.
  rewrite instructionsForSourceToDestPairs_map.
  induction l as [|k l IH]; intros H; [reflexivity|].
  destruct (key_facts k (H k (or_introl eq_refl))) as [_ [_ [Hm [He _]]]].
  simpl. rewrite Hm. unfold notFolder at 1. simpl fst. rewrite He. simpl.
  f_equal. apply IH. intros k' Hk'. apply H. now right.
Qed.

Lemma archive_files_of_keys :
  FileTree.filesUnder
    (Win32.join [REDmodEngine.destinationDirWithModnamePrefix tagger modInfo;
                 REDmodEngine.REDMOD_ARCHIVES_DIRNAME])
    REDmodEngine.matchREDmodArchive
    (FileTree.fileTreeFromPaths
       (flat_map virtualKeys (REDmodEngine.instructions original)))
  = filter REDmodEngine.matchREDmodArchive
           (flat_map virtualKeys (REDmodEngine.instructions original)).
Proof.
  unfold FileTree.fileTreeFromPaths. rewrite (nodup_fixed_point string_dec keys_NoDup).
  unfold FileTree.filesUnder. apply filter_ext_in. intros k Hk.
  destruct (key_facts k Hk) as [Hf [Hu _]]. now rewrite Hf, Hu.
Qed.

Lemma mapped_back_copies :
  map (fun k => REDmodEngine.mappedBackToRealSource
                  (REDmodEngine.realSourceAndVirtualSourcePairs tagger modInfo original)
                  (Copy k k))
      (filter REDmodEngine.matchREDmodArchive
              (flat_map virtualKeys (REDmodEngine.instructions original)))
  = map (redmodCopy n) (filter isArchiveCopy (REDmodEngine.instructions original)).
Proof.
  apply map_filter_flat_map. intros i Hi.
  destruct i as [s d| |]; [right|left; now split|left; now split].
  exists (virtualOf d). split; [reflexivity|].
  destruct (canonical_virtual d (Hcanon _ _ Hi)) as [segs [Hne [Hs [Ed Ev]]]].
  split.
  - rewrite Ev. simpl isArchiveCopy. rewrite Ed. now apply matchREDmodArchive_virtual.
  - intros _. unfold REDmodEngine.mappedBackToRealSource.
    rewrite (lookup_virtual s d Hi).
    assert (Hk : In (virtualOf d)
                    (flat_map virtualKeys (REDmodEngine.instructions original))).
    { apply in_flat_map. exists (Copy s d). split; [exact Hi|now left]. }
    destruct (key_facts _ Hk) as [_ [_ [_ [_ Hne0]]]].
    apply String.eqb_neq in Hne0. rewrite Hne0. simpl negb. cbv iota.
    unfold redmodCopy. cbv zeta.
    assert (Ed' : ("mods\" ++ n ++ "\archives\" ++ afterArchivePrefix d)%string
                  = virtualOf d).
    { rewrite Ev, Ed, afterArchivePrefix_render. symmetry. apply str_modArchiveDir_app. }
    rewrite Ed'. now destruct (String.eqb s "").
Qed.

End AutoconversionExact.




(** * Further properties of the installers *)

(** ** Instructions of several groups of pairs *)

(** X1: the installers build their instructions group by group with
    [flatMap(instructionsForSourceToDestPairs)]; the result is the same as
    for all the pairs at once, in order, and every instruction in it is
    the copy of a pair of some group whose source does not end with the
    separator: no instruction is ever made for a folder. *)
Theorem X1_instructions_of_groups (groups : list (list (string * string))) :
  flat_map Legacy.instructionsForSourceToDestPairs groups
  = Legacy.instructionsForSourceToDestPairs (concat groups)
  /\ forall i, In i (flat_map Legacy.instructionsForSourceToDestPairs groups) ->
       exists s d, i = Copy s d /\ JS.endsWith s Win32.sep = false
                   /\ In (s, d) (concat groups).
Proof.
  assert (E : flat_map Legacy.instructionsForSourceToDestPairs groups
              = Legacy.instructionsForSourceToDestPairs (concat groups)).
  { induction groups as [|g groups IH]; simpl; [reflexivity|].
    rewrite IH. rewrite !instructionsForSourceToDestPairs_map.
    now rewrite filter_app, map_app. }
  split; [exact E|]. rewrite E. intros i Hi.
  apply In_instructionsForSourceToDestPairs in Hi.
  destruct Hi as [[s d] [Hin [Hn ->]]]. exists s, d. simpl.
  split; [reflexivity|]. split; [|exact Hin].
  unfold notFolder in Hn. simpl in Hn. now apply negb_true_iff in Hn.
Qed.

(** ** The INI detector and installer *)

Lemma existsb_false_iff {A : Type} (p : A -> bool) (l : list A) :
  existsb p l = false <-> forall x, In x l -> p x = false.
Proof.
  split.
  - intros H x Hx. destruct (p x) eqn:E; [|reflexivity].
    assert (existsb p l = true) by (apply existsb_exists; eauto). congruence.
  - intros H. destruct (existsb p l) eqn:E; [|reflexivity].
    apply existsb_exists in E. destruct E as [x [Hx Hp]]. rewrite (H x Hx) in Hp. discriminate.
Qed.

Lemma arrayIncludes_In (files : list string) (x : string) :
  Legacy.arrayIncludes files x = true <-> In x files.
Proof.
  unfold Legacy.arrayIncludes. rewrite existsb_exists. split.
  - intros [y [Hy E]]. apply String.eqb_eq in E. now subst.
  - intros H. exists x. split; [exact H|apply String.eqb_refl].
Qed.

Lemma testForIniMod_cases (files : list string) (gameId : string) :
  Legacy.testForIniMod files gameId
  = if negb (String.eqb gameId Legacy.GAME_ID) then Resolved (mkTestResult false [])
    else if lengthIsZero (filter isIniFileAnyCase files) then Resolved (mkTestResult false [])
    else if existsb looksLikeCetOrRedscript files then Resolved (mkTestResult false [])
    else if Legacy.arrayIncludes files Legacy.CET_GLOBAL_INI
         then Resolved (mkTestResult false [])
         else Resolved (mkTestResult true []).
Proof. reflexivity. Qed.

(** X2: the INI detector never rejects, and it reports [supported]
    exactly when the game is [cyberpunk2077], some file has the extension
    [.ini] in any case, no file has a base name that contains [init.lua]
    or the extension [.reds], and [bin\x64\global.ini] is not among the
    files. *)
Theorem X2_ini_detector (files : list string) (gameId : string) :
  (exists r, Legacy.testForIniMod files gameId = Resolved r)
  /\ (supportedBy (Legacy.testForIniMod files gameId) = true
      <-> gameId = Legacy.GAME_ID
          /\ (exists f, In f files /\ isIniFileAnyCase f = true)
          /\ (forall f, In f files ->
                JS.includes (Win32.basename f) "init.lua" = false
                /\ Win32.extname f <> ".reds")
          /\ ~ In "bin\x64\global.ini" files).
Proof.
  rewrite testForIniMod_cases.
  destruct (String.eqb gameId Legacy.GAME_ID) eqn:Eg; simpl negb; cbv iota.
  2:{ split; [eauto|]. simpl. split; [discriminate|].
      intros [E _]. apply String.eqb_neq in Eg. contradiction. }
  apply String.eqb_eq in Eg.
  destruct (lengthIsZero (filter isIniFileAnyCase files)) eqn:Ef.
  { split; [eauto|]. simpl. split; [discriminate|].
    intros [_ [[f [Hf Hi]] _]].
    assert (H : lengthIsZero (filter isIniFileAnyCase files) = false)
      by (apply lengthIsZero_filter_iff; eauto).
    congruence. }
  apply lengthIsZero_filter_iff in Ef.
  destruct (existsb looksLikeCetOrRedscript files) eqn:Ec.
  { split; [eauto|]. simpl. split; [discriminate|].
    intros [_ [_ [H _]]]. apply existsb_exists in Ec. destruct Ec as [f [Hf Hc]].
    destruct (H f Hf) as [H1 H2]. unfold looksLikeCetOrRedscript in Hc.
    apply orb_true_iff in Hc. destruct Hc as [Hc|Hc].
    - change Legacy.CET_MOD_CANONICAL_INIT_FILE with "init.lua" in Hc. congruence.
    - apply String.eqb_eq in Hc. contradiction. }
  destruct (Legacy.arrayIncludes files Legacy.CET_GLOBAL_INI) eqn:Ea.
  { split; [eauto|]. simpl. split; [discriminate|].
    intros [_ [_ [_ H]]]. apply arrayIncludes_In in Ea. contradiction. }
  split; [eauto|]. simpl. split; [|reflexivity]. intros _.
  split; [exact Eg|]. split; [exact Ef|]. split.
  - intros f Hf. pose proof (proj1 (existsb_false_iff _ _) Ec f Hf) as H.
    unfold looksLikeCetOrRedscript in H. apply orb_false_iff in H. destruct H as [H1 H2].
    split; [exact H1|]. now apply String.eqb_neq in H2.
  - intros H. apply arrayIncludes_In in H.
    change Legacy.CET_GLOBAL_INI with "bin\x64\global.ini" in Ea. congruence.
Qed.

(** X3: no file list is accepted by both the Redscript detector (of
    either version) and the INI detector: an [.ini] file that comes with
    Redscript files is left to the Redscript installer. *)
Theorem X3_redscript_mods_are_not_ini_mods (files : list string) (gameId gameId' : string) :
  supportedBy (Legacy.testForRedscriptMod files gameId)
  && supportedBy (Legacy.testForIniMod files gameId') = false
  /\ supportedBy (RedscriptInstaller.testForRedscriptMod files (FileTree.fileTreeFromPaths files))
     && supportedBy (Legacy.testForIniMod files gameId') = false.
Proof.
  assert (H : Legacy.allRedscriptFiles files <> [] ->
              supportedBy (Legacy.testForIniMod files gameId') = false).
  { intros Hr. rewrite testForIniMod_cases.
    destruct (negb (String.eqb gameId' Legacy.GAME_ID)); [reflexivity|].
    destruct (lengthIsZero (filter isIniFileAnyCase files)); [reflexivity|].
    assert (Hc : existsb looksLikeCetOrRedscript files = true).
    { destruct (Legacy.allRedscriptFiles files) as [|f r] eqn:Ea; [now elim Hr|].
      assert (Hf : In f (Legacy.allRedscriptFiles files)) by (rewrite Ea; now left).
      apply filter_In in Hf. destruct Hf as [Hf Hm].
      apply existsb_exists. exists f. split; [exact Hf|].
      unfold looksLikeCetOrRedscript. unfold Legacy.matchRedscript in Hm.
      rewrite Hm. apply orb_true_r. }
    now rewrite Hc. }
  split.
  - unfold Legacy.testForRedscriptMod.
    destruct (Legacy.allRedscriptFiles files) as [|f r] eqn:Ea; [reflexivity|].
    simpl. apply H. discriminate.
  - unfold RedscriptInstaller.testForRedscriptMod.
    change (RedscriptInstaller.allRedscriptFiles files) with (Legacy.allRedscriptFiles files).
    destruct (Legacy.allRedscriptFiles files) as [|f r] eqn:Ea; [reflexivity|].
    simpl. apply H. discriminate.
Qed.

(** X4: the INI installer looks for its files with the extension [.ini]
    exactly as written, while the detector ignores case.  When no file
    has the extension [.ini] there is no file to examine, [path.join]
    is called with [undefined], and the installer throws instead of
    returning a promise, whatever the file system holds. *)
Theorem X4_ini_install_throws_without_ini_file
    (readFileSync : string -> option JS.text) (files : list string)
    (destinationPath : string) :
  (forall f, In f files -> isIniFile f = false) ->
  Legacy.installIniMod readFileSync files destinationPath = Thrown.
Proof.
  intros H. unfold Legacy.installIniMod, Legacy.testForReshadeFile.
  fold isIniFile. change (fun file : string => isIniFile file) with isIniFile.
  rewrite find_filter.
  destruct (find isIniFile files) as [f|] eqn:E; [|reflexivity].
  apply find_some in E. destruct E as [Hf Hi]. rewrite (H f Hf) in Hi. discriminate.
Qed.

Lemma X4_witness :
  supportedBy (Legacy.testForIniMod ["A.INI"] "cyberpunk2077") = true
  /\ Legacy.installIniMod (fun _ => Some (JS.textOf "[General]")) ["A.INI"] "C:\staging\m.installing"
     = Thrown.
Proof.
  split; [reflexivity|].
  apply (X4_ini_install_throws_without_ini_file (fun _ => Some (JS.textOf "[General]")) ["A.INI"]
           "C:\staging\m.installing").
  intros f [<-|[]]. reflexivity.
Defined.

(** ** The JSON detector and installer *)

Lemma testForJsonMod_cases (files : list string) (gameId : string) :
  Legacy.testForJsonMod files gameId
  = if negb (String.eqb gameId Legacy.GAME_ID) then Resolved Legacy.unsupported
    else if lengthIsZero (filter isJsonFile files) then Resolved Legacy.unsupported
    else if negb (lengthIsZero (filter isInitLua files)) then Resolved Legacy.unsupported
    else if existsb isOptionsJson (filter isJsonFile files) then
      if negb (existsb underSettings (filter isJsonFile files))
      then Rejected optionsMessage
      else Resolved (mkTestResult true [])
    else if existsb hasUnknownJsonName (filter isJsonFile files)
         then Rejected unknownJsonMessage
         else Resolved (mkTestResult true []).
Proof. reflexivity. Qed.

Lemma existsb_filter {A : Type} (p q : A -> bool) (l : list A) :
  existsb p (filter q l) = true <-> exists x, In x l /\ q x = true /\ p x = true.
Proof.
  rewrite existsb_exists. split.
  - intros [x [Hx Hp]]. apply filter_In in Hx. exists x. tauto.
  - intros [x [Hx [Hq Hp]]]. exists x. split; [apply filter_In; auto|exact Hp].
Qed.

Lemma existsb_filter_false {A : Type} (p q : A -> bool) (l : list A) :
  existsb p (filter q l) = false <-> forall x, In x l -> q x = true -> p x = false.
Proof.
  rewrite existsb_false_iff. split.
  - intros H x Hx Hq. apply H. apply filter_In. auto.
  - intros H x Hx. apply filter_In in Hx. destruct Hx. auto.
Qed.

Lemma lengthIsZero_filter_true_iff {A : Type} (p : A -> bool) (l : list A) :
  lengthIsZero (filter p l) = true <-> forall x, In x l -> p x = false.
Proof.
  split.
  - intros H x Hx. destruct (p x) eqn:E; [|reflexivity].
    assert (Hf : lengthIsZero (filter p l) = false) by (apply lengthIsZero_filter_iff; eauto).
    congruence.
  - intros H. destruct (lengthIsZero (filter p l)) eqn:E; [reflexivity|].
    apply lengthIsZero_filter_iff in E. destruct E as [x [Hx Hp]].
    rewrite (H x Hx) in Hp. discriminate.
Qed.

Lemma messages_differ : optionsMessage <> unknownJsonMessage.
Proof. discriminate. Qed.

Lemma testForJsonMod_supported (files : list string) (gameId : string) :
  supportedBy (Legacy.testForJsonMod files gameId) = true
  <-> gameId = Legacy.GAME_ID
      /\ (exists f, In f files /\ isJsonFile f = true)
      /\ (forall f, In f files -> isInitLua f = false)
      /\ (((exists f, In f files /\ isJsonFile f = true /\ isOptionsJson f = true)
           /\ (exists f, In f files /\ isJsonFile f = true /\ underSettings f = true))
          \/ ((forall f, In f files -> isJsonFile f = true -> isOptionsJson f = false)
              /\ (forall f, In f files -> isJsonFile f = true ->
                    hasUnknownJsonName f = false))).
Proof.
  rewrite testForJsonMod_cases.
  destruct (String.eqb gameId Legacy.GAME_ID) eqn:Eg; simpl negb; cbv iota.
  2:{ apply String.eqb_neq in Eg. simpl. split; [discriminate|]. intros [E _]. contradiction. }
  apply String.eqb_eq in Eg.
  destruct (lengthIsZero (filter isJsonFile files)) eqn:Ej.
  { pose proof (proj1 (lengthIsZero_filter_true_iff _ _) Ej) as Hj.
    simpl. split; [discriminate|]. intros [_ [[f [Hf Hjf]] _]].
    rewrite (Hj f Hf) in Hjf. discriminate. }
  apply lengthIsZero_filter_iff in Ej.
  destruct (lengthIsZero (filter isInitLua files)) eqn:Ei; simpl negb; cbv iota.
  2:{ apply lengthIsZero_filter_iff in Ei. destruct Ei as [f [Hf Hi]].
      simpl. split; [discriminate|]. intros [_ [_ [H _]]].
      rewrite (H f Hf) in Hi. discriminate. }
  pose proof (proj1 (lengthIsZero_filter_true_iff _ _) Ei) as Hi.
  destruct (existsb isOptionsJson (filter isJsonFile files)) eqn:Eo.
  - apply existsb_filter in Eo.
    destruct (existsb underSettings (filter isJsonFile files)) eqn:Eu; simpl negb; cbv iota.
    + apply existsb_filter in Eu. simpl. split; [|reflexivity]. intros _.
      split; [exact Eg|]. split; [exact Ej|]. split; [exact Hi|]. left. now split.
    + pose proof (proj1 (existsb_filter_false _ _ _) Eu) as Hu.
      simpl. split; [discriminate|].
      intros [_ [_ [_ [[_ [f [Hf [Hj Huf]]]]|[H _]]]]].
      * rewrite (Hu f Hf Hj) in Huf. discriminate.
      * destruct Eo as [f [Hf [Hj Ho]]]. rewrite (H f Hf Hj) in Ho. discriminate.
  - pose proof (proj1 (existsb_filter_false _ _ _) Eo) as Ho.
    destruct (existsb hasUnknownJsonName (filter isJsonFile files)) eqn:Ek.
    + apply existsb_filter in Ek. destruct Ek as [k [Hk [Hjk Hkk]]].
      simpl. split; [discriminate|].
      intros [_ [_ [_ [[[f [Hf [Hj Hof]]] _]|[_ H]]]]].
      * rewrite (Ho f Hf Hj) in Hof. discriminate.
      * rewrite (H k Hk Hjk) in Hkk. discriminate.
    + pose proof (proj1 (existsb_filter_false _ _ _) Ek) as Hk.
      simpl. split; [|reflexivity]. intros _.
      split; [exact Eg|]. split; [exact Ej|]. split; [exact Hi|]. right. now split.
Qed.

Lemma known_json_name (file : string) :
  hasUnknownJsonName file = false ->
  (Win32.basename file = "giweights.json"
   /\ knownJsonDestination file = "engine\config\giweights.json")
  \/ (Win32.basename file = "bumpersSettings.json"
      /\ knownJsonDestination file = "r6\config\bumpersSettings.json").
Proof.
  unfold hasUnknownJsonName, knownJsonDestination, Legacy.KNOWN_JSON_FILES.
  cbn [lookupKey].
  destruct (String.eqb (Win32.basename file) "giweights.json") eqn:E1.
  { intros _. left. apply String.eqb_eq in E1. split; [exact E1|reflexivity]. }
  destruct (String.eqb (Win32.basename file) "bumpersSettings.json") eqn:E2.
  { intros _. right. apply String.eqb_eq in E2. split; [exact E2|reflexivity]. }
  discriminate.
Qed.

Lemma basename_extname (file b : string) :
  Win32.basename file = b -> Win32.extname file = str (Win32.extOfComponent (unstr b)).
Proof.
  unfold Win32.basename, Win32.extname. intros <-. now rewrite unstr_str.
Qed.

Lemma known_json_name_exact (file : string) :
  hasUnknownJsonName file = false -> isJsonFileExact file = true.
Proof.
  intros H. unfold isJsonFileExact.
  destruct (known_json_name file H) as [[E _]|[E _]];
    rewrite (basename_extname _ _ E); reflexivity.
Qed.

Lemma installJsonMod_eq (files : list string) (destinationPath : string) :
  Legacy.installJsonMod files destinationPath
  = Resolved (map (fun f => Copy f (knownJsonDestination f))
                  (filter isJsonFileExact files ++ filter isTextFile files)).
Proof. reflexivity. Qed.

(** X5: when the JSON detector accepts a file list in which no JSON
    file is called [options.json], every JSON file of the list is one of
    the known files, and the installer copies it to its canonical place:
    [engine\config\giweights.json] or [r6\config\bumpersSettings.json]. *)
Theorem X5_accepted_json_files_go_to_known_places
    (files : list string) (gameId destinationPath : string) :
  supportedBy (Legacy.testForJsonMod files gameId) = true ->
  (forall f, In f files -> isJsonFile f = true -> isOptionsJson f = false) ->
  exists instructions,
    Legacy.installJsonMod files destinationPath = Resolved instructions
    /\ forall f, In f files -> isJsonFile f = true ->
         (Win32.basename f = "giweights.json"
          /\ In (Copy f "engine\config\giweights.json") instructions)
         \/ (Win32.basename f = "bumpersSettings.json"
             /\ In (Copy f "r6\config\bumpersSettings.json") instructions).
Proof.
  intros Hs Hno. rewrite installJsonMod_eq. eexists. split; [reflexivity|].
  intros f Hf Hj.
  apply testForJsonMod_supported in Hs.
  destruct Hs as [_ [_ [_ [[[o [Ho [Hjo Hoo]]] _]|[_ Hk]]]]].
  { rewrite (Hno o Ho Hjo) in Hoo. discriminate. }
  pose proof (Hk f Hf Hj) as Hkf.
  assert (Hin : In (Copy f (knownJsonDestination f))
                   (map (fun f => Copy f (knownJsonDestination f))
                        (filter isJsonFileExact files ++ filter isTextFile files))).
  { apply in_map_iff. exists f. split; [reflexivity|].
    apply in_or_app. left. apply filter_In. split; [exact Hf|].
    now apply known_json_name_exact. }
  destruct (known_json_name f Hkf) as [[E1 E2]|[E1 E2]]; rewrite E2 in Hin; auto.
Qed.

Lemma X5_witness :
  exists instructions,
    Legacy.installJsonMod ["a\giweights.json"; "readme.txt"] "C:\staging\m.installing"
    = Resolved instructions
    /\ forall f, In f ["a\giweights.json"; "readme.txt"] -> isJsonFile f = true ->
         (Win32.basename f = "giweights.json"
          /\ In (Copy f "engine\config\giweights.json") instructions)
         \/ (Win32.basename f = "bumpersSettings.json"
             /\ In (Copy f "r6\config\bumpersSettings.json") instructions).
Proof.
  apply (X5_accepted_json_files_go_to_known_places
           ["a\giweights.json"; "readme.txt"] "cyberpunk2077" "C:\staging\m.installing").
  - reflexivity.
  - intros f [<-|[<-|[]]]; reflexivity.
Defined.

Lemma knownJsonDestination_unknown (file : string) :
  hasUnknownJsonName file = true -> knownJsonDestination file = file.
Proof.
  unfold hasUnknownJsonName, knownJsonDestination.
  now destruct (lookupKey (Win32.basename file) Legacy.KNOWN_JSON_FILES).
Qed.

Lemma text_file_unknown (file : string) :
  isTextFile file = true -> hasUnknownJsonName file = true.
Proof.
  intros Ht. destruct (hasUnknownJsonName file) eqn:E; [reflexivity|].
  apply known_json_name_exact in E. unfold isJsonFileExact in E.
  apply String.eqb_eq in E. unfold isTextFile in Ht. rewrite E in Ht. discriminate.
Qed.

(** X6: the JSON installer always resolves, with one copy instruction for
    each [.json] file followed by one for each [.txt] or [.md] file, and
    nothing for any other file.  A text file and a JSON file whose base
    name is not a known one are copied to their own path. *)
Theorem X6_json_install_copies
    (files : list string) (destinationPath : string) :
  exists instructions,
    Legacy.installJsonMod files destinationPath = Resolved instructions
    /\ length instructions
       = length (filter isJsonFileExact files) + length (filter isTextFile files)
    /\ (forall i, In i instructions ->
          exists f, i = Copy f (knownJsonDestination f) /\ In f files
                    /\ (isJsonFileExact f = true \/ isTextFile f = true))
    /\ (forall f, In f files -> isTextFile f = true -> In (Copy f f) instructions)
    /\ (forall f, In f files -> isJsonFileExact f = true ->
          hasUnknownJsonName f = true -> In (Copy f f) instructions).
Proof.
  rewrite installJsonMod_eq. eexists. split; [reflexivity|].
  split; [now rewrite length_map, length_app|]. split; [|split].
  - intros i Hi. apply in_map_iff in Hi. destruct Hi as [f [<- Hf]].
    exists f. split; [reflexivity|]. apply in_app_or in Hf.
    destruct Hf as [Hf|Hf]; apply filter_In in Hf; destruct Hf; auto.
  - intros f Hf Ht. apply in_map_iff. exists f. split.
    + now rewrite (knownJsonDestination_unknown f (text_file_unknown f Ht)).
    + apply in_or_app. right. apply filter_In. auto.
  - intros f Hf Hj Hu. apply in_map_iff. exists f. split.
    + now rewrite (knownJsonDestination_unknown f Hu).
    + apply in_or_app. left. apply filter_In. auto.
Qed.

(** X7: the outcomes of the JSON detector.  It never throws and rejects
    with one of two messages.  It rejects with the first exactly when the
    game is [cyberpunk2077], no file is an [init.lua], some JSON file is
    called [options.json] and no JSON file lies in a directory that starts
    with [r6\config\settings]; with the second exactly when, for that game
    and without [init.lua], no JSON file is called [options.json] and some
    JSON file has a base name that is not a known one.  It accepts exactly
    when, for that game, with a JSON file and without [init.lua], either
    there is an [options.json] and a JSON file under [r6\config\settings],
    or there is no [options.json] and every JSON file is a known one. *)
Theorem X7_json_detector_outcomes (files : list string) (gameId : string) :
  (Legacy.testForJsonMod files gameId <> Thrown
   /\ (forall message, Legacy.testForJsonMod files gameId = Rejected message ->
         message = optionsMessage \/ message = unknownJsonMessage)
   /\ (Legacy.testForJsonMod files gameId = Rejected optionsMessage
       <-> gameId = Legacy.GAME_ID
           /\ (forall f, In f files -> isInitLua f = false)
           /\ (exists f, In f files /\ isJsonFile f = true /\ isOptionsJson f = true)
           /\ (forall f, In f files -> isJsonFile f = true -> underSettings f = false))
   /\ (Legacy.testForJsonMod files gameId = Rejected unknownJsonMessage
       <-> gameId = Legacy.GAME_ID
           /\ (forall f, In f files -> isInitLua f = false)
           /\ (forall f, In f files -> isJsonFile f = true -> isOptionsJson f = false)
           /\ (exists f, In f files /\ isJsonFile f = true
                         /\ hasUnknownJsonName f = true)))
  /\ (supportedBy (Legacy.testForJsonMod files gameId) = true
      <-> gameId = Legacy.GAME_ID
          /\ (exists f, In f files /\ isJsonFile f = true)
          /\ (forall f, In f files -> isInitLua f = false)
          /\ (((exists f, In f files /\ isJsonFile f = true /\ isOptionsJson f = true)
               /\ (exists f, In f files /\ isJsonFile f = true /\ underSettings f = true))
              \/ ((forall f, In f files -> isJsonFile f = true -> isOptionsJson f = false)
                  /\ (forall f, In f files -> isJsonFile f = true ->
                        hasUnknownJsonName f = false)))).
Proof.
  split; [|apply testForJsonMod_supported].
  rewrite testForJsonMod_cases.
  destruct (String.eqb gameId Legacy.GAME_ID) eqn:Eg; simpl negb; cbv iota.
  2:{ apply String.eqb_neq in Eg.
      split; [discriminate|]. split; [discriminate|].
      split; (split; [discriminate|]); intros [E _]; contradiction. }
  apply String.eqb_eq in Eg.
  destruct (lengthIsZero (filter isJsonFile files)) eqn:Ej.
  { pose proof (proj1 (lengthIsZero_filter_true_iff _ _) Ej) as Hj.
    split; [discriminate|]. split; [discriminate|].
    split; (split; [discriminate|]).
    - intros [_ [_ [[f [Hf [Hjf _]]] _]]]. rewrite (Hj f Hf) in Hjf. discriminate.
    - intros [_ [_ [_ [f [Hf [Hjf _]]]]]]. rewrite (Hj f Hf) in Hjf. discriminate. }
  destruct (lengthIsZero (filter isInitLua files)) eqn:Ei; simpl negb; cbv iota.
  2:{ apply lengthIsZero_filter_iff in Ei. destruct Ei as [f [Hf Hi]].
      split; [discriminate|]. split; [discriminate|].
      split; (split; [discriminate|]); intros [_ [H _]];
        rewrite (H f Hf) in Hi; discriminate. }
  pose proof (proj1 (lengthIsZero_filter_true_iff _ _) Ei) as Hi.
  destruct (existsb isOptionsJson (filter isJsonFile files)) eqn:Eo.
  - apply existsb_filter in Eo.
    destruct (existsb underSettings (filter isJsonFile files)) eqn:Eu; simpl negb; cbv iota.
    + apply existsb_filter in Eu. destruct Eu as [u [Hu [Hju Huu]]].
      split; [discriminate|]. split; [discriminate|].
      split; (split; [discriminate|]).
      * intros [_ [_ [_ H]]]. rewrite (H u Hu Hju) in Huu. discriminate.
      * intros [_ [_ [H _]]]. destruct Eo as [f [Hf [Hj Ho]]].
        rewrite (H f Hf Hj) in Ho. discriminate.
    + split; [discriminate|]. split; [intros m [= <-]; now left|].
      split.
      * split; [|reflexivity]. intros _. split; [exact Eg|]. split; [exact Hi|].
        split; [exact Eo|]. now apply existsb_filter_false.
      * split; [intros [= H]; now elim messages_differ|].
        intros [_ [_ [H _]]]. destruct Eo as [f [Hf [Hj Ho]]].
        rewrite (H f Hf Hj) in Ho. discriminate.
  - pose proof (proj1 (existsb_filter_false _ _ _) Eo) as Ho.
    destruct (existsb hasUnknownJsonName (filter isJsonFile files)) eqn:Ek.
    + split; [discriminate|]. split; [intros m [= <-]; now right|].
      split.
      * split; [intros [= H]; symmetry in H; now elim messages_differ|].
        intros [_ [_ [[f [Hf [Hj Hof]]] _]]]. rewrite (Ho f Hf Hj) in Hof. discriminate.
      * split; [|reflexivity]. intros _. split; [exact Eg|]. split; [exact Hi|].
        split; [exact Ho|]. now apply existsb_filter.
    + pose proof (proj1 (existsb_filter_false _ _ _) Ek) as Hk.
      split; [discriminate|]. split; [discriminate|].
      split; (split; [discriminate|]).
      * intros [_ [_ [[f [Hf [Hj Hof]]] _]]]. rewrite (Ho f Hf Hj) in Hof. discriminate.
      * intros [_ [_ [_ [f [Hf [Hj Hkf]]]]]]. rewrite (Hk f Hf Hj) in Hkf. discriminate.
Qed.

(** ** The archive-only detector *)

Lemma filter_length_all {A : Type} (p : A -> bool) (l : list A) :
  length (filter p l) = length l -> forall x, In x l -> p x = true.
Proof.
  induction l as [|a l IH]; simpl; [intros _ x []|].
  pose proof (filter_length_le p l) as Hle.
  destruct (p a) eqn:E; simpl.
  - intros H x [<-|Hx]; [exact E|]. apply IH; [lia|exact Hx].
  - intros H. lia.
Qed.

Lemma includes_filtered (p : string -> bool) (files : list string) (f : string) :
  In f files -> existsb (String.eqb f) (filter p files) = p f.
Proof.
  intros Hf. destruct (p f) eqn:E.
  - apply existsb_exists. exists f. split; [apply filter_In; auto|apply String.eqb_refl].
  - apply existsb_false_iff. intros x Hx. apply filter_In in Hx. destruct Hx as [_ Hp].
    apply String.eqb_neq. intros ->. congruence.
Qed.

Lemma testForArchiveOnlyMod_cases (files : list string) (gameId : string) :
  Legacy.testForArchiveOnlyMod files gameId
  = if negb (String.eqb gameId Legacy.GAME_ID) then Resolved (mkTestResult false [])
    else if lengthIsZero (filter isArchiveFileAnyCase files)
    then Resolved (mkTestResult false [])
    else if (length (filter isArchiveFileAnyCase files) <? length files)%nat then
      if existsb inImportantBaseDir
                 (filter (fun f => negb (existsb (String.eqb f)
                                                 (filter isArchiveFileAnyCase files)))
                         files)
      then Resolved (mkTestResult false [])
      else Resolved (mkTestResult true [])
    else if (length files =? length (filter isArchiveFileAnyCase files))%nat
         then Resolved (mkTestResult true [])
         else Resolved (mkTestResult false []).
Proof. reflexivity. Qed.

(** The files left over when the archives are taken out, and that lie
    under one of the important directories. *)
Lemma leftovers_in_important_dirs (files : list string) :
  existsb inImportantBaseDir
          (filter (fun f => negb (existsb (String.eqb f)
                                          (filter isArchiveFileAnyCase files)))
                  files) = true
  <-> exists f, In f files /\ isArchiveFileAnyCase f = false /\ inImportantBaseDir f = true.
Proof.
  rewrite existsb_filter. split.
  - intros [f [Hf [Hu Hi]]]. exists f. split; [exact Hf|].
    rewrite (includes_filtered _ _ _ Hf) in Hu. apply negb_true_iff in Hu.
    split; [exact Hu|exact Hi].
  - intros [f [Hf [Hu Hi]]]. exists f. split; [exact Hf|].
    rewrite (includes_filtered _ _ _ Hf), Hu. split; [reflexivity|exact Hi].
Qed.

Lemma archive_detector_leftovers (files : list string) (gameId : string) :
  supportedBy (Legacy.testForArchiveOnlyMod files gameId) = true ->
  forall f, In f files -> isArchiveFileAnyCase f = false -> inImportantBaseDir f = false.
Proof.
  rewrite testForArchiveOnlyMod_cases. intros Hs f Hf Hu.
  destruct (negb (String.eqb gameId Legacy.GAME_ID)); [discriminate|].
  destruct (lengthIsZero (filter isArchiveFileAnyCase files)); [discriminate|].
  destruct (length (filter isArchiveFileAnyCase files) <? length files)%nat.
  - destruct (existsb inImportantBaseDir _) eqn:E; [discriminate|].
    destruct (inImportantBaseDir f) eqn:Ei; [|reflexivity].
    assert (H : existsb inImportantBaseDir
                  (filter (fun f => negb (existsb (String.eqb f)
                                                  (filter isArchiveFileAnyCase files)))
                          files) = true)
      by (apply leftovers_in_important_dirs; eauto).
    congruence.
  - destruct (length files =? length (filter isArchiveFileAnyCase files))%nat eqn:El;
      [|discriminate].
    apply Nat.eqb_eq in El. symmetry in El.
    rewrite (filter_length_all _ _ El f Hf) in Hu. discriminate.
Qed.

(** X8: the archive-only detector never rejects, and it reports
    [supported] exactly when the game is [cyberpunk2077], some file has the
    extension [.archive] in any case, and no other file lies in a directory
    whose first component is [bin], [r6] or [red4ext]. *)
Theorem X8_archive_detector (files : list string) (gameId : string) :
  (exists r, Legacy.testForArchiveOnlyMod files gameId = Resolved r)
  /\ (supportedBy (Legacy.testForArchiveOnlyMod files gameId) = true
      <-> gameId = Legacy.GAME_ID
          /\ (exists f, In f files /\ isArchiveFileAnyCase f = true)
          /\ (forall f, In f files -> isArchiveFileAnyCase f = false ->
                inImportantBaseDir f = false)).
Proof.
  split.
  { rewrite testForArchiveOnlyMod_cases.
    destruct (negb _); [eauto|]. destruct (lengthIsZero _); [eauto|].
    destruct (_ <? _)%nat; [destruct (existsb _ _); eauto|].
    destruct (_ =? _)%nat; eauto. }
  split.
  - intros Hs. split; [|split; [|exact (archive_detector_leftovers files gameId Hs)]].
    + rewrite testForArchiveOnlyMod_cases in Hs.
      destruct (String.eqb gameId Legacy.GAME_ID) eqn:Eg; [|discriminate].
      now apply String.eqb_eq in Eg.
    + rewrite testForArchiveOnlyMod_cases in Hs.
      destruct (negb _); [discriminate|].
      destruct (lengthIsZero (filter isArchiveFileAnyCase files)) eqn:Ea; [discriminate|].
      now apply lengthIsZero_filter_iff in Ea.
  - intros [Eg [Ea Hclean]]. rewrite testForArchiveOnlyMod_cases.
    apply String.eqb_eq in Eg. rewrite Eg. simpl negb. cbv iota.
    apply lengthIsZero_filter_iff in Ea. rewrite Ea.
    pose proof (filter_length_le isArchiveFileAnyCase files) as Hle.
    destruct (length (filter isArchiveFileAnyCase files) <? length files)%nat eqn:El.
    + destruct (existsb inImportantBaseDir _) eqn:E; [|reflexivity].
      apply leftovers_in_important_dirs in E. destruct E as [f [Hf [Hu Hi]]].
      rewrite (Hclean f Hf Hu) in Hi. discriminate.
    + apply Nat.ltb_ge in El.
      assert (Hlen : length files = length (filter isArchiveFileAnyCase files)) by lia.
      rewrite <- Hlen, Nat.eqb_refl. reflexivity.
Qed.

Lemma dropWhile_app_stop {A : Type} (p : A -> bool) (a b : list A) (x : A) :
  p x = false -> dropWhile p (a ++ x :: b) = dropWhile p a ++ x :: b.
Proof.
  intros Hx. induction a as [|y a IH]; simpl.
  - now rewrite Hx.
  - destruct (p y); [exact IH|reflexivity].
Qed.

Lemma dropWhile_app_inside {A : Type} (p : A -> bool) (a b : list A) :
  existsb (fun x => negb (p x)) a = true -> dropWhile p (a ++ b) = dropWhile p a ++ b.
Proof.
  induction a as [|y a IH]; simpl; [discriminate|].
  destruct (p y); simpl; [exact IH|reflexivity].
Qed.

Lemma existsb_rev {A : Type} (p : A -> bool) (l : list A) :
  existsb p (rev l) = existsb p l.
Proof.
  destruct (existsb p l) eqn:E.
  - apply existsb_exists in E. destruct E as [x [Hx Hp]].
    apply existsb_exists. exists x. split; [now apply in_rev in Hx|exact Hp].
  - apply existsb_false_iff. intros x Hx. apply in_rev in Hx.
    exact (proj1 (existsb_false_iff _ _) E x Hx).
Qed.

Lemma splitBackslash_free (d : chars) :
  forallb (fun c => negb (Ascii.eqb c cBackslash)) d = true -> splitBackslash d = [d].
Proof.
  induction d as [|c d IH]; simpl; [reflexivity|].
  intros H. apply andb_true_iff in H. destruct H as [Hc Hd].
  apply negb_true_iff in Hc. rewrite Hc, (IH Hd). reflexivity.
Qed.

Lemma splitBackslash_head (d t : chars) :
  forallb (fun c => negb (Ascii.eqb c cBackslash)) d = true ->
  hd [] (splitBackslash (d ++ cBackslash :: t)) = d.
Proof.
  induction d as [|c d IH]; simpl.
  - intros _. reflexivity.
  - intros H. apply andb_true_iff in H. destruct H as [Hc Hd].
    apply negb_true_iff in Hc. rewrite Hc. specialize (IH Hd).
    destruct (splitBackslash (d ++ cBackslash :: t)) as [|seg segs]; simpl in *; now subst.
Qed.

Lemma notSep_not_backslash (d : chars) :
  forallb Win32.notSep d = true ->
  forallb (fun c => negb (Ascii.eqb c cBackslash)) d = true.
Proof.
  intros H. apply forallb_forall. intros c Hc.
  pose proof (proj1 (forallb_forall _ _) H c Hc) as Hn.
  unfold Win32.notSep, Win32.isPathSeparator in Hn.
  apply negb_true_iff in Hn. apply orb_false_iff in Hn. destruct Hn as [_ Hn].
  apply negb_true_iff. exact Hn.
Qed.

(** The directory of [d\rest] starts with the component [d]. *)
Lemma dirname_first_component (d rest : chars) :
  d <> [] -> forallb Win32.notSep d = true ->
  startsRelative (d ++ cBackslash :: rest) = true ->
  existsb Win32.notSep rest = true ->
  hd [] (splitBackslash (unstr (Win32.dirname (str (d ++ cBackslash :: rest))))) = d.
Proof.
  intros Hne Hd Hrel Hrest.
  unfold Win32.dirname. rewrite unstr_str.
  destruct d as [|c0 d']; [now elim Hne|].
  destruct rest as [|r0 rest']; [discriminate|].
  assert (Hshape : exists c1 tl, (c0 :: d') ++ cBackslash :: r0 :: rest' = c0 :: c1 :: tl).
  { destruct d'; simpl; eauto. }
  destruct Hshape as [c1 [tl Hshape]].
  set (pc := (c0 :: d') ++ cBackslash :: r0 :: rest') in *.
  rewrite Hshape. rewrite <- Hshape.
  assert (H0 : Win32.isPathSeparator c0 = false).
  { simpl in Hd. apply andb_true_iff in Hd. destruct Hd as [Hd _].
    now apply negb_true_iff in Hd. }
  rewrite H0.
  assert (Hdrive : Win32.isWindowsDeviceRoot c0 && Ascii.eqb c1 ":" = false).
  { unfold startsRelative in Hrel. rewrite Hshape in Hrel.
    apply andb_true_iff in Hrel. destruct Hrel as [_ Hrel].
    now apply negb_true_iff in Hrel. }
  rewrite Hdrive. simpl skipn.
  assert (Hrev : rev pc = rev (r0 :: rest') ++ cBackslash :: rev (c0 :: d')).
  { unfold pc. rewrite rev_app_distr. simpl rev at 1.
    now rewrite <- app_assoc. }
  rewrite Hrev.
  rewrite dropWhile_app_inside.
  2:{ rewrite existsb_rev. exact Hrest. }
  rewrite dropWhile_app_stop.
  2:{ unfold Win32.notSep. now rewrite cBackslash_sep. }
  set (r2 := dropWhile Win32.notSep (dropWhile Win32.isPathSeparator (rev (r0 :: rest')))).
  destruct (r2 ++ cBackslash :: rev (c0 :: d')) as [|x xs] eqn:Er.
  { destruct r2; discriminate. }
  rewrite <- Er. rewrite unstr_str.
  replace (0 + length (r2 ++ cBackslash :: rev (c0 :: d')) - 1)
    with (length (c0 :: d') + length r2).
  2:{ rewrite length_app. change (cBackslash :: rev (c0 :: d')) with ([cBackslash] ++ rev (c0 :: d')).
      rewrite length_app, length_rev. simpl. lia. }
  unfold pc. rewrite firstn_app_2.
  destruct (length r2) as [|n].
  - simpl firstn. rewrite app_nil_r. rewrite splitBackslash_free; [reflexivity|].
    now apply notSep_not_backslash.
  - simpl firstn. apply splitBackslash_head. now apply notSep_not_backslash.
Qed.

Lemma inImportantBaseDir_under (d rest : string) :
  In d ["bin"; "r6"; "red4ext"] ->
  existsb Win32.notSep (unstr rest) = true ->
  inImportantBaseDir (d ++ "\" ++ rest) = true.
Proof.
  intros Hd Hrest. unfold inImportantBaseDir, firstDirComponent.
  assert (E : hd [] (splitBackslash (unstr (Win32.dirname (d ++ "\" ++ rest)%string)))
              = unstr d).
  { rewrite <- (str_unstr (d ++ "\" ++ rest)%string). rewrite !unstr_app.
    change (unstr "\") with [cBackslash]. simpl app.
    destruct Hd as [<-|[<-|[<-|[]]]];
      (apply dirname_first_component; [discriminate|reflexivity|reflexivity|exact Hrest]). }
  rewrite E, str_unstr.
  destruct Hd as [<-|[<-|[<-|[]]]]; reflexivity.
Qed.

(** X9: a file list with a file under [bin\], [r6\] or [red4ext\] that
    is not an archive is never accepted by the archive-only detector,
    however many archives it has. *)
Theorem X9_archive_detector_leaves_other_mod_folders
    (files : list string) (gameId d rest : string) :
  In d ["bin"; "r6"; "red4ext"] ->
  existsb Win32.notSep (unstr rest) = true ->
  In (d ++ "\" ++ rest)%string files ->
  isArchiveFileAnyCase (d ++ "\" ++ rest) = false ->
  supportedBy (Legacy.testForArchiveOnlyMod files gameId) = false.
Proof.
  intros Hd Hrest Hin Hna.
  destruct (supportedBy (Legacy.testForArchiveOnlyMod files gameId)) eqn:E; [|reflexivity].
  pose proof (archive_detector_leftovers files gameId E _ Hin Hna) as H.
  rewrite (inImportantBaseDir_under d rest Hd Hrest) in H. discriminate.
Qed.

Lemma X9_witness :
  supportedBy (Legacy.testForArchiveOnlyMod
                 ["archive\pc\mod\a.archive"; "r6\scripts\m\a.reds"] "cyberpunk2077")
  = false.
Proof.
  apply (X9_archive_detector_leaves_other_mod_folders
           ["archive\pc\mod\a.archive"; "r6\scripts\m\a.reds"] "cyberpunk2077"
           "r6" "scripts\m\a.reds").
  - right. left. reflexivity.
  - reflexivity.
  - right. left. reflexivity.
  - reflexivity.
Defined.

(** ** The CET and the mixed installer *)

(** X10: the mixed detector accepts exactly the file lists that both the
    CET detector and the Redscript detector accept, for any implementation
    of the key tree. *)
Theorem X10_mixed_is_cet_and_redscript `{KT : KeyTreeLib}
    (files : list string) (gameId gameId' gameId'' : string) :
  supportedBy (Legacy.testForRedCetMixedMod files gameId)
  = supportedBy (Legacy.testForCetMod files gameId')
    && supportedBy (Legacy.testForRedscriptMod files gameId'').
Proof.
  rewrite (testForRedCetMixedMod_supported files gameId gameId'). f_equal.
  unfold Legacy.testForRedscriptMod.
  now destruct (lengthIsZero (Legacy.allRedscriptFiles files)).
Qed.

Lemma length_eqb_0 {A : Type} (l : list A) : (length l =? 0)%nat = lengthIsZero l.
Proof. now destruct l. Qed.

Lemma installCetMod_resolves `{KT : KeyTreeLib} (files : list string)
    (destinationPath : string) :
  Legacy.allCanonicalCetFiles files <> [] ->
  Legacy.installCetMod files destinationPath
  = Resolved (map verbatim
                  (regularFiles (Legacy.allCanonicalCetFiles files
                                 ++ Legacy.allCanonicalArchiveOnlyFiles files))).
Proof.
  intros Hc. unfold Legacy.installCetMod. rewrite length_eqb_0.
  unfold Legacy.instructionsForSameSourceAndDestPaths. rewrite instructions_verbatim.
  destruct (Legacy.allCanonicalCetFiles files); [now elim Hc|reflexivity].
Qed.

Lemma installableReds_one `{KT : KeyTreeLib} (files : list string) :
  length (Legacy.installableReds files) = 1
  <-> (Legacy.canonRedsModFiles files <> [] /\ Legacy.redsDirReds files = [])
      \/ (Legacy.canonRedsModFiles files = [] /\ Legacy.redsDirReds files <> []).
Proof.
  unfold Legacy.installableReds. simpl filter.
  destruct (Legacy.canonRedsModFiles files) as [|a la];
    destruct (Legacy.redsDirReds files) as [|b lb]; simpl; split; intros H.
  - discriminate.
  - destruct H as [[H _]|[_ H]]; now elim H.
  - right. split; [reflexivity|discriminate].
  - reflexivity.
  - left. split; [discriminate|reflexivity].
  - reflexivity.
  - discriminate.
  - destruct H as [[_ H]|[H _]]; discriminate.
Qed.

(** X12: the mixed installer refuses a mod with Redscript files at the
    top level before it looks at anything else, with the structure dialog.
    When it resolves, nothing was shown, there are CET files and exactly
    one of the two Redscript locations is in use; the files of
    [r6\scripts\<mod>\], of the CET directory and of the archive
    directory are copied to their own path, and the Redscript files
    directly in [r6\scripts] go to the directory named after the first CET
    mod.  A rejection without a dialog has one of two messages. *)
Theorem X12_mixed_install `{KT : KeyTreeLib} (files : list string) (destinationPath : string) :
  (Legacy.topLevelReds files <> [] ->
   Legacy.installRedCetMixedMod files destinationPath
   = ([Legacy.RedCetMixedStructureErrorDialog Legacy.mixedStructureMessage files],
      Rejected Legacy.mixedStructureMessage))
  /\ (forall ui instructions,
        Legacy.installRedCetMixedMod files destinationPath = (ui, Resolved instructions) ->
        ui = []
        /\ Legacy.topLevelReds files = []
        /\ Legacy.allCanonicalCetFiles files <> []
        /\ ((Legacy.canonRedsModFiles files <> [] /\ Legacy.redsDirReds files = [])
            \/ (Legacy.canonRedsModFiles files = [] /\ Legacy.redsDirReds files <> []))
        /\ exists modName,
            Legacy.firstCetModName files = Some modName
            /\ instructions
               = map verbatim (regularFiles (Legacy.canonRedsModFiles files))
                 ++ Legacy.instructionsForSourceToDestPairs
                      (map (Legacy.toDirInPath Legacy.REDS_MOD_CANONICAL_PATH_PREFIX modName)
                           (Legacy.redsDirReds files))
                 ++ map verbatim (regularFiles (Legacy.allCanonicalCetFiles files))
                 ++ map verbatim (regularFiles (Legacy.allCanonicalArchiveOnlyFiles files)))
  /\ (forall ui message,
        Legacy.installRedCetMixedMod files destinationPath = (ui, Rejected message) ->
        ui = [] -> 
        message = Legacy.mixedNoCetFilesMessage \/ message = Legacy.noRedscriptMessage).
Proof.
  unfold Legacy.installRedCetMixedMod. rewrite ltb_0_length, length_eqb_0.
  destruct (Legacy.topLevelReds files) as [|t ts] eqn:Et; simpl lengthIsZero; simpl negb;
    cbv iota.
  2:{ split; [reflexivity|]. split; [intros ? ? H; discriminate|].
      intros ui m [= <- _] H. discriminate. }
  split; [intros H; now elim H|].
  destruct (lengthIsZero (Legacy.allCanonicalCetFiles files)) eqn:Ec.
  { split; [intros ? ? H; discriminate|]. intros ui m [= _ <-] _. now left. }
  assert (Hc : Legacy.allCanonicalCetFiles files <> [])
    by (intros E; rewrite E in Ec; discriminate).
  pose proof (installableReds_one files) as Hone.
  destruct (length (Legacy.installableReds files)) as [|[|n]] eqn:El; simpl Nat.eqb;
    simpl Nat.ltb; cbv iota.
  - split; [intros ? ? H; discriminate|]. intros ui m [= _ <-] _. now right.
  - destruct (Legacy.firstCetModName files) as [modName|] eqn:Em.
    + split.
      * intros ui instructions [= <- <-]. split; [reflexivity|]. split; [reflexivity|].
        split; [exact Hc|]. split; [now apply Hone|]. exists modName.
        split; [reflexivity|]. simpl flat_map. rewrite !instructions_verbatim.
        now rewrite app_nil_r.
      * intros ? ? H. discriminate.
    + split; intros ? ? H; discriminate.
  - split; [intros ? ? H; discriminate|]. intros ui m [= <- _] H. discriminate.
Qed.

Lemma X12_witness :
  Legacy.allCanonicalCetFiles (KT := FlatKeyTree.lib)
    ["bin\x64\plugins\cyber_engine_tweaks\mods\MyMod\init.lua"; "r6\scripts\main.reds"]
  <> []
  /\ ((Legacy.canonRedsModFiles (KT := FlatKeyTree.lib)
         ["bin\x64\plugins\cyber_engine_tweaks\mods\MyMod\init.lua"; "r6\scripts\main.reds"]
       <> []
       /\ Legacy.redsDirReds (KT := FlatKeyTree.lib)
            ["bin\x64\plugins\cyber_engine_tweaks\mods\MyMod\init.lua"; "r6\scripts\main.reds"]
          = [])
      \/ (Legacy.canonRedsModFiles (KT := FlatKeyTree.lib)
            ["bin\x64\plugins\cyber_engine_tweaks\mods\MyMod\init.lua"; "r6\scripts\main.reds"]
          = []
          /\ Legacy.redsDirReds (KT := FlatKeyTree.lib)
               ["bin\x64\plugins\cyber_engine_tweaks\mods\MyMod\init.lua";
                "r6\scripts\main.reds"]
             <> [])).
Proof.
  pose proof (proj1 (proj2 (X12_mixed_install (KT := FlatKeyTree.lib)
                              ["bin\x64\plugins\cyber_engine_tweaks\mods\MyMod\init.lua";
                               "r6\scripts\main.reds"]
                              "C:\staging\m.installing"))
                    []
                    [ Copy "r6\scripts\main.reds" "r6\scripts\MyMod\main.reds";
                      Copy "bin\x64\plugins\cyber_engine_tweaks\mods\MyMod\init.lua"
                           "bin\x64\plugins\cyber_engine_tweaks\mods\MyMod\init.lua" ]
                    eq_refl) as H.
  exact (conj (proj1 (proj2 (proj2 H))) (proj1 (proj2 (proj2 (proj2 H))))).
Defined.

(** ** The archive layouts *)

Lemma fold_layoutStep_found (tree : FileTree.FileTree)
    (layouts : list Legacy.InstructionsFromFileTree) (found : Legacy.Instructions) :
  Legacy.instructions found <> [] ->
  fold_left (layoutStep tree) layouts found = found.
Proof.
  intros H. induction layouts as [|l layouts IH]; simpl; [reflexivity|].
  unfold layoutStep at 2. destruct (Legacy.instructions found) eqn:E; [now elim H|].
  simpl. rewrite <- E in H. exact IH.
Qed.

Lemma last_cons_default {A : Type} (a : A) (l : list A) (d d' : A) :
  last (a :: l) d = last (a :: l) d'.
Proof.
  revert a. induction l as [|b l IH]; intros a; [reflexivity|].
  change (last (b :: l) d = last (b :: l) d'). apply IH.
Qed.

Lemma fold_layoutStep_none (tree : FileTree.FileTree)
    (layouts : list Legacy.InstructionsFromFileTree) (found : Legacy.Instructions) :
  Legacy.instructions found = [] ->
  (forall l, In l layouts -> Legacy.instructions (l tree) = []) ->
  fold_left (layoutStep tree) layouts found = last (map (fun l => l tree) layouts) found.
Proof.
  revert found. induction layouts as [|l layouts IH]; intros found Hf Hall; simpl;
    [reflexivity|].
  unfold layoutStep at 2. rewrite Hf. simpl.
  rewrite IH.
  - destruct layouts as [|y ys]; [reflexivity|].
    change (last (map (fun l0 => l0 tree) (y :: ys)) (l tree)
            = last (map (fun l0 => l0 tree) (y :: ys)) found).
    apply last_cons_default.
  - apply Hall. now left.
  - intros l' Hl'. apply Hall. now right.
Qed.

Lemma useFirstMatchingLayout_fold (fileTree : FileTree.FileTree)
    (possibleLayouts : list Legacy.InstructionsFromFileTree) :
  Legacy.useFirstMatchingLayoutForInstructions possibleLayouts fileTree
  = fold_left (layoutStep fileTree) possibleLayouts
              (Legacy.mkInstructions Legacy.Invalid []).
Proof. reflexivity. Qed.

(** X13: for any list of layouts, [useFirstMatchingLayoutForInstructions]
    returns what the first layout with an instruction returns.  When no
    layout has an instruction it returns what the last layout returns, with
    that layout's kind: the kind [Invalid] is only returned for an empty
    list of layouts. *)
Theorem X13_first_matching_layout (fileTree : FileTree.FileTree)
    (possibleLayouts : list Legacy.InstructionsFromFileTree) :
  (possibleLayouts = [] ->
   Legacy.useFirstMatchingLayoutForInstructions possibleLayouts fileTree
   = Legacy.mkInstructions Legacy.Invalid [])
  /\ (forall before layout after,
        possibleLayouts = before ++ layout :: after ->
        (forall l, In l before -> Legacy.instructions (l fileTree) = []) ->
        Legacy.instructions (layout fileTree) <> [] ->
        Legacy.useFirstMatchingLayoutForInstructions possibleLayouts fileTree
        = layout fileTree)
  /\ (forall before layout,
        possibleLayouts = before ++ [layout] ->
        (forall l, In l possibleLayouts -> Legacy.instructions (l fileTree) = []) ->
        Legacy.useFirstMatchingLayoutForInstructions possibleLayouts fileTree
        = layout fileTree).
Proof.
  rewrite useFirstMatchingLayout_fold.
  split; [intros ->; reflexivity|]. split.
  - intros before layout after -> Hb Hl.
    rewrite fold_left_app. rewrite (fold_layoutStep_none fileTree before
               (Legacy.mkInstructions Legacy.Invalid []) eq_refl Hb).
    simpl fold_left. unfold layoutStep at 2.
    assert (E : Legacy.instructions
                  (last (map (fun l => l fileTree) before)
                        (Legacy.mkInstructions Legacy.Invalid [])) = []).
    { destruct before as [|b before] using rev_ind; [reflexivity|].
      rewrite map_app. simpl map. rewrite last_last. apply Hb, in_or_app. right. now left. }
    rewrite E. simpl. now apply fold_layoutStep_found.
  - intros before layout -> Hall.
    rewrite (fold_layoutStep_none fileTree _
               (Legacy.mkInstructions Legacy.Invalid []) eq_refl Hall).
    rewrite map_app. simpl map. now rewrite last_last.
Qed.

Lemma X13_witness :
  Legacy.useFirstMatchingLayoutForInstructions Legacy.possibleLayoutsToTryInOrder
    (FileTree.fileTreeFromPaths ["archive\pc\patch\x.archive"])
  = Legacy.mkInstructions Legacy.Heritage
      [Copy "archive\pc\patch\x.archive" "archive\pc\mod\x.archive"].
Proof.
  refine (proj1 (proj2 (X13_first_matching_layout
                          (FileTree.fileTreeFromPaths ["archive\pc\patch\x.archive"])
                          Legacy.possibleLayoutsToTryInOrder))
                [Legacy.archiveCanonInstructions] Legacy.archiveOldToNewCanonInstructions
                [Legacy.archiveOtherDirsToCanonInstructions] eq_refl _ _).
  - intros l [<-|[]]. reflexivity.
  - discriminate.
Defined.

Lemma canonicalArchiveDir_clean :
  cleanDir (unstr "archive\pc\mod\") [unstr "archive"; unstr "pc"; unstr "mod"].
Proof.
  unfold cleanDir. split; [reflexivity|]. split; [discriminate|]. split; reflexivity.
Qed.

Lemma join_canonical_archive_dir (segs : list chars) :
  segs <> [] -> forallb ordinarySeg segs = true ->
  Win32.join [Legacy.ARCHIVE_ONLY_CANONICAL_PREFIX; FileTree.render segs]
  = ("archive\pc\mod\" ++ FileTree.render segs)%string.
Proof.
  intros Hne Hs. change Legacy.ARCHIVE_ONLY_CANONICAL_PREFIX with (str (unstr "archive\pc\mod\")).
  unfold FileTree.render.
  rewrite (join_cleanDir _ _ _ canonicalArchiveDir_clean Hne Hs).
  now rewrite str_app, str_unstr.
Qed.

Lemma replace_heritage_prefix (r : string) :
  JS.replace ("archive\pc\patch\" ++ r)
             (Win32.normalize Legacy.ARCHIVE_ONLY_TRADITIONAL_WRONG_PREFIX)
             (Win32.normalize Legacy.ARCHIVE_ONLY_CANONICAL_PREFIX)
  = ("archive\pc\mod\" ++ r)%string.
Proof.
  change (Win32.normalize Legacy.ARCHIVE_ONLY_TRADITIONAL_WRONG_PREFIX)
    with (str (unstr "archive\pc\patch\")).
  change (Win32.normalize Legacy.ARCHIVE_ONLY_CANONICAL_PREFIX)
    with (str (unstr "archive\pc\mod\")).
  rewrite <- (str_unstr ("archive\pc\patch\" ++ r)%string), unstr_app.
  rewrite replace_prefix by reflexivity.
  now rewrite str_app, !str_unstr.
Qed.

(** X14: where the archive layouts send a file.  The Canon layout copies
    to the same path; the Heritage layout copies [archive\pc\patch\<rest>]
    to [archive\pc\mod\<rest>]; the Other layout copies a relative path of
    ordinary components to [archive\pc\mod\<path>], subdirectories
    kept. *)
Theorem X14_archive_layout_destinations (fileTree : FileTree.FileTree) :
  (forall i, In i (Legacy.instructions (Legacy.archiveCanonInstructions fileTree)) ->
     exists f, i = Copy f f)
  /\ (forall r d,
        In (Copy ("archive\pc\patch\" ++ r) d)
           (Legacy.instructions (Legacy.archiveOldToNewCanonInstructions fileTree)) ->
        d = ("archive\pc\mod\" ++ r)%string)
  /\ (forall segs d,
        segs <> [] -> forallb ordinarySeg segs = true ->
        In (Copy (FileTree.render segs) d)
           (Legacy.instructions (Legacy.archiveOtherDirsToCanonInstructions fileTree)) ->
        d = ("archive\pc\mod\" ++ FileTree.render segs)%string).
Proof.
  split; [|split].
  - unfold Legacy.archiveCanonInstructions.
    destruct (negb _); simpl; [intros i []|].
    unfold Legacy.instructionsForSameSourceAndDestPaths. rewrite instructions_verbatim.
    intros i Hi. apply in_map_iff in Hi. destruct Hi as [f [<- _]]. now exists f.
  - intros r d. unfold Legacy.archiveOldToNewCanonInstructions.
    destruct (negb _); simpl; [intros []|].
    intros Hi. apply In_instructionsForSourceToDestPairs in Hi.
    destruct Hi as [p [Hp [_ E]]]. apply in_map_iff in Hp.
    destruct Hp as [f [<- _]]. simpl in E. injection E as Ef Ed. subst f d.
    apply replace_heritage_prefix.
  - intros segs d Hne Hs. unfold Legacy.archiveOtherDirsToCanonInstructions. simpl.
    intros Hi. apply In_instructionsForSourceToDestPairs in Hi.
    destruct Hi as [p [Hp [_ E]]]. apply in_map_iff in Hp.
    destruct Hp as [f [<- _]]. simpl in E. injection E as Ef Ed. subst f d.
    now apply join_canonical_archive_dir.
Qed.

Lemma X14_witness :
  destinationOf
    (hd (Mkdir "")
        (Legacy.instructions
           (Legacy.archiveOldToNewCanonInstructions
              (FileTree.fileTreeFromPaths ["archive\pc\patch\sub\x.archive"]))))
  = "archive\pc\mod\sub\x.archive".
Proof.
  apply (proj1 (proj2 (X14_archive_layout_destinations
                         (FileTree.fileTreeFromPaths ["archive\pc\patch\sub\x.archive"])))
               "sub\x.archive").
  left. reflexivity.
Defined.

Lemma filesUnder_In (dir f : string) (matching : string -> bool) (tree : FileTree.FileTree) :
  In f (FileTree.filesUnder dir matching tree) ->
  In f tree /\ FileTree.isDirMarker f = false /\ matching f = true.
Proof.
  unfold FileTree.filesUnder. intros H. apply filter_In in H. destruct H as [Hin H].
  apply andb_true_iff in H. destruct H as [H Hm]. apply andb_true_iff in H.
  destruct H as [Hd _]. apply negb_true_iff in Hd. auto.
Qed.

Lemma archive_layout_sources (tree : FileTree.FileTree) (i : VortexInstruction) :
  In i (Legacy.instructions (Legacy.archiveCanonInstructions tree))
  \/ In i (Legacy.instructions (Legacy.archiveOldToNewCanonInstructions tree))
  \/ In i (Legacy.instructions (Legacy.archiveOtherDirsToCanonInstructions tree)) ->
  exists s d, i = Copy s d /\ In s tree /\ JS.endsWith s Win32.sep = false.
Proof.
  intros [H|[H|H]].
  - unfold Legacy.archiveCanonInstructions in H. destruct (negb _); simpl in H; [destruct H|].
    unfold Legacy.instructionsForSameSourceAndDestPaths in H.
    apply In_instructionsForSourceToDestPairs in H.
    destruct H as [p [Hp [Hn ->]]]. apply in_map_iff in Hp. destruct Hp as [f [<- Hf]].
    exists f, f. split; [reflexivity|]. apply filesUnder_In in Hf.
    split; [tauto|]. unfold notFolder in Hn. now apply negb_true_iff in Hn.
  - unfold Legacy.archiveOldToNewCanonInstructions in H.
    destruct (negb _); simpl in H; [destruct H|].
    apply In_instructionsForSourceToDestPairs in H.
    destruct H as [p [Hp [Hn ->]]]. apply in_map_iff in Hp. destruct Hp as [f [<- Hf]].
    eexists f, _. split; [reflexivity|]. apply filesUnder_In in Hf.
    split; [tauto|]. unfold notFolder in Hn. now apply negb_true_iff in Hn.
  - unfold Legacy.archiveOtherDirsToCanonInstructions in H. simpl in H.
    apply In_instructionsForSourceToDestPairs in H.
    destruct H as [p [Hp [Hn ->]]]. apply in_map_iff in Hp. destruct Hp as [f [<- Hf]].
    eexists f, _. split; [reflexivity|]. apply in_flat_map in Hf.
    destruct Hf as [dir [_ Hf]]. apply filesUnder_In in Hf.
    split; [tauto|]. unfold notFolder in Hn. now apply negb_true_iff in Hn.
Qed.

(** X15: when the archive-only installer resolves, it has at least one
    instruction, as many instructions as the archive has files, every
    instruction copies a path of the input that is not a folder, and the
    only thing shown is the install warning. *)
Theorem X15_archive_install_sources
    (files : list string) (destinationPath : string)
    (ui : list UiEvent) (instructions : list VortexInstruction) :
  Legacy.installArchiveOnlyMod files destinationPath = (ui, Resolved instructions) ->
  instructions <> []
  /\ length instructions = archiveFileCount files
  /\ (forall e, In e ui -> exists a b l, e = ShowArchiveInstallWarning a b l)
  /\ forall i, In i instructions ->
       exists s d, i = Copy s d /\ In s files /\ JS.endsWith s Win32.sep = false.
Proof.
  unfold Legacy.installArchiveOnlyMod.
  fold (archiveTree files). fold (chosenArchiveInstructions files).
  fold (archiveFileCount files).
  pose proof (chosenArchiveInstructions_first files) as Hc.
  destruct (Legacy.instructions (chosenArchiveInstructions files)) as [|i0 l] eqn:Ei;
    [discriminate|].
  simpl Nat.ltb. cbv iota.
  destruct (length (i0 :: l) =? archiveFileCount files)%nat eqn:El; simpl negb; cbv iota;
    [|discriminate].
  intros [= <- <-]. split; [discriminate|]. split; [now apply Nat.eqb_eq|]. split.
  - intros e He. unfold Legacy.warnUserIfModMightNeedManualReview in He.
    destruct (_ || _) in He; [|destruct He].
    destruct He as [<-|[]]. eauto.
  - intros i Hi. rewrite <- Ei in Hi.
    destruct (archive_layout_sources (archiveTree files) i) as [s [d [E [Hs Hn]]]].
    + rewrite Hc in Hi.
      destruct (negb (noInstruction (Legacy.archiveCanonInstructions (archiveTree files))));
        [now left|].
      destruct (negb (noInstruction
                        (Legacy.archiveOldToNewCanonInstructions (archiveTree files))));
        [right; now left|right; now right].
    + exists s, d. split; [exact E|]. split; [|exact Hn].
      unfold archiveTree, FileTree.fileTreeFromPaths in Hs. now apply nodup_In in Hs.
Qed.

Lemma X15_witness :
  length [Copy "archive\pc\mod\a.archive" "archive\pc\mod\a.archive"]
  = archiveFileCount ["archive\pc\mod\a.archive"].
Proof.
  refine (proj1 (proj2 (X15_archive_install_sources
                          ["archive\pc\mod\a.archive"] "C:\staging\m.installing" []
                          [Copy "archive\pc\mod\a.archive" "archive\pc\mod\a.archive"] _))).
  reflexivity.
Defined.

(** ** Priorities *)

Lemma roundToDouble_exact (n : N) :
  (n <= JS.TWO_POW_53)%N -> JS.roundToDouble n = n.
Proof.
  intros H. unfold JS.roundToDouble. apply N.leb_le in H. now rewrite H.
Qed.

Lemma addNumbers_exact (a b : nat) :
  (N.of_nat a + N.of_nat b <= JS.TWO_POW_53)%N -> JS.addNumbers a b = a + b.
Proof.
  intros H. unfold JS.addNumbers. rewrite (roundToDouble_exact _ H). lia.
Qed.

(** From 2^53 on the sum is no longer exact: adding 1 to 2^53 gives 2^53
    again, so two installers would get the same priority. *)
Lemma addNumbers_rounds (start : nat) :
  N.of_nat start = JS.TWO_POW_53 ->
  JS.addNumbers start 1 = JS.addNumbers start 0.
Proof.
  intros H. unfold JS.addNumbers. rewrite H. f_equal.
Qed.

Lemma reduceWithIndex_priorityAdder (start : nat)
    (l : list (Legacy.InstallerType * string)) (index : nat)
    (acc : list (nat * (Legacy.InstallerType * string))) :
  (N.of_nat start + N.of_nat (index + length l) <= JS.TWO_POW_53)%N ->
  Legacy.reduceWithIndex (Legacy.priorityAdder start) l index acc
  = acc ++ combine (seq (start + index) (length l)) l.
Proof.
  revert index acc. induction l as [|x l IH]; intros index acc H; simpl.
  - now rewrite app_nil_r.
  - rewrite IH by (simpl in H; lia). unfold Legacy.priorityAdder.
    rewrite addNumbers_exact by (simpl in H; lia).
    rewrite <- app_assoc. simpl. now rewrite Nat.add_succ_r.
Qed.

Lemma combine_seq_snd {A : Type} (start : nat) (l : list A) :
  map snd (combine (seq start (length l)) l) = l.
Proof.
  revert start. induction l as [|x l IH]; intros s; simpl; [reflexivity|]. now rewrite IH.
Qed.

Lemma combine_seq_fst {A : Type} (start : nat) (l : list A) :
  map fst (combine (seq start (length l)) l) = seq start (length l).
Proof.
  revert start. induction l as [|x l IH]; intros s; simpl; [reflexivity|]. now rewrite IH.
Qed.

Lemma combine_seq_nth {A : Type} (start : nat) (l : list A) (k : nat) (x : A) :
  nth_error l k = Some x ->
  nth_error (combine (seq start (length l)) l) k = Some (start + k, x).
Proof.
  revert start k. induction l as [|y l IH]; intros s k Hk.
  - destruct k; discriminate.
  - destruct k as [|k]; simpl in *.
    + injection Hk as ->. now rewrite Nat.add_0_r.
    + rewrite (IH (S s) k Hk). f_equal. f_equal. lia.
Qed.



(** X17: the pipelines of both versions are their arrays tagged from 30 on
    (30 to 41 and 30 to 36), so no priority goes over 99, and the Fallback
    installer has the last place in both. *)
Theorem X17_pipeline_priorities :
  Legacy.reduceWithIndex (Legacy.priorityAdder Legacy.PRIORITY_STARTING_NUMBER)
                         Legacy.installers 0 []
  = Legacy.installerPipeline
  /\ map fst Legacy.installerPipeline = seq 30 12
  /\ map fst Previous.installerPipeline = seq 30 7
  /\ (forall p, In p (map fst Legacy.installerPipeline ++ map fst Previous.installerPipeline) ->
        30 <= p <= 99)
  /\ last (map (fun e => fst (snd e)) Legacy.installerPipeline) Legacy.NotSupported
     = Legacy.FallbackForOther
  /\ last (map (fun e => fst (snd e)) Previous.installerPipeline) Legacy.NotSupported
     = Legacy.FallbackForOther.
Proof.
  split; [reflexivity|]. split; [reflexivity|]. split; [reflexivity|].
  split; [|split; reflexivity].
  intros p Hp. cbv in Hp.
  repeat (destruct Hp as [<-|Hp]; [lia|]). destruct Hp.
Qed.

(** ** The archive installer of the earlier version *)

Lemma archiveDestination_flat (file : string) :
  hasExtension file = true ->
  Previous.archiveDestination file = ("archive\pc\mod\" ++ Win32.basename file)%string.
Proof.
  intros H. unfold Previous.archiveDestination.
  assert (Ho : ordinaryName (Win32.basename file) = true).
  { apply extname_ordinary_basename. unfold hasExtension in H.
    apply negb_true_iff in H. now apply String.eqb_neq in H. }
  pose proof (join_canonical_archive_dir [unstr (Win32.basename file)]) as J.
  unfold FileTree.render in J. simpl Win32.intercalate in J. rewrite str_unstr in J.
  apply J; [discriminate|]. simpl. unfold ordinaryName in Ho. now rewrite Ho.
Qed.

Lemma previous_archive_fold (l : list string) (b : bool) (acc : list VortexInstruction) :
  (forall f, In f l -> hasExtension f = true) ->
  fold_left
    (fun (state : bool * list VortexInstruction) file =>
       let fileName := Win32.basename file in
       let dest := Win32.join [Previous.ARCHIVE_ONLY_CANONICAL_PATH_PREFIX; fileName] in
       (fst state || negb (String.eqb file dest), snd state ++ [Copy file dest]))
    l (b, acc)
  = (b || existsb (fun f => negb (alreadyFlat f)) l, acc ++ map flattened l).
Proof.
  revert b acc. induction l as [|f l IH]; intros b acc H; simpl.
  - now rewrite orb_false_r, app_nil_r.
  - rewrite IH by (intros g Hg; apply H; now right).
    fold (Previous.archiveDestination f).
    rewrite (archiveDestination_flat f (H f (or_introl eq_refl))).
    fold (alreadyFlat f). fold (flattened f).
    rewrite <- app_assoc. simpl. now rewrite orb_assoc.
Qed.

(** X18: the archive installer of the earlier version always resolves.
    It copies every file that has an extension to
    [archive\pc\mod\<base name>], dropping its directories, and copies
    nothing else; it sends its notification exactly when some such file was
    not there already. *)
Theorem X18_earlier_archive_install_flattens (files : list string) (destinationPath : string) :
  exists ui,
    Previous.installArchiveOnlyMod files destinationPath
    = (ui, Resolved (map flattened (filter hasExtension files)))
    /\ (ui = [] \/ ui = [Previous.flattenedNotification])
    /\ (ui = [] <-> forall f, In f files -> hasExtension f = true ->
                      f = ("archive\pc\mod\" ++ Win32.basename f)%string).
Proof.
  unfold Previous.installArchiveOnlyMod.
  change (fun file : string => negb (String.eqb (Win32.extname file) "")) with hasExtension.
  rewrite previous_archive_fold
    by (intros f Hf; apply filter_In in Hf; tauto).
  simpl fst. simpl snd. simpl app.
  destruct (existsb (fun f => negb (alreadyFlat f)) (filter hasExtension files)) eqn:E.
  - eexists. split; [reflexivity|]. split; [now right|]. split; [discriminate|].
    intros H. apply existsb_exists in E. destruct E as [f [Hf Hn]].
    apply filter_In in Hf. destruct Hf as [Hf He].
    apply negb_true_iff in Hn. unfold alreadyFlat in Hn. apply String.eqb_neq in Hn.
    elim Hn. now apply H.
  - eexists. split; [reflexivity|]. split; [now left|]. split; [|reflexivity].
    intros _ f Hf He.
    pose proof (proj1 (existsb_false_iff _ _) E f) as H.
    rewrite filter_In in H. specialize (H (conj Hf He)).
    apply negb_false_iff in H. now apply String.eqb_eq in H.
Qed.

Lemma X18_witness :
  Previous.installArchiveOnlyMod
    ["archive\pc\mod\a.archive"; "extras\sub\b.archive"; "extras\readme"]
    "C:\staging\m.installing"
  = ([Previous.flattenedNotification],
     Resolved [ Copy "archive\pc\mod\a.archive" "archive\pc\mod\a.archive";
                Copy "extras\sub\b.archive" "archive\pc\mod\b.archive" ]).
Proof.
  destruct (X18_earlier_archive_install_flattens
              ["archive\pc\mod\a.archive"; "extras\sub\b.archive"; "extras\readme"]
              "C:\staging\m.installing") as [ui [E [[-> | ->] H]]].
  - exfalso. assert (Hf : "extras\sub\b.archive" = "archive\pc\mod\b.archive").
    { apply (proj1 H eq_refl "extras\sub\b.archive"); [right; now left|reflexivity]. }
    discriminate.
  - exact E.
Defined.

(** ** REDmod autoconversion has no error case *)

(** X19: the REDmod autoconversion never returns an error: the result is
    the original instructions or instructions of kind
    [REDmodTransformedLayout.Archive] made of copy instructions followed by
    the instruction that generates [info.json].  With the feature disabled
    the original instructions are returned and nothing is shown. *)
Theorem X19_autoconversion_never_fails
    (modInfoTaggedAsAutoconverted : REDmodEngine.ModInfo -> REDmodEngine.ModInfo)
    (jsonpp : REDmodEngine.REDmodInfo -> string)
    (features : REDmodEngine.Features) (modInfo : REDmodEngine.ModInfo)
    (originalInstructions : REDmodEngine.Instructions) :
  (exists result,
      snd (REDmodEngine.transformToREDmodArchiveInstructions
             modInfoTaggedAsAutoconverted jsonpp features modInfo originalInstructions)
      = REDmodEngine.right result
      /\ (result = originalInstructions
          \/ (REDmodEngine.kind result = REDmodEngine.REDmodTransformedLayout_Archive
              /\ exists copies,
                  REDmodEngine.instructions result
                  = copies ++ [REDmodEngine.generateInfoJsonInstruction
                                 modInfoTaggedAsAutoconverted jsonpp modInfo]
                  /\ forall i, In i copies -> isCopy i = true)))
  /\ (REDmodEngine.REDmodAutoconvertArchives features = REDmodEngine.Disabled ->
      REDmodEngine.transformToREDmodArchiveInstructions
        modInfoTaggedAsAutoconverted jsonpp features modInfo originalInstructions
      = ([], REDmodEngine.right originalInstructions)).
Proof.
  unfold REDmodEngine.transformToREDmodArchiveInstructions.
  destruct (REDmodEngine.REDmodAutoconvertArchives features); simpl REDmodEngine.isEnabled;
    simpl negb; cbv iota.
  2:{ split; [|reflexivity]. eexists. split; [reflexivity|now left]. }
  split; [|discriminate].
  destruct (REDmodEngine.isXL (REDmodEngine.kind originalInstructions)).
  { eexists. split; [reflexivity|now left]. }
  cbv zeta. unfold REDmodEngine.archiveLayoutAndValidation. simpl snd.
  eexists. split; [reflexivity|]. right. split; [reflexivity|].
  eexists. split; [reflexivity|].
  intros i Hi. apply in_map_iff in Hi. destruct Hi as [j [<- Hj]].
  unfold REDmodEngine.instructionsToMoveAllFromSourceToDestination,
    REDmodEngine.instructionsForSourceToDestPairs in Hj.
  apply In_instructionsForSourceToDestPairs in Hj. destruct Hj as [p [_ [_ ->]]].
  unfold REDmodEngine.mappedBackToRealSource.
  destruct (negb (String.eqb (fst p) "")); [|reflexivity].
  destruct (lookupKey (fst p) _) as [real|]; [|reflexivity].
  now destruct (negb (String.eqb real "")).
Qed.

(** ** The Redscript layouts *)

Lemma segsEqb_segsPrefix (a b : list chars) :
  FileTree.segsEqb a b = true -> FileTree.segsPrefix a b = true.
Proof.
  revert b. induction a as [|x a IH]; intros b; [reflexivity|].
  destruct b as [|y b]; simpl; [discriminate|].
  intros H. apply andb_true_iff in H. destruct H as [H1 H2].
  now rewrite H1, (IH b H2).
Qed.

Lemma filesIn_filesUnder (dir f : string) (matching : string -> bool)
    (tree : FileTree.FileTree) :
  In f (FileTree.filesIn dir matching tree) ->
  In f (FileTree.filesUnder dir FileTree.GlobAny tree).
Proof.
  unfold FileTree.filesIn, FileTree.filesUnder. rewrite !filter_In.
  intros [Hin H]. split; [exact Hin|].
  apply andb_true_iff in H. destruct H as [H _]. apply andb_true_iff in H.
  destruct H as [Hd He]. rewrite Hd, (segsEqb_segsPrefix _ _ He). reflexivity.
Qed.

Lemma dirWithSomeIn_filesUnder (dir : string) (matching : string -> bool)
    (tree : FileTree.FileTree) :
  FileTree.dirWithSomeIn dir matching tree = true ->
  FileTree.filesUnder dir FileTree.GlobAny tree <> [].
Proof.
  unfold FileTree.dirWithSomeIn. intros H.
  destruct (FileTree.filesIn dir matching tree) as [|f l] eqn:E; [discriminate|].
  assert (Hf : In f (FileTree.filesIn dir matching tree)) by (rewrite E; now left).
  apply filesIn_filesUnder in Hf. intros E'. rewrite E' in Hf. destruct Hf.
Qed.

Lemma canon_files_nonempty (tree : FileTree.FileTree) :
  RedscriptLayouts.findCanonicalRedscriptDirs tree <> [] ->
  flat_map (fun namedSubdir => FileTree.filesUnder namedSubdir FileTree.GlobAny tree)
           (RedscriptLayouts.findCanonicalRedscriptDirs tree) <> [].
Proof.
  intros Hne.
  destruct (RedscriptLayouts.findCanonicalRedscriptDirs tree) as [|sub subs] eqn:E;
    [now elim Hne|].
  assert (Hs : In sub (RedscriptLayouts.findCanonicalRedscriptDirs tree))
    by (rewrite E; now left).
  unfold RedscriptLayouts.findCanonicalRedscriptDirs, FileTree.findDirectSubdirsWithSome in Hs.
  apply filter_In in Hs. destruct Hs as [_ Hs].
  apply dirWithSomeIn_filesUnder in Hs. simpl.
  destruct (FileTree.filesUnder sub FileTree.GlobAny tree); [now elim Hs|discriminate].
Qed.

(** X20: the Basedir and the Canon layout of [installer.redscript.ts]
    return instructions exactly when their detectors say so, each with its
    own kind, and never both for one tree; the Canon layout copies every
    file to its own path. *)
Theorem X20_redscript_layout_functions_follow_their_detectors
    (modName : string) (fileTree : FileTree.FileTree) :
  hasInstructions (RedscriptLayouts.redscriptBasedirLayout modName fileTree)
  = RedscriptLayouts.detectRedscriptBasedirLayout fileTree
  /\ hasInstructions (RedscriptLayouts.redscriptCanonLayout modName fileTree)
     = RedscriptLayouts.detectRedscriptCanonOnlyLayout fileTree
  /\ hasInstructions (RedscriptLayouts.redscriptBasedirLayout modName fileTree)
     && hasInstructions (RedscriptLayouts.redscriptCanonLayout modName fileTree) = false
  /\ (forall kind instructions,
        RedscriptLayouts.redscriptBasedirLayout modName fileTree
        = RedscriptLayouts.With kind instructions -> kind = RedscriptLayouts.Basedir)
  /\ (forall kind instructions,
        RedscriptLayouts.redscriptCanonLayout modName fileTree
        = RedscriptLayouts.With kind instructions ->
        kind = RedscriptLayouts.Canon
        /\ forall i, In i instructions -> exists f, i = Copy f f).
Proof.
  assert (Hb : hasInstructions (RedscriptLayouts.redscriptBasedirLayout modName fileTree)
               = RedscriptLayouts.detectRedscriptBasedirLayout fileTree).
  { unfold RedscriptLayouts.redscriptBasedirLayout.
    now destruct (RedscriptLayouts.detectRedscriptBasedirLayout fileTree). }
  assert (Hc : hasInstructions (RedscriptLayouts.redscriptCanonLayout modName fileTree)
               = RedscriptLayouts.detectRedscriptCanonOnlyLayout fileTree).
  { unfold RedscriptLayouts.redscriptCanonLayout,
      RedscriptLayouts.detectRedscriptCanonOnlyLayout.
    pose proof (canon_files_nonempty fileTree) as Hne.
    destruct (RedscriptLayouts.findCanonicalRedscriptDirs fileTree) as [|sub subs] eqn:E.
    - simpl. now rewrite andb_false_r.
    - destruct (flat_map _ (sub :: subs)) as [|f fs]; [elim Hne; [discriminate|reflexivity]|].
      simpl length. simpl Nat.ltb. cbv iota. rewrite andb_true_r.
      now destruct (RedscriptLayouts.detectRedscriptBasedirLayout fileTree). }
  split; [exact Hb|]. split; [exact Hc|]. split; [|split].
  - rewrite Hb, Hc. unfold RedscriptLayouts.detectRedscriptCanonOnlyLayout.
    now destruct (RedscriptLayouts.detectRedscriptBasedirLayout fileTree).
  - intros kind instructions. unfold RedscriptLayouts.redscriptBasedirLayout.
    destruct (negb _); [discriminate|]. now intros [= <- _].
  - intros kind instructions. unfold RedscriptLayouts.redscriptCanonLayout.
    destruct (_ <? 1)%nat; [discriminate|].
    destruct (RedscriptLayouts.detectRedscriptBasedirLayout fileTree); [discriminate|].
    intros [= <- <-]. split; [reflexivity|].
    unfold Legacy.instructionsForSameSourceAndDestPaths. rewrite instructions_verbatim.
    intros i Hi. apply in_map_iff in Hi. destruct Hi as [f [<- _]]. now exists f.
Qed.

Lemma dirWithSomeIn_In (dir : string) (matching : string -> bool) (paths : list string) :
  FileTree.dirWithSomeIn dir matching (FileTree.fileTreeFromPaths paths) = true ->
  exists f, In f paths /\ matching f = true.
Proof.
  unfold FileTree.dirWithSomeIn. intros H.
  destruct (FileTree.filesIn dir matching (FileTree.fileTreeFromPaths paths)) as [|f l] eqn:E;
    [discriminate|].
  assert (Hf : In f (FileTree.filesIn dir matching (FileTree.fileTreeFromPaths paths)))
    by (rewrite E; now left).
  unfold FileTree.filesIn in Hf. apply filter_In in Hf. destruct Hf as [Hin Hm].
  apply andb_true_iff in Hm. destruct Hm as [_ Hm].
  exists f. split; [|exact Hm]. unfold FileTree.fileTreeFromPaths in Hin.
  now apply nodup_In in Hin.
Qed.

(** X21: when the Redscript detector of [installer.redscript.ts] does not
    accept a file list, no Redscript layout is present in its file tree:
    the installer returns what the prompt to fall back or fail returns,
    and the Basedir and Canon layouts return [NoMatch]. *)
Theorem X21_no_redscript_file_no_redscript_layout
    (prompt : InstallerType -> FileTree.FileTree -> Ui (Promise VortexInstallResult))
    (extra : FileTree.FileTree -> Ui (list VortexInstruction))
    (files : list string) (destinationPath modName : string) :
  supportedBy (RedscriptInstaller.testForRedscriptMod files (FileTree.fileTreeFromPaths files))
  = false ->
  RedscriptInstaller.installable (FileTree.fileTreeFromPaths files) = []
  /\ RedscriptInstaller.installRedscriptMod prompt extra files
       (FileTree.fileTreeFromPaths files) destinationPath
     = prompt Redscript (FileTree.fileTreeFromPaths files)
  /\ RedscriptLayouts.redscriptBasedirLayout modName (FileTree.fileTreeFromPaths files)
     = RedscriptLayouts.Without RedscriptLayouts.NoMatch
  /\ RedscriptLayouts.redscriptCanonLayout modName (FileTree.fileTreeFromPaths files)
     = RedscriptLayouts.Without RedscriptLayouts.NoMatch.
Proof.
  intros Hs.
  assert (Hno : forall f, In f files -> RedscriptInstaller.matchRedscript f = false).
  { unfold RedscriptInstaller.testForRedscriptMod in Hs.
    destruct (RedscriptInstaller.allRedscriptFiles files) as [|r rs] eqn:E; [|discriminate].
    intros f Hf. destruct (RedscriptInstaller.matchRedscript f) eqn:Em; [|reflexivity].
    assert (In f (RedscriptInstaller.allRedscriptFiles files))
      by (apply filter_In; auto).
    rewrite E in H. destruct H. }
  assert (Hdir : forall dir,
             FileTree.dirWithSomeIn dir RedscriptInstaller.matchRedscript
               (FileTree.fileTreeFromPaths files) = false).
  { intros dir. destruct (FileTree.dirWithSomeIn dir _ _) eqn:E; [|reflexivity].
    apply dirWithSomeIn_In in E. destruct E as [f [Hf Hm]].
    rewrite (Hno f Hf) in Hm. discriminate. }
  assert (Hsub : forall dir,
             FileTree.findDirectSubdirsWithSome dir RedscriptInstaller.matchRedscript
               (FileTree.fileTreeFromPaths files) = []).
  { intros dir. unfold FileTree.findDirectSubdirsWithSome.
    induction (FileTree.subdirsIn dir (FileTree.fileTreeFromPaths files)) as [|s l IH];
      [reflexivity|]. simpl. now rewrite Hdir. }
  assert (Hi : RedscriptInstaller.installable (FileTree.fileTreeFromPaths files) = []).
  { unfold RedscriptInstaller.installable, RedscriptInstaller.hasToplevelReds,
      RedscriptInstaller.hasBasedirReds, RedscriptInstaller.hasCanonReds,
      RedscriptInstaller.canonSubdirs.
    now rewrite !Hdir, Hsub. }
  split; [exact Hi|]. split; [|split].
  - unfold RedscriptInstaller.installRedscriptMod. now rewrite Hi.
  - unfold RedscriptLayouts.redscriptBasedirLayout,
      RedscriptLayouts.detectRedscriptBasedirLayout, RedscriptLayouts.matchRedscript.
    now rewrite Hdir.
  - unfold RedscriptLayouts.redscriptCanonLayout,
      RedscriptLayouts.findCanonicalRedscriptDirs, RedscriptLayouts.matchRedscript.
    now rewrite Hsub.
Qed.

Lemma X21_witness :
  RedscriptInstaller.installRedscriptMod
    (fun _ _ => ([PromptUserOnUnresolvableLayout Redscript []], Rejected "cancelled"))
    (fun _ => ([], []))
    ["readme.txt"; "r6\scripts\notes.md"]
    (FileTree.fileTreeFromPaths ["readme.txt"; "r6\scripts\notes.md"])
    "C:\staging\m.installing"
  = ([PromptUserOnUnresolvableLayout Redscript []], Rejected "cancelled").
Proof.
  refine (proj1 (proj2 (X21_no_redscript_file_no_redscript_layout
                          (fun _ _ => ([PromptUserOnUnresolvableLayout Redscript []],
                                       Rejected "cancelled"))
                          (fun _ => ([], []))
                          ["readme.txt"; "r6\scripts\notes.md"]
                          "C:\staging\m.installing" "m" _))).
  reflexivity.
Defined.

(** ** The mixed installer and the CET installer *)

Lemma regularFiles_app (a b : list string) :
  regularFiles (a ++ b) = regularFiles a ++ regularFiles b.
Proof. unfold regularFiles. apply filter_app. Qed.

Lemma mixed_install_resolved `{KT : KeyTreeLib} (files : list string)
    (destinationPath : string) (ui : list Legacy.MixedDialog)
    (instructions : list VortexInstruction) :
  Legacy.installRedCetMixedMod files destinationPath = (ui, Resolved instructions) ->
  Legacy.allCanonicalCetFiles files <> []
  /\ exists modName,
      instructions
      = (map verbatim (regularFiles (Legacy.canonRedsModFiles files))
         ++ Legacy.instructionsForSourceToDestPairs
              (map (Legacy.toDirInPath Legacy.REDS_MOD_CANONICAL_PATH_PREFIX modName)
                   (Legacy.redsDirReds files)))
        ++ map verbatim (regularFiles (Legacy.allCanonicalCetFiles files
                                       ++ Legacy.allCanonicalArchiveOnlyFiles files)).
Proof.
  unfold Legacy.installRedCetMixedMod.
  destruct (0 <? length (Legacy.topLevelReds files))%nat; [discriminate|].
  rewrite length_eqb_0.
  destruct (lengthIsZero (Legacy.allCanonicalCetFiles files)) eqn:Ec; [discriminate|].
  destruct (length (Legacy.installableReds files) =? 0)%nat; [discriminate|].
  destruct (1 <? length (Legacy.installableReds files))%nat; [discriminate|].
  destruct (Legacy.firstCetModName files) as [modName|]; [|discriminate].
  intros [= _ <-]. split.
  - intros E. rewrite E in Ec. discriminate.
  - exists modName. simpl flat_map. rewrite !instructions_verbatim.
    rewrite regularFiles_app, map_app, app_nil_r. now rewrite <- !app_assoc.
Qed.

(** X22: when the mixed installer resolves, its instructions are a
    Redscript part, copies of files found in [r6\scripts] or in its one
    subdirectory, followed by exactly the instructions the CET installer
    resolves with on the same files. *)
Theorem X22_mixed_install_ends_with_cet_install `{KT : KeyTreeLib}
    (files : list string) (destinationPath destinationPath' : string)
    (ui : list Legacy.MixedDialog) (instructions : list VortexInstruction) :
  Legacy.installRedCetMixedMod files destinationPath = (ui, Resolved instructions) ->
  exists redscriptPart cetPart,
    Legacy.installCetMod files destinationPath' = Resolved cetPart
    /\ instructions = redscriptPart ++ cetPart
    /\ forall i, In i redscriptPart ->
         exists f d, i = Copy f d
                     /\ (In f (Legacy.canonRedsModFiles files)
                         \/ In f (Legacy.redsDirReds files)).
Proof.
  intros H. apply mixed_install_resolved in H. destruct H as [Hc [modName ->]].
  eexists _, _. split; [exact (installCetMod_resolves files destinationPath' Hc)|].
  split; [reflexivity|].
  intros i Hi. apply in_app_or in Hi. destruct Hi as [Hi|Hi].
  - apply in_map_iff in Hi. destruct Hi as [f [<- Hf]]. exists f, f.
    split; [reflexivity|]. left. unfold regularFiles in Hf. apply filter_In in Hf. tauto.
  - apply In_instructionsForSourceToDestPairs in Hi. destruct Hi as [p [Hp [_ ->]]].
    apply in_map_iff in Hp. destruct Hp as [f [<- Hf]]. eexists f, _.
    split; [reflexivity|]. now right.
Qed.

Lemma X22_witness :
  exists redscriptPart cetPart,
    Legacy.installCetMod (KT := FlatKeyTree.lib)
      ["bin\x64\plugins\cyber_engine_tweaks\mods\MyMod\init.lua"; "r6\scripts\main.reds"]
      "C:\staging\m.installing"
    = Resolved cetPart
    /\ [ Copy "r6\scripts\main.reds" "r6\scripts\MyMod\main.reds";
         Copy "bin\x64\plugins\cyber_engine_tweaks\mods\MyMod\init.lua"
              "bin\x64\plugins\cyber_engine_tweaks\mods\MyMod\init.lua" ]
       = redscriptPart ++ cetPart
    /\ forall i, In i redscriptPart ->
         exists f d, i = Copy f d
                     /\ (In f (Legacy.canonRedsModFiles (KT := FlatKeyTree.lib)
                                 ["bin\x64\plugins\cyber_engine_tweaks\mods\MyMod\init.lua";
                                  "r6\scripts\main.reds"])
                         \/ In f (Legacy.redsDirReds (KT := FlatKeyTree.lib)
                                    ["bin\x64\plugins\cyber_engine_tweaks\mods\MyMod\init.lua";
                                     "r6\scripts\main.reds"])).
Proof.
  apply (X22_mixed_install_ends_with_cet_install (KT := FlatKeyTree.lib)
           ["bin\x64\plugins\cyber_engine_tweaks\mods\MyMod\init.lua"; "r6\scripts\main.reds"]
           "C:\staging\m.installing" "C:\staging\m.installing" []).
  reflexivity.
Defined.

(** ** Files outside the Canon layout *)

Lemma filter_length_lt {A : Type} (p q : A -> bool) (l : list A) (x : A) :
  (forall y, p y = true -> q y = true) ->
  In x l -> q x = true -> p x = false ->
  length (filter p l) < length (filter q l).
Proof.
  intros Hpq. induction l as [|a l IH]; [intros []|].
  assert (Hle : length (filter p l) <= length (filter q l)).
  { clear IH. induction l as [|b l IHl]; simpl; [lia|].
    destruct (p b) eqn:Eb.
    - rewrite (Hpq b Eb). simpl. lia.
    - destruct (q b); simpl; lia. }
  intros [<-|Hx] Hq Hp; simpl.
  - rewrite Hq, Hp. simpl. lia.
  - specialize (IH Hx Hq Hp). destruct (p a) eqn:Ea.
    + rewrite (Hpq a Ea). simpl. lia.
    + destruct (q a); simpl; lia.
Qed.

Lemma canon_instructions_length (tree : FileTree.FileTree) :
  length (Legacy.instructions (Legacy.archiveCanonInstructions tree))
  <= length (FileTree.filesUnder Legacy.ARCHIVE_ONLY_CANONICAL_PREFIX FileTree.GlobAny tree).
Proof.
  unfold Legacy.archiveCanonInstructions. destruct (negb _); simpl; [lia|].
  unfold Legacy.instructionsForSameSourceAndDestPaths.
  rewrite instructions_verbatim, length_map. apply filter_length_le.
Qed.

Lemma dirMarker_endsWith (f : string) :
  FileTree.isDirMarker f = false -> JS.endsWith f Win32.sep = false.
Proof. apply endsWith_sep_false. Qed.

Lemma canon_instructions_nonempty (tree : FileTree.FileTree) :
  FileTree.dirWithSomeUnder Legacy.ARCHIVE_ONLY_CANONICAL_PREFIX Legacy.matchArchive tree
  = true ->
  Legacy.instructions (Legacy.archiveCanonInstructions tree) <> [].
Proof.
  intros H. unfold Legacy.archiveCanonInstructions. rewrite H. simpl.
  unfold FileTree.dirWithSomeUnder in H.
  destruct (FileTree.filesUnder Legacy.ARCHIVE_ONLY_CANONICAL_PREFIX Legacy.matchArchive tree)
    as [|f l] eqn:E; [discriminate|].
  assert (Hf : In f (FileTree.filesUnder Legacy.ARCHIVE_ONLY_CANONICAL_PREFIX
                       Legacy.matchArchive tree)) by (rewrite E; now left).
  unfold FileTree.filesUnder in Hf. apply filter_In in Hf. destruct Hf as [Hin Hf].
  apply andb_true_iff in Hf. destruct Hf as [Hf _]. apply andb_true_iff in Hf.
  destruct Hf as [Hd Hp].
  assert (Hg : In f (FileTree.filesUnder Legacy.ARCHIVE_ONLY_CANONICAL_PREFIX
                       FileTree.GlobAny tree)).
  { unfold FileTree.filesUnder. apply filter_In. split; [exact Hin|].
    now rewrite Hd, Hp. }
  unfold Legacy.instructionsForSameSourceAndDestPaths. rewrite instructions_verbatim.
  intros En. apply map_eq_nil in En.
  assert (Hr : In f (regularFiles (FileTree.filesUnder Legacy.ARCHIVE_ONLY_CANONICAL_PREFIX
                                     FileTree.GlobAny tree))).
  { unfold regularFiles. apply filter_In. split; [exact Hg|].
    apply negb_true_iff in Hd. now rewrite (dirMarker_endsWith f Hd). }
  rewrite En in Hr. destruct Hr.
Qed.

(** X23: when an archive has an archive file under [archive\pc\mod\],
    so that the Canon layout is chosen, and any file outside that
    directory, the archive-only installer rejects with the structure-error
    dialog: the instructions of the chosen layout do not cover the
    archive. *)
Theorem X23_archive_install_rejects_files_outside_canon
    (files : list string) (destinationPath file : string) :
  FileTree.dirWithSomeUnder Legacy.ARCHIVE_ONLY_CANONICAL_PREFIX Legacy.matchArchive
    (archiveTree files) = true ->
  In file files ->
  FileTree.isDirMarker file = false ->
  underDir Legacy.ARCHIVE_ONLY_CANONICAL_PREFIX file = false ->
  Legacy.installArchiveOnlyMod files destinationPath
  = ([ShowArchiveStructureErrorDialog Legacy.conflictingLayoutsMessage files],
     Rejected Legacy.conflictingLayoutsMessage).
Proof.
  intros Hcanon Hin Hd Hout.
  pose proof (canon_instructions_nonempty _ Hcanon) as Hne.
  pose proof (canon_instructions_length (archiveTree files)) as Hle.
  assert (Hlt : length (FileTree.filesUnder Legacy.ARCHIVE_ONLY_CANONICAL_PREFIX
                          FileTree.GlobAny (archiveTree files))
                < archiveFileCount files).
  { unfold archiveFileCount. rewrite filesUnder_root. unfold FileTree.filesUnder.
    apply (filter_length_lt _ _ _ file).
    - intros y Hy. apply andb_true_iff in Hy. destruct Hy as [Hy _].
      apply andb_true_iff in Hy. tauto.
    - unfold archiveTree, FileTree.fileTreeFromPaths. now apply nodup_In.
    - now rewrite Hd.
    - unfold underDir in Hout. now rewrite Hd, Hout. }
  unfold Legacy.installArchiveOnlyMod.
  fold (archiveTree files). fold (chosenArchiveInstructions files).
  fold (archiveFileCount files).
  rewrite chosenArchiveInstructions_first. unfold noInstruction.
  destruct (Legacy.instructions (Legacy.archiveCanonInstructions (archiveTree files)))
    as [|i l] eqn:Ei; [now elim Hne|].
  simpl lengthIsZero. simpl negb. cbv iota. rewrite Ei.
  simpl Nat.ltb. cbv iota.
  assert (Hneq : (length (i :: l) =? archiveFileCount files)%nat = false).
  { apply Nat.eqb_neq. lia. }
  now rewrite Hneq.
Qed.

Lemma X23_witness :
  Legacy.installArchiveOnlyMod
    ["archive\pc\mod\a.archive"; "archive\pc\patch\b.archive"] "C:\staging\m.installing"
  = ([ShowArchiveStructureErrorDialog Legacy.conflictingLayoutsMessage
        ["archive\pc\mod\a.archive"; "archive\pc\patch\b.archive"]],
     Rejected Legacy.conflictingLayoutsMessage).
Proof.
  apply (X23_archive_install_rejects_files_outside_canon
           ["archive\pc\mod\a.archive"; "archive\pc\patch\b.archive"]
           "C:\staging\m.installing" "archive\pc\patch\b.archive").
  - reflexivity.
  - right. left. reflexivity.
  - reflexivity.
  - reflexivity.
Defined.

(** ** REDmod autoconversion adds no copy *)

Lemma mapSet_length (k val : string) (m : list (string * string)) :
  length (REDmodEngine.mapSet k val m) <= S (length m).
Proof.
  induction m as [|[k' v'] m IH]; simpl; [lia|].
  destruct (String.eqb k k'); simpl; lia.
Qed.

Lemma newMap_length (pairs : list (string * string)) :
  length (REDmodEngine.newMap pairs) <= length pairs.
Proof.
  unfold REDmodEngine.newMap.
  assert (H : forall m, length (fold_left (fun m p => REDmodEngine.mapSet (fst p) (snd p) m)
                                          pairs m)
                        <= length m + length pairs).
  { induction pairs as [|p pairs IH]; intros m; simpl; [lia|].
    specialize (IH (REDmodEngine.mapSet (fst p) (snd p) m)).
    pose proof (mapSet_length (fst p) (snd p) m). lia. }
  apply (H []).
Qed.

Lemma virtual_pairs_length
    (tagger : REDmodEngine.ModInfo -> REDmodEngine.ModInfo)
    (modInfo : REDmodEngine.ModInfo) (original : REDmodEngine.Instructions) :
  length (REDmodEngine.realSourceAndVirtualSourcePairs tagger modInfo original)
  = length (copies (REDmodEngine.instructions original)).
Proof.
  unfold REDmodEngine.realSourceAndVirtualSourcePairs, copies.
  induction (REDmodEngine.instructions original) as [|i l IH]; [reflexivity|].
  destruct i; simpl; now rewrite ?IH.
Qed.

Lemma copies_app (a b : list VortexInstruction) : copies (a ++ b) = copies a ++ copies b.
Proof. apply filter_app. Qed.

Lemma mappedBack_isCopy (m : list (string * string)) (i : VortexInstruction) :
  isCopy (REDmodEngine.mappedBackToRealSource m i) = isCopy i.
Proof.
  destruct i as [s d| |]; try reflexivity. simpl.
  destruct (negb (String.eqb s "")); [|reflexivity].
  destruct (lookupKey s m) as [real|]; [|reflexivity].
  now destruct (negb (String.eqb real "")).
Qed.

Lemma copies_mappedBack (m : list (string * string)) (l : list VortexInstruction) :
  length (copies (map (REDmodEngine.mappedBackToRealSource m) l)) = length (copies l).
Proof.
  unfold copies. induction l as [|i l IH]; [reflexivity|]. simpl.
  rewrite mappedBack_isCopy. destruct (isCopy i); simpl; now rewrite IH.
Qed.

(** X24: the REDmod autoconversion returns at most as many copy
    instructions as it was given: copies whose destinations coincide are
    merged, and nothing is copied that the original instructions did not
    copy. *)
Theorem X24_autoconversion_adds_no_copy
    (modInfoTaggedAsAutoconverted : REDmodEngine.ModInfo -> REDmodEngine.ModInfo)
    (jsonpp : REDmodEngine.REDmodInfo -> string)
    (features : REDmodEngine.Features) (modInfo : REDmodEngine.ModInfo)
    (originalInstructions : REDmodEngine.Instructions) :
  exists result,
    snd (REDmodEngine.transformToREDmodArchiveInstructions
           modInfoTaggedAsAutoconverted jsonpp features modInfo originalInstructions)
    = REDmodEngine.right result
    /\ length (copies (REDmodEngine.instructions result))
       <= length (copies (REDmodEngine.instructions originalInstructions)).
Proof.
  unfold REDmodEngine.transformToREDmodArchiveInstructions.
  destruct (negb (REDmodEngine.isEnabled (REDmodEngine.REDmodAutoconvertArchives features))).
  { eexists. split; [reflexivity|lia]. }
  destruct (REDmodEngine.isXL (REDmodEngine.kind originalInstructions)).
  { eexists. split; [reflexivity|lia]. }
  cbv zeta. unfold REDmodEngine.archiveLayoutAndValidation. simpl snd.
  eexists. split; [reflexivity|]. simpl REDmodEngine.instructions.
  rewrite copies_app, length_app. simpl copies at 2. simpl length at 2.
  rewrite copies_mappedBack, Nat.add_0_r.
  unfold REDmodEngine.instructionsToMoveAllFromSourceToDestination,
    REDmodEngine.instructionsForSourceToDestPairs.
  rewrite instructionsForSourceToDestPairs_map.
  match goal with
  | |- length (copies (map ?f (filter notFolder (map ?g ?l)))) <= _ =>
      assert (H1 : length (copies (map f (filter notFolder (map g l)))) <= length l)
  end.
  { unfold copies.
    match goal with |- length (filter isCopy ?x) <= _ => pose proof (filter_length_le isCopy x) as Ha end.
    rewrite length_map in Ha.
    match type of Ha with _ <= length (filter notFolder ?y) => pose proof (filter_length_le notFolder y) as Hb end.
    rewrite length_map in Hb. lia. }
  etransitivity; [exact H1|].
  unfold FileTree.filesUnder.
  match goal with |- length (filter ?p ?t) <= _ => pose proof (filter_length_le p t) as Hc end.
  etransitivity; [exact Hc|].
  unfold FileTree.fileTreeFromPaths.
  match goal with |- length (nodup _ ?k) <= _ => pose proof (NoDup_incl_length (NoDup_nodup string_dec k) (fun x H => proj1 (nodup_In string_dec k x) H)) as Hd end.
  etransitivity; [exact Hd|].
  unfold REDmodEngine.mapKeys. rewrite length_map.
  etransitivity; [apply newMap_length|].
  now rewrite virtual_pairs_length.
Qed.

(** ** The two versions *)

(** X25: the two versions side by side.  For the game [cyberpunk2077] the
    INI and the Fallback detector of [src/installers.ts] answer as those of
    the earlier version, and for any other game they report that they do
    not support the mod; every instruction of the later JSON installer is
    an instruction of the earlier one; the Fallback installers resolve with
    the same instructions, the earlier one handing an empty list of
    instructions to its dialog. *)
Theorem X25_later_version_adds_the_game_guard
    (files : list string) (gameId destinationPath : string) :
  Legacy.testForIniMod files gameId
  = (if String.eqb gameId Legacy.GAME_ID then Textfiles.testForIniMod files gameId
     else Resolved (mkTestResult false []))
  /\ Legacy.testAnyOtherModFallback files gameId
     = (if String.eqb gameId Legacy.GAME_ID
        then Previous.testAnyOtherModFallback files gameId
        else Resolved (mkTestResult false []))
  /\ (forall later earlier,
        Legacy.installJsonMod files destinationPath = Resolved later ->
        Textfiles.installJsonMod files destinationPath = Resolved earlier ->
        incl later earlier)
  /\ snd (Previous.installAnyModWithBasicFixes files destinationPath)
     = snd (Legacy.installAnyModWithBasicFixes files destinationPath)
  /\ fst (Previous.installAnyModWithBasicFixes files destinationPath)
     = [FallbackInstallerReachedErrorDialog Legacy.fallbackMessage files []].
Proof.
  split; [|split; [|split; [|split]]].
  - unfold Legacy.testForIniMod, Textfiles.testForIniMod.
    destruct (String.eqb gameId Legacy.GAME_ID); [|reflexivity]. simpl negb. cbv iota.
    now rewrite length_eqb_0.
  - unfold Legacy.testAnyOtherModFallback, Previous.testAnyOtherModFallback.
    now destruct (String.eqb gameId Legacy.GAME_ID).
  - intros later earlier. rewrite installJsonMod_eq. unfold Textfiles.installJsonMod.
    intros [= <-] [= <-] i Hi. simpl app.
    apply in_map_iff in Hi. destruct Hi as [f [<- Hf]].
    apply in_map_iff. exists f. split; [reflexivity|].
    apply filter_In. apply in_app_or in Hf.
    destruct Hf as [Hf|Hf]; apply filter_In in Hf; destruct Hf as [Hin He];
      (split; [exact Hin|]).
    + unfold isJsonFileExact in He. apply String.eqb_eq in He. now rewrite He.
    + unfold isTextFile in He. apply orb_true_iff in He.
      destruct He as [He|He]; apply String.eqb_eq in He; now rewrite He.
  - reflexivity.
  - reflexivity.
Qed.
